(** * AuthSessionSettings: the settings blob of Telegram/SourceFiles/auth_session.cpp

    A shallow embedding of [AuthSessionSettings::serialize],
    [AuthSessionSettings::constructFromSerialized] and the two panel setters,
    together with the part of Qt's [QDataStream] they run on.

    Layout of the file: the data model and the operations first (wire
    integers, the stream, Qt's containers, binary64, the settings record, the
    encoder, the decoder, the setters), then the lemmas and the theorems. *)

From Stdlib Require Import ZArith List Bool Lia Sorted NArith Zpower.
From Stdlib Require String.
Import String.StringSyntax.
Delimit Scope string_scope with string.
From Stdlib Require Import Strings.Byte.
From Stdlib Require Import Floats.SpecFloat.
Import ListNotations.
Local Open Scope Z_scope.

(* ===================================================================== *)
(** ** Wire integers                                                      *)
(* ===================================================================== *)

(** A [QDataStream] writes integers big-endian (Qt's default byte order; the
    source never calls [setByteOrder]).  A w-bit C++ integer is a [Z]; the
    conversions below spell out the wrap-around. *)

Definition byte_of_Z (z : Z) : byte :=
  match Byte.of_N (Z.to_N (z mod 256)) with
  | Some b => b
  | None => x00
  end.

Definition Z_of_byte (b : byte) : Z := Z.of_N (Byte.to_N b).

(** [be_encode n z]: the low [n] bytes of [z], most significant first. *)
Fixpoint be_encode (n : nat) (z : Z) : list byte :=
  match n with
  | O => []
  | S n' => byte_of_Z (z / 256 ^ Z.of_nat n') :: be_encode n' z
  end.

Fixpoint be_decode (l : list byte) : Z :=
  match l with
  | [] => 0
  | b :: t => Z_of_byte b * 256 ^ Z.of_nat (length t) + be_decode t
  end.

(** Two's complement reading of an unsigned 32-bit pattern. *)
Definition to_signed32 (u : Z) : Z :=
  if u <? 2 ^ 31 then u else u - 2 ^ 32.

(** [static_cast<qint32>] / [int] arithmetic result: wrap into the int range. *)
Definition wrap32 (z : Z) : Z := to_signed32 (z mod 2 ^ 32).

Definition is_int32 (z : Z) : Prop := - 2 ^ 31 <= z < 2 ^ 31.
Definition is_uint64 (z : Z) : Prop := 0 <= z < 2 ^ 64.

Definition write_qint32 (z : Z) : list byte := be_encode 4 z.
Definition write_quint32 (z : Z) : list byte := be_encode 4 z.
Definition write_quint64 (z : Z) : list byte := be_encode 8 z.

(* ===================================================================== *)
(** ** Qt value types                                                     *)
(* ===================================================================== *)

(** A [QChar] is one UTF-16 code unit, a number below 65536. *)
Definition QChar := Z.

(** [QString] and [QByteArray] distinguish the null value ([None]) from an
    empty one ([Some []]); [isEmpty] is true of both. *)
Definition QString := option (list QChar).
Definition QByteArray := option (list byte).

Definition qs_units (s : QString) : list QChar :=
  match s with None => [] | Some l => l end.

Definition ba_bytes (b : QByteArray) : list byte :=
  match b with None => [] | Some l => l end.

Definition ba_isEmpty (b : QByteArray) : bool :=
  match ba_bytes b with [] => true | _ => false end.

(** [operator<] on [QString] compares the code units lexicographically; a
    null string has none. *)
Definition qs_compare (a b : QString) : comparison :=
  list_compare Z.compare (qs_units a) (qs_units b).

Fixpoint bytes_of_units (l : list QChar) : list byte :=
  match l with
  | [] => []
  | c :: t => be_encode 2 c ++ bytes_of_units t
  end.

Fixpoint units_of_bytes (l : list byte) : list QChar :=
  match l with
  | hi :: lo :: t => be_decode [hi; lo] :: units_of_bytes t
  | _ => []
  end.

(** [operator<<(QDataStream&, const QString&)], stream version Qt_5_1: a null
    string is the marker 0xffffffff, any other one its byte length and its
    code units. *)
Definition write_QString (s : QString) : list byte :=
  match s with
  | None => write_quint32 4294967295
  | Some l => write_quint32 (2 * Z.of_nat (length l)) ++ bytes_of_units l
  end.

(** [operator<<(QDataStream&, const QByteArray&)]. *)
Definition write_QByteArray (b : QByteArray) : list byte :=
  match b with
  | None => write_quint32 4294967295
  | Some l => write_quint32 (Z.of_nat (length l)) ++ l
  end.

(* ===================================================================== *)
(** ** QDataStream over a read-only byte array                            *)
(* ===================================================================== *)

Inductive Status := Ok | ReadPastEnd | ReadCorruptData.

Definition Status_eqb (a b : Status) : bool :=
  match a, b with
  | Ok, Ok | ReadPastEnd, ReadPastEnd | ReadCorruptData, ReadCorruptData => true
  | _, _ => false
  end.

(** The device position is kept as the bytes still unread. *)
Record QDataStream := mkStream {
  unread : list byte;
  status : Status
}.

(** Reading is a state monad over the stream. *)
Definition Rd (A : Type) : Type := QDataStream -> A * QDataStream.

Definition ret {A} (a : A) : Rd A := fun st => (a, st).

Definition bind {A B} (m : Rd A) (k : A -> Rd B) : Rd B :=
  fun st => let (a, st') := m st in k a st'.

Declare Scope rd_scope.
Delimit Scope rd_scope with rd.
Notation "x <- m ;; k" := (bind m (fun x => k))
  (at level 61, m at next level, right associativity) : rd_scope.
Notation "' p <- m ;; k" := (bind m (fun x => let p := x in k))
  (at level 61, p pattern, m at next level, right associativity) : rd_scope.
Local Open Scope rd_scope.

(** [QDataStream::setStatus]: the first error sticks. *)
Definition setStatus (s : Status) : Rd unit :=
  fun st =>
    (tt, match status st with
         | Ok => mkStream (unread st) s
         | _ => st
         end).

Definition atEnd : Rd bool :=
  fun st => (match unread st with [] => true | _ => false end, st).

Definition getStatus : Rd Status := fun st => (status st, st).

(** [QIODevice::read(data, len)] on the buffer: all [len] bytes when that many
    are left; otherwise the device hands out what is left and ends up at its
    end, and the caller sees a short read ([None]). *)
Definition readRawData (len : Z) : Rd (option (list byte)) :=
  fun st =>
    if len <=? Z.of_nat (length (unread st))
    then (Some (firstn (Z.to_nat len) (unread st)),
          mkStream (skipn (Z.to_nat len) (unread st)) (status st))
    else (None, mkStream [] (status st)).

(** [operator>>] for the fixed-width integers: a short read stores 0 and sets
    [ReadPastEnd]. *)
Definition read_uint (width : Z) : Rd Z :=
  r <- readRawData width ;;
  match r with
  | Some bs => ret (be_decode bs)
  | None => _ <- setStatus ReadPastEnd ;; ret 0
  end.

Definition read_quint32 : Rd Z := read_uint 4.
Definition read_quint64 : Rd Z := read_uint 8.
Definition read_qint32 : Rd Z := u <- read_uint 4 ;; ret (to_signed32 u).

(** [operator>>(QDataStream&, QString&)].  Qt reads the payload in blocks of
    one megabyte; over a memory buffer that is one read of the whole length,
    which either succeeds or leaves the device at its end. *)
Definition read_QString : Rd QString :=
  bytes <- read_quint32 ;;
  if bytes =? 4294967295 then ret None
  else if 0 <? bytes then
    if Z.odd bytes then _ <- setStatus ReadCorruptData ;; ret None
    else
      r <- readRawData bytes ;;
      match r with
      | Some raw => ret (Some (units_of_bytes raw))
      | None => _ <- setStatus ReadPastEnd ;; ret None
      end
  else ret (Some []).

(** [operator>>(QDataStream&, QByteArray&)]. *)
Definition read_QByteArray : Rd QByteArray :=
  len <- read_quint32 ;;
  if len =? 4294967295 then ret None
  else
    r <- readRawData len ;;
    match r with
    | Some raw => ret (Some raw)
    | None => _ <- setStatus ReadPastEnd ;; ret None
    end.

(** [if (!stream.atEnd()) { ... }]: a block read only while bytes are left;
    otherwise the locals keep the values they were initialised with. *)
Definition unlessAtEnd {A} (block : Rd A) (keep : A) : Rd A :=
  e <- atEnd ;; if e then ret keep else block.

(** [for (auto i = 0; i != count; ++i) body].  [i] is an [int]: it starts at
    0 and is incremented with two's complement wrap-around until it equals
    [count], which takes [count mod 2^32] rounds (a negative [count] is only
    met after [i] has wrapped).  [for_exec] is the loop as written, one test
    and one increment at a time; [for_loop] runs the body that many times. *)
Inductive for_exec {X} (count : Z) (body : X -> Rd X)
  : Z -> X * QDataStream -> X * QDataStream -> Prop :=
| for_exit : forall i p, i = count -> for_exec count body i p p
| for_round : forall i p q,
    i <> count ->
    for_exec count body (wrap32 (i + 1)) (body (fst p) (snd p)) q ->
    for_exec count body i p q.

Definition rounds (i count : Z) : N := Z.to_N ((count - i) mod 2 ^ 32).

Definition for_loop {X} (count : Z) (body : X -> Rd X) (x : X) : Rd X :=
  fun st => N.iter (rounds 0 count) (fun p => body (fst p) (snd p)) (x, st).

(* ===================================================================== *)
(** ** Containers                                                         *)
(* ===================================================================== *)

(** [QMap<QString, QString>]: the entries in ascending key order, which is
    the order [cbegin() .. cend()] visits them in. *)
Definition QMap := list (QString * QString).

(** [map[key] = value]: a new node at its place in the order, or the value of
    the node that already has an equal key. *)
Fixpoint qmap_set (key value : QString) (m : QMap) : QMap :=
  match m with
  | [] => [(key, value)]
  | (k, v) :: t =>
      match qs_compare key k with
      | Lt => (key, value) :: m
      | Eq => (k, value) :: t
      | Gt => (k, v) :: qmap_set key value t
      end
  end.

Definition qmap_sorted (m : QMap) : Prop :=
  StronglySorted (fun a b => qs_compare a b = Lt) (map fst m).

(** Modelled from the spec: [base::flat_set<PeerId>] (its header is not part
    of the excerpt), "a set of 64-bit identifiers": a vector kept in ascending
    order without duplicates, iterated in that order. *)
Definition flat_set := list Z.

Fixpoint flat_set_insert (x : Z) (s : flat_set) : flat_set :=
  match s with
  | [] => [x]
  | y :: t =>
      match x ?= y with
      | Lt => x :: s
      | Eq => s
      | Gt => y :: flat_set_insert x t
      end
  end.

Definition flat_set_sorted (s : flat_set) : Prop := StronglySorted Z.lt s.

(* ===================================================================== *)
(** ** float64                                                            *)
(* ===================================================================== *)

(** [float64] is IEEE 754 binary64, computed with the Standard Library's
    executable specification ([prec = 53], [emax = 1024]). *)
Definition float64 := spec_float.

Definition f_of_int (z : Z) : float64 := binary_normalize 53 1024 z 0 false.
Definition f_mul : float64 -> float64 -> float64 := SFmul 53 1024.
Definition f_div : float64 -> float64 -> float64 := SFdiv 53 1024.
Definition f_add : float64 -> float64 -> float64 := SFadd 53 1024.
Definition f_sub : float64 -> float64 -> float64 := SFsub 53 1024.
Definition f_ltb : float64 -> float64 -> bool := SFltb.
Definition f_leb : float64 -> float64 -> bool := SFleb.

Definition f_zero : float64 := S754_zero false.
Definition f_one : float64 := f_of_int 1.
Definition f_half : float64 := binary_normalize 53 1024 1 (-1) false.
Definition f_million : float64 := f_of_int 1000000.

(** [int(d)]: truncation toward zero.  Outside the range of [int] (and for a
    NaN) the conversion is undefined in C++; the model returns [INT_MIN], the
    value the x86 conversion instruction produces. *)
Definition f_to_int (d : float64) : Z :=
  match d with
  | S754_zero _ => 0
  | S754_finite s m e =>
      let a := if 0 <=? e then Zpos m * 2 ^ e else Zpos m / 2 ^ (- e) in
      let t := if s then - a else a in
      if (- 2 ^ 31 <=? t) && (t <? 2 ^ 31) then t else - 2 ^ 31
  | _ => - 2 ^ 31
  end.

(** Qt 5's [qRound(double)]. *)
Definition qRound (d : float64) : Z :=
  if f_leb f_zero d
  then f_to_int (f_add d f_half)
  else
    let below := f_to_int (f_sub d f_one) in
    wrap32 (f_to_int (f_add (f_sub d (f_of_int below)) f_half) + below).

(** Modelled from the spec: the helper [snap(v, min, max)] is not part of the
    excerpt; the value is "clamped to" the interval. *)
Definition snap {T} (ltb : T -> T -> bool) (v lo hi : T) : T :=
  if ltb v lo then lo else if ltb hi v then hi else v.

(** [snap(qRound(ratio * 1000000), 0, 1000000)], the integer [serialize]
    writes for the ratio. *)
Definition ratioToRaw (ratio : float64) : Z :=
  snap Z.ltb (qRound (f_mul ratio f_million)) 0 1000000.

(** [snap(value / 1000000., 0., 1.)], the ratio the decoder keeps. *)
Definition ratioFromRaw (value : Z) : float64 :=
  snap f_ltb (f_div (f_of_int value) f_million) f_zero f_one.

(* ===================================================================== *)
(** ** The settings record                                                *)
(* ===================================================================== *)

(** The enumerations are declared in headers outside the excerpt.  A field of
    an enumeration type holds the underlying [int]; the numbers of the
    enumerators the source names are parameters of the development. *)
Record EnumTags := {
  SelectorTab_Emoji : Z;
  SelectorTab_Stickers : Z;
  SelectorTab_Gifs : Z;
  Column_First : Z;
  Column_Second : Z;
  Column_Third : Z;
  RectPart_TopLeft : Z;
  RectPart_TopRight : Z;
  RectPart_BottomLeft : Z;
  RectPart_BottomRight : Z;
  SendFilesWay_Album : Z;
  SendFilesWay_Photos : Z;
  SendFilesWay_Files : Z;
  InputSubmitSettings_Enter : Z;
  InputSubmitSettings_CtrlEnter : Z;
  SwitchSettings_None : Z;
  SwitchSettings_Next : Z;
  SwitchSettings_Previous : Z
}.

Definition kLegacyCallsPeerToPeerNobody : Z := 4.

Definition b2i (b : bool) : Z := if b then 1 else 0.

Section Settings.

Set Implicit Arguments.

(** [Data::AutoDownload::Full] and its codec live in another file of the
    repository: the type, [serialize()] and [setFromSerialized()] are
    parameters.  [setFromSerialized] returns its verdict and the object as it
    leaves it. *)
Variable AutoDownload : Type.
Variable autoDownload_serialize : AutoDownload -> QByteArray.
Variable autoDownload_setFromSerialized :
  QByteArray -> AutoDownload -> bool * AutoDownload.

Variable tags : EnumTags.

(** [AuthSessionSettings::Variables]; an [rpl::variable<T>] is its current
    value. *)
Record Variables := mkVariables {
  selectorTab : Z;
  lastSeenWarningSeen : bool;
  tabbedSelectorSectionEnabled : bool;
  soundOverrides : QMap;
  tabbedSelectorSectionTooltipShown : Z;
  floatPlayerColumn : Z;
  floatPlayerCorner : Z;
  groupStickersSectionHidden : flat_set;
  thirdSectionInfoEnabled : bool;
  smallDialogsList : bool;
  dialogsWidthRatio : float64;
  thirdColumnWidth : Z;
  thirdSectionExtendedBy : Z;
  sendFilesWay : Z;
  sendSubmitWay : Z;
  supportSwitch : Z;
  supportFixChatsOrder : bool;
  supportTemplatesAutocomplete : bool;
  supportChatsTimeSlice : Z;
  hadLegacyCallsPeerToPeerNobody : bool;
  includeMutedCounter : bool;
  countUnreadMessages : bool;
  exeLaunchWarning : bool;
  autoDownload : AutoDownload;
  supportAllSearchResults : bool;
  archiveCollapsed : bool;
  notifyAboutPinned : bool
}.

(* ===================================================================== *)
(** ** serialize                                                          *)
(* ===================================================================== *)

Definition write_soundOverrides (m : QMap) : list byte :=
  flat_map (fun kv => write_QString (fst kv) ++ write_QString (snd kv)) m.

Definition write_peerIds (s : flat_set) : list byte :=
  flat_map write_quint64 s.

(** [AuthSessionSettings::serialize]: the [stream << ...] lines in order.
    (The size computed first only reserves capacity.) *)
Definition serialize (v : Variables) : QByteArray :=
  let autoDownload := autoDownload_serialize (autoDownload v) in
  Some (
    write_qint32 (selectorTab v)
    ++ write_qint32 (b2i (lastSeenWarningSeen v))
    ++ write_qint32 (b2i (tabbedSelectorSectionEnabled v))
    ++ write_qint32 (Z.of_nat (length (soundOverrides v)))
    ++ write_soundOverrides (soundOverrides v)
    ++ write_qint32 (tabbedSelectorSectionTooltipShown v)
    ++ write_qint32 (floatPlayerColumn v)
    ++ write_qint32 (floatPlayerCorner v)
    ++ write_qint32 (Z.of_nat (length (groupStickersSectionHidden v)))
    ++ write_peerIds (groupStickersSectionHidden v)
    ++ write_qint32 (b2i (thirdSectionInfoEnabled v))
    ++ write_qint32 (b2i (smallDialogsList v))
    ++ write_qint32 (ratioToRaw (dialogsWidthRatio v))
    ++ write_qint32 (thirdColumnWidth v)
    ++ write_qint32 (thirdSectionExtendedBy v)
    ++ write_qint32 (sendFilesWay v)
    ++ write_qint32 0
    ++ write_qint32 (sendSubmitWay v)
    ++ write_qint32 (supportSwitch v)
    ++ write_qint32 (b2i (supportFixChatsOrder v))
    ++ write_qint32 (b2i (supportTemplatesAutocomplete v))
    ++ write_qint32 (supportChatsTimeSlice v)
    ++ write_qint32 (b2i (includeMutedCounter v))
    ++ write_qint32 (b2i (countUnreadMessages v))
    ++ write_qint32 (b2i (exeLaunchWarning v))
    ++ write_QByteArray autoDownload
    ++ write_qint32 (b2i (supportAllSearchResults v))
    ++ write_qint32 (b2i (archiveCollapsed v))
    ++ write_qint32 (b2i (notifyAboutPinned v))).

(** The same bytes cut into the twenty field groups of the layout table (a
    group is what one format version added). *)
Definition serialize_groups (v : Variables) : list (list byte) :=
  [ write_qint32 (selectorTab v);
    write_qint32 (b2i (lastSeenWarningSeen v));
    write_qint32 (b2i (tabbedSelectorSectionEnabled v));
    write_qint32 (Z.of_nat (length (soundOverrides v)))
      ++ write_soundOverrides (soundOverrides v);
    write_qint32 (tabbedSelectorSectionTooltipShown v);
    write_qint32 (floatPlayerColumn v) ++ write_qint32 (floatPlayerCorner v);
    write_qint32 (Z.of_nat (length (groupStickersSectionHidden v)))
      ++ write_peerIds (groupStickersSectionHidden v);
    write_qint32 (b2i (thirdSectionInfoEnabled v))
      ++ write_qint32 (b2i (smallDialogsList v));
    write_qint32 (ratioToRaw (dialogsWidthRatio v))
      ++ write_qint32 (thirdColumnWidth v)
      ++ write_qint32 (thirdSectionExtendedBy v);
    write_qint32 (sendFilesWay v);
    write_qint32 0;
    write_qint32 (sendSubmitWay v)
      ++ write_qint32 (supportSwitch v)
      ++ write_qint32 (b2i (supportFixChatsOrder v));
    write_qint32 (b2i (supportTemplatesAutocomplete v));
    write_qint32 (supportChatsTimeSlice v);
    write_qint32 (b2i (includeMutedCounter v))
      ++ write_qint32 (b2i (countUnreadMessages v));
    write_qint32 (b2i (exeLaunchWarning v));
    write_QByteArray (autoDownload_serialize (autoDownload v));
    write_qint32 (b2i (supportAllSearchResults v));
    write_qint32 (b2i (archiveCollapsed v));
    write_qint32 (b2i (notifyAboutPinned v)) ].

(** The blob cut immediately after field group [k]. *)
Definition truncate_after_group (k : nat) (v : Variables) : QByteArray :=
  Some (concat (firstn k (serialize_groups v))).

(* ===================================================================== *)
(** ** constructFromSerialized                                            *)
(* ===================================================================== *)

(** The scratch locals declared at the top of the function. *)
Record Locals := mkLocals {
  l_selectorTab : Z;
  l_lastSeenWarningSeen : Z;
  l_tabbedSelectorSectionEnabled : Z;
  l_tabbedSelectorSectionTooltipShown : Z;
  l_floatPlayerColumn : Z;
  l_floatPlayerCorner : Z;
  l_soundOverrides : QMap;
  l_groupStickersSectionHidden : flat_set;
  l_thirdSectionInfoEnabled : Z;
  l_smallDialogsList : Z;
  l_dialogsWidthRatio : float64;
  l_thirdColumnWidth : Z;
  l_thirdSectionExtendedBy : Z;
  l_sendFilesWay : Z;
  l_legacyCallsPeerToPeer : Z;
  l_sendSubmitWay : Z;
  l_supportSwitch : Z;
  l_supportFixChatsOrder : Z;
  l_supportTemplatesAutocomplete : Z;
  l_supportChatsTimeSlice : Z;
  l_includeMutedCounter : Z;
  l_countUnreadMessages : Z;
  l_exeLaunchWarning : Z;
  l_autoDownload : QByteArray;
  l_supportAllSearchResults : Z;
  l_archiveCollapsed : Z;
  l_notifyAboutPinned : Z
}.

(** Their initial values: constants for the fields of the oldest formats,
    the current settings for the later ones. *)
Definition init_locals (v : Variables) : Locals :=
  {| l_selectorTab := SelectorTab_Emoji tags;
     l_lastSeenWarningSeen := 0;
     l_tabbedSelectorSectionEnabled := 1;
     l_tabbedSelectorSectionTooltipShown := 0;
     l_floatPlayerColumn := Column_Second tags;
     l_floatPlayerCorner := RectPart_TopRight tags;
     l_soundOverrides := [];
     l_groupStickersSectionHidden := [];
     l_thirdSectionInfoEnabled := 0;
     l_smallDialogsList := 0;
     l_dialogsWidthRatio := dialogsWidthRatio v;
     l_thirdColumnWidth := thirdColumnWidth v;
     l_thirdSectionExtendedBy := thirdSectionExtendedBy v;
     l_sendFilesWay := sendFilesWay v;
     l_legacyCallsPeerToPeer := 0;
     l_sendSubmitWay := sendSubmitWay v;
     l_supportSwitch := supportSwitch v;
     l_supportFixChatsOrder := b2i (supportFixChatsOrder v);
     l_supportTemplatesAutocomplete := b2i (supportTemplatesAutocomplete v);
     l_supportChatsTimeSlice := supportChatsTimeSlice v;
     l_includeMutedCounter := b2i (includeMutedCounter v);
     l_countUnreadMessages := b2i (countUnreadMessages v);
     l_exeLaunchWarning := b2i (exeLaunchWarning v);
     l_autoDownload := None;
     l_supportAllSearchResults := b2i (supportAllSearchResults v);
     l_archiveCollapsed := b2i (archiveCollapsed v);
     l_notifyAboutPinned := b2i (notifyAboutPinned v) |}.

(** [stream >> count; if (stream.status() == Ok) for (...) { stream >> key >>
    value; soundOverrides[key] = value; }] *)
Definition read_soundOverride (m : QMap) : Rd QMap :=
  key <- read_QString ;;
  value <- read_QString ;;
  ret (qmap_set key value m).

Definition read_soundOverrides : Rd QMap :=
  count <- read_qint32 ;;
  s <- getStatus ;;
  if Status_eqb s Ok then for_loop count read_soundOverride [] else ret [].

(** [stream >> count; if (stream.status() == Ok) for (...) { stream >> peerId;
    groupStickersSectionHidden.insert(peerId); }] *)
Definition read_peerId (s : flat_set) : Rd flat_set :=
  peerId <- read_quint64 ;;
  ret (flat_set_insert peerId s).

Definition read_groupStickersSectionHidden : Rd flat_set :=
  count <- read_qint32 ;;
  s <- getStatus ;;
  if Status_eqb s Ok then for_loop count read_peerId [] else ret [].

Definition read2 : Rd (Z * Z) :=
  a <- read_qint32 ;; b <- read_qint32 ;; ret (a, b).

Definition read3 : Rd (Z * Z * Z) :=
  a <- read_qint32 ;; b <- read_qint32 ;; c <- read_qint32 ;; ret (a, b, c).

(** The ratio, the third column width and the extension are read through one
    [qint32 value]. *)
Definition read_widths : Rd (float64 * Z * Z) :=
  r <- read_qint32 ;;
  w <- read_qint32 ;;
  x <- read_qint32 ;;
  ret (ratioFromRaw r, w, x).

(** The reading part of the function, up to the status test: two
    unconditional reads, then one guarded block per later format version. *)
Definition decode_fields (v : Variables) : Rd Locals :=
  let l0 := init_locals v in
  selectorTab <- read_qint32 ;;
  lastSeenWarningSeen <- read_qint32 ;;
  tabbedSelectorSectionEnabled <-
    unlessAtEnd read_qint32 (l_tabbedSelectorSectionEnabled l0) ;;
  soundOverrides <- unlessAtEnd read_soundOverrides (l_soundOverrides l0) ;;
  tabbedSelectorSectionTooltipShown <-
    unlessAtEnd read_qint32 (l_tabbedSelectorSectionTooltipShown l0) ;;
  floatPlayer <-
    unlessAtEnd read2 (l_floatPlayerColumn l0, l_floatPlayerCorner l0) ;;
  groupStickersSectionHidden <-
    unlessAtEnd read_groupStickersSectionHidden
                (l_groupStickersSectionHidden l0) ;;
  panels <-
    unlessAtEnd read2 (l_thirdSectionInfoEnabled l0, l_smallDialogsList l0) ;;
  widths <-
    unlessAtEnd read_widths
      (l_dialogsWidthRatio l0, l_thirdColumnWidth l0,
       l_thirdSectionExtendedBy l0) ;;
  sendFilesWay <- unlessAtEnd read_qint32 (l_sendFilesWay l0) ;;
  legacyCallsPeerToPeer <-
    unlessAtEnd read_qint32 (l_legacyCallsPeerToPeer l0) ;;
  support <-
    unlessAtEnd read3
      (l_sendSubmitWay l0, l_supportSwitch l0, l_supportFixChatsOrder l0) ;;
  supportTemplatesAutocomplete <-
    unlessAtEnd read_qint32 (l_supportTemplatesAutocomplete l0) ;;
  supportChatsTimeSlice <-
    unlessAtEnd read_qint32 (l_supportChatsTimeSlice l0) ;;
  counters <-
    unlessAtEnd read2 (l_includeMutedCounter l0, l_countUnreadMessages l0) ;;
  exeLaunchWarning <- unlessAtEnd read_qint32 (l_exeLaunchWarning l0) ;;
  autoDownload <- unlessAtEnd read_QByteArray (l_autoDownload l0) ;;
  supportAllSearchResults <-
    unlessAtEnd read_qint32 (l_supportAllSearchResults l0) ;;
  archiveCollapsed <- unlessAtEnd read_qint32 (l_archiveCollapsed l0) ;;
  notifyAboutPinned <- unlessAtEnd read_qint32 (l_notifyAboutPinned l0) ;;
  ret {| l_selectorTab := selectorTab;
         l_lastSeenWarningSeen := lastSeenWarningSeen;
         l_tabbedSelectorSectionEnabled := tabbedSelectorSectionEnabled;
         l_tabbedSelectorSectionTooltipShown :=
           tabbedSelectorSectionTooltipShown;
         l_floatPlayerColumn := fst floatPlayer;
         l_floatPlayerCorner := snd floatPlayer;
         l_soundOverrides := soundOverrides;
         l_groupStickersSectionHidden := groupStickersSectionHidden;
         l_thirdSectionInfoEnabled := fst panels;
         l_smallDialogsList := snd panels;
         l_dialogsWidthRatio := fst (fst widths);
         l_thirdColumnWidth := snd (fst widths);
         l_thirdSectionExtendedBy := snd widths;
         l_sendFilesWay := sendFilesWay;
         l_legacyCallsPeerToPeer := legacyCallsPeerToPeer;
         l_sendSubmitWay := fst (fst support);
         l_supportSwitch := snd (fst support);
         l_supportFixChatsOrder := snd support;
         l_supportTemplatesAutocomplete := supportTemplatesAutocomplete;
         l_supportChatsTimeSlice := supportChatsTimeSlice;
         l_includeMutedCounter := fst counters;
         l_countUnreadMessages := snd counters;
         l_exeLaunchWarning := exeLaunchWarning;
         l_autoDownload := autoDownload;
         l_supportAllSearchResults := supportAllSearchResults;
         l_archiveCollapsed := archiveCollapsed;
         l_notifyAboutPinned := notifyAboutPinned |}.

(** [switch (unchecked) { case A: case B: ... field = unchecked; break; }]:
    the cast value is stored when it is one of the listed enumerators, and
    the field is left alone otherwise. *)
Definition checked (legal : list Z) (unchecked prior : Z) : Z :=
  if existsb (Z.eqb unchecked) legal then unchecked else prior.

Definition legal_SelectorTab : list Z :=
  [SelectorTab_Emoji tags; SelectorTab_Stickers tags; SelectorTab_Gifs tags].
Definition legal_Column : list Z :=
  [Column_First tags; Column_Second tags; Column_Third tags].
Definition legal_Corner : list Z :=
  [RectPart_TopLeft tags; RectPart_TopRight tags;
   RectPart_BottomLeft tags; RectPart_BottomRight tags].
Definition legal_SendFilesWay : list Z :=
  [SendFilesWay_Album tags; SendFilesWay_Photos tags; SendFilesWay_Files tags].
Definition legal_InputSubmitSettings : list Z :=
  [InputSubmitSettings_Enter tags; InputSubmitSettings_CtrlEnter tags].
Definition legal_SwitchSettings : list Z :=
  [SwitchSettings_None tags; SwitchSettings_Next tags;
   SwitchSettings_Previous tags].

(** The assignments after the two early returns.  [v] is the record as the
    auto-download step left it.  The tabbed selector flag is first set from
    its local and then cleared when the third section shows the info panel. *)
Definition commit (l : Locals) (v : Variables) : Variables :=
  let thirdSectionInfo := negb (l_thirdSectionInfoEnabled l =? 0) in
  {| selectorTab := checked legal_SelectorTab (l_selectorTab l) (selectorTab v);
     lastSeenWarningSeen := (l_lastSeenWarningSeen l =? 1);
     tabbedSelectorSectionEnabled :=
       if thirdSectionInfo then false
       else (l_tabbedSelectorSectionEnabled l =? 1);
     soundOverrides := l_soundOverrides l;
     tabbedSelectorSectionTooltipShown := l_tabbedSelectorSectionTooltipShown l;
     floatPlayerColumn :=
       checked legal_Column (l_floatPlayerColumn l) (floatPlayerColumn v);
     floatPlayerCorner :=
       checked legal_Corner (l_floatPlayerCorner l) (floatPlayerCorner v);
     groupStickersSectionHidden := l_groupStickersSectionHidden l;
     thirdSectionInfoEnabled := thirdSectionInfo;
     smallDialogsList := negb (l_smallDialogsList l =? 0);
     dialogsWidthRatio := l_dialogsWidthRatio l;
     thirdColumnWidth := l_thirdColumnWidth l;
     thirdSectionExtendedBy := l_thirdSectionExtendedBy l;
     sendFilesWay :=
       checked legal_SendFilesWay (l_sendFilesWay l) (sendFilesWay v);
     sendSubmitWay :=
       checked legal_InputSubmitSettings (l_sendSubmitWay l) (sendSubmitWay v);
     supportSwitch :=
       checked legal_SwitchSettings (l_supportSwitch l) (supportSwitch v);
     supportFixChatsOrder := (l_supportFixChatsOrder l =? 1);
     supportTemplatesAutocomplete := (l_supportTemplatesAutocomplete l =? 1);
     supportChatsTimeSlice := l_supportChatsTimeSlice l;
     hadLegacyCallsPeerToPeerNobody :=
       (l_legacyCallsPeerToPeer l =? kLegacyCallsPeerToPeerNobody);
     includeMutedCounter := (l_includeMutedCounter l =? 1);
     countUnreadMessages := (l_countUnreadMessages l =? 1);
     exeLaunchWarning := (l_exeLaunchWarning l =? 1);
     autoDownload := autoDownload v;
     supportAllSearchResults := (l_supportAllSearchResults l =? 1);
     archiveCollapsed := (l_archiveCollapsed l =? 1);
     notifyAboutPinned := (l_notifyAboutPinned l =? 1) |}.

Definition with_autoDownload (v : Variables) (a : AutoDownload) : Variables :=
  {| selectorTab := selectorTab v;
     lastSeenWarningSeen := lastSeenWarningSeen v;
     tabbedSelectorSectionEnabled := tabbedSelectorSectionEnabled v;
     soundOverrides := soundOverrides v;
     tabbedSelectorSectionTooltipShown := tabbedSelectorSectionTooltipShown v;
     floatPlayerColumn := floatPlayerColumn v;
     floatPlayerCorner := floatPlayerCorner v;
     groupStickersSectionHidden := groupStickersSectionHidden v;
     thirdSectionInfoEnabled := thirdSectionInfoEnabled v;
     smallDialogsList := smallDialogsList v;
     dialogsWidthRatio := dialogsWidthRatio v;
     thirdColumnWidth := thirdColumnWidth v;
     thirdSectionExtendedBy := thirdSectionExtendedBy v;
     sendFilesWay := sendFilesWay v;
     sendSubmitWay := sendSubmitWay v;
     supportSwitch := supportSwitch v;
     supportFixChatsOrder := supportFixChatsOrder v;
     supportTemplatesAutocomplete := supportTemplatesAutocomplete v;
     supportChatsTimeSlice := supportChatsTimeSlice v;
     hadLegacyCallsPeerToPeerNobody := hadLegacyCallsPeerToPeerNobody v;
     includeMutedCounter := includeMutedCounter v;
     countUnreadMessages := countUnreadMessages v;
     exeLaunchWarning := exeLaunchWarning v;
     autoDownload := a;
     supportAllSearchResults := supportAllSearchResults v;
     archiveCollapsed := archiveCollapsed v;
     notifyAboutPinned := notifyAboutPinned v |}.

(** The function returns [void]; [Outcome] names the [return] it left by. *)
Inductive Outcome :=
| EmptyInput            (* [serialized.isEmpty()] *)
| BadData               (* [stream.status() != QDataStream::Ok], logged *)
| AutoDownloadRejected  (* [setFromSerialized] returned false *)
| Applied.              (* the end of the function *)

Record Decoded := mkDecoded {
  outcome : Outcome;
  after : Variables;      (* [_variables] when the function returns *)
  logged : list String.string    (* the [LOG] lines it wrote *)
}.

Definition bad_data_message : String.string :=
  "App Error: Bad data for AuthSessionSettings::constructFromSerialized()"%string.

Definition constructFromSerialized (serialized : QByteArray) (v : Variables)
  : Decoded :=
  if ba_isEmpty serialized then mkDecoded EmptyInput v []
  else
    let (l, st) := decode_fields v (mkStream (ba_bytes serialized) Ok) in
    if negb (Status_eqb (status st) Ok)
    then mkDecoded BadData v [bad_data_message]
    else if ba_isEmpty (l_autoDownload l)
    then mkDecoded Applied (commit l v) []
    else
      let (accepted, a) :=
        autoDownload_setFromSerialized (l_autoDownload l) (autoDownload v) in
      if accepted
      then mkDecoded Applied (commit l (with_autoDownload v a)) []
      else mkDecoded AutoDownloadRejected (with_autoDownload v a) [].

(* ===================================================================== *)
(** ** The panel setters                                                  *)
(* ===================================================================== *)

(** What the two event streams have fired, oldest first. *)
Inductive Event :=
| TabbedReplacedWithInfoValue (enabled : bool)
| ThirdSectionInfoEnabledValue (enabled : bool).

Record AuthSessionSettings := mkSettings {
  _variables : Variables;
  _tabbedReplacedWithInfo : bool;
  fired : list Event
}.

Definition with_tabbedSelectorSectionEnabled (enabled : bool) (v : Variables)
  : Variables :=
  {| selectorTab := selectorTab v;
     lastSeenWarningSeen := lastSeenWarningSeen v;
     tabbedSelectorSectionEnabled := enabled;
     soundOverrides := soundOverrides v;
     tabbedSelectorSectionTooltipShown := tabbedSelectorSectionTooltipShown v;
     floatPlayerColumn := floatPlayerColumn v;
     floatPlayerCorner := floatPlayerCorner v;
     groupStickersSectionHidden := groupStickersSectionHidden v;
     thirdSectionInfoEnabled := thirdSectionInfoEnabled v;
     smallDialogsList := smallDialogsList v;
     dialogsWidthRatio := dialogsWidthRatio v;
     thirdColumnWidth := thirdColumnWidth v;
     thirdSectionExtendedBy := thirdSectionExtendedBy v;
     sendFilesWay := sendFilesWay v;
     sendSubmitWay := sendSubmitWay v;
     supportSwitch := supportSwitch v;
     supportFixChatsOrder := supportFixChatsOrder v;
     supportTemplatesAutocomplete := supportTemplatesAutocomplete v;
     supportChatsTimeSlice := supportChatsTimeSlice v;
     hadLegacyCallsPeerToPeerNobody := hadLegacyCallsPeerToPeerNobody v;
     includeMutedCounter := includeMutedCounter v;
     countUnreadMessages := countUnreadMessages v;
     exeLaunchWarning := exeLaunchWarning v;
     autoDownload := autoDownload v;
     supportAllSearchResults := supportAllSearchResults v;
     archiveCollapsed := archiveCollapsed v;
     notifyAboutPinned := notifyAboutPinned v |}.

Definition with_thirdSectionInfoEnabled (enabled : bool) (v : Variables)
  : Variables :=
  {| selectorTab := selectorTab v;
     lastSeenWarningSeen := lastSeenWarningSeen v;
     tabbedSelectorSectionEnabled := tabbedSelectorSectionEnabled v;
     soundOverrides := soundOverrides v;
     tabbedSelectorSectionTooltipShown := tabbedSelectorSectionTooltipShown v;
     floatPlayerColumn := floatPlayerColumn v;
     floatPlayerCorner := floatPlayerCorner v;
     groupStickersSectionHidden := groupStickersSectionHidden v;
     thirdSectionInfoEnabled := enabled;
     smallDialogsList := smallDialogsList v;
     dialogsWidthRatio := dialogsWidthRatio v;
     thirdColumnWidth := thirdColumnWidth v;
     thirdSectionExtendedBy := thirdSectionExtendedBy v;
     sendFilesWay := sendFilesWay v;
     sendSubmitWay := sendSubmitWay v;
     supportSwitch := supportSwitch v;
     supportFixChatsOrder := supportFixChatsOrder v;
     supportTemplatesAutocomplete := supportTemplatesAutocomplete v;
     supportChatsTimeSlice := supportChatsTimeSlice v;
     hadLegacyCallsPeerToPeerNobody := hadLegacyCallsPeerToPeerNobody v;
     includeMutedCounter := includeMutedCounter v;
     countUnreadMessages := countUnreadMessages v;
     exeLaunchWarning := exeLaunchWarning v;
     autoDownload := autoDownload v;
     supportAllSearchResults := supportAllSearchResults v;
     archiveCollapsed := archiveCollapsed v;
     notifyAboutPinned := notifyAboutPinned v |}.

Definition setTabbedReplacedWithInfo (enabled : bool) (s : AuthSessionSettings)
  : AuthSessionSettings :=
  if Bool.eqb (_tabbedReplacedWithInfo s) enabled then s
  else mkSettings (_variables s) enabled
                  (fired s ++ [TabbedReplacedWithInfoValue enabled]).

(** The two setters call each other.  [call] runs one of them with a bound on
    the depth of the calls it may nest; [None] means the bound was hit. *)
Inductive Setter :=
| SetTabbedSelectorSectionEnabled (enabled : bool)
| SetThirdSectionInfoEnabled (enabled : bool).

Fixpoint call (depth : nat) (c : Setter) (s : AuthSessionSettings)
  : option AuthSessionSettings :=
  match depth with
  | O => None
  | S depth' =>
      match c with
      | SetTabbedSelectorSectionEnabled enabled =>
          let s1 :=
            mkSettings
              (with_tabbedSelectorSectionEnabled enabled (_variables s))
              (_tabbedReplacedWithInfo s) (fired s) in
          match
            (if enabled
             then call depth' (SetThirdSectionInfoEnabled false) s1
             else Some s1)
          with
          | Some s2 => Some (setTabbedReplacedWithInfo false s2)
          | None => None
          end
      | SetThirdSectionInfoEnabled enabled =>
          if Bool.eqb (thirdSectionInfoEnabled (_variables s)) enabled
          then Some s
          else
            let s1 :=
              mkSettings
                (with_thirdSectionInfoEnabled enabled (_variables s))
                (_tabbedReplacedWithInfo s) (fired s) in
            match
              (if enabled
               then call depth' (SetTabbedSelectorSectionEnabled false) s1
               else Some s1)
            with
            | Some s2 =>
                let s3 := setTabbedReplacedWithInfo false s2 in
                Some (mkSettings (_variables s3) (_tabbedReplacedWithInfo s3)
                        (fired s3 ++ [ThirdSectionInfoEnabledValue enabled]))
            | None => None
            end
      end
  end.

(** Two nested calls are all the setters ever make (see [call_depth]). *)
Definition run_setter (c : Setter) (s : AuthSessionSettings)
  : AuthSessionSettings :=
  match call 2 c s with Some s' => s' | None => s end.

Definition setTabbedSelectorSectionEnabled (enabled : bool) :=
  run_setter (SetTabbedSelectorSectionEnabled enabled).

Definition setThirdSectionInfoEnabled (enabled : bool) :=
  run_setter (SetThirdSectionInfoEnabled enabled).

Definition run_setters (cs : list Setter) (s : AuthSessionSettings)
  : AuthSessionSettings :=
  fold_left (fun acc c => run_setter c acc) cs s.

(** The two panel flags are never both set. *)
Definition panels_exclusive (v : Variables) : Prop :=
  ~ (tabbedSelectorSectionEnabled v = true
     /\ thirdSectionInfoEnabled v = true).

(* ===================================================================== *)
(** ** Well-formed records                                                *)
(* ===================================================================== *)

Definition is_utf16 (s : QString) : Prop :=
  Forall (fun c => 0 <= c < 65536) (qs_units s)
  /\ Z.of_nat (length (qs_units s)) < 2 ^ 30.

(** What the C++ types guarantee of a record: [int] fields are 32-bit, the
    containers keep their order, sizes fit the [int] that Qt counts them in,
    and the enumerator numbers are [int]s. *)
Record well_typed (v : Variables) : Prop := {
  wt_selectorTab : is_int32 (selectorTab v);
  wt_tooltip : is_int32 (tabbedSelectorSectionTooltipShown v);
  wt_column : is_int32 (floatPlayerColumn v);
  wt_corner : is_int32 (floatPlayerCorner v);
  wt_thirdColumnWidth : is_int32 (thirdColumnWidth v);
  wt_extendedBy : is_int32 (thirdSectionExtendedBy v);
  wt_sendFilesWay : is_int32 (sendFilesWay v);
  wt_sendSubmitWay : is_int32 (sendSubmitWay v);
  wt_supportSwitch : is_int32 (supportSwitch v);
  wt_timeSlice : is_int32 (supportChatsTimeSlice v);
  wt_sounds_sorted : qmap_sorted (soundOverrides v);
  wt_sounds_size : Z.of_nat (length (soundOverrides v)) < 2 ^ 31;
  wt_sounds_strings :
    Forall (fun kv => is_utf16 (fst kv) /\ is_utf16 (snd kv))
           (soundOverrides v);
  wt_hidden_sorted : flat_set_sorted (groupStickersSectionHidden v);
  wt_hidden_size : Z.of_nat (length (groupStickersSectionHidden v)) < 2 ^ 31;
  wt_hidden_ids : Forall is_uint64 (groupStickersSectionHidden v);
  wt_autoDownload_size :
    Z.of_nat (length (ba_bytes (autoDownload_serialize (autoDownload v))))
    < 2 ^ 31
}.

(** A valid record: well typed, with every enumerated field holding one of
    the enumerators the decoder accepts. *)
Record valid (v : Variables) : Prop := {
  valid_typed : well_typed v;
  valid_selectorTab : In (selectorTab v) legal_SelectorTab;
  valid_column : In (floatPlayerColumn v) legal_Column;
  valid_corner : In (floatPlayerCorner v) legal_Corner;
  valid_sendFilesWay : In (sendFilesWay v) legal_SendFilesWay;
  valid_sendSubmitWay : In (sendSubmitWay v) legal_InputSubmitSettings;
  valid_supportSwitch : In (supportSwitch v) legal_SwitchSettings
}.

(* ===================================================================== *)
(** ** What a decode is expected to leave                                 *)
(* ===================================================================== *)

(** Modelled from the spec: the delegated auto-download codec is "a nested
    self-contained codec with its own round-trip contract" for which "failure
    is atomic"; its source is not part of the excerpt.  The outer decoder
    only hands it a blob that is not empty. *)
Definition codec_roundtrip : Prop :=
  forall a a0 : AutoDownload,
    ba_isEmpty (autoDownload_serialize a) = false ->
    autoDownload_setFromSerialized (autoDownload_serialize a) a0 = (true, a).

Definition codec_atomic : Prop :=
  forall (blob : QByteArray) (a : AutoDownload),
    fst (autoDownload_setFromSerialized blob a) = false ->
    snd (autoDownload_setFromSerialized blob a) = a.

(** The auto-download preferences after decoding a blob that carries the
    sub-blob of [r] into the record [p]: an empty sub-blob is not decoded. *)
Definition restored_autoDownload (r p : Variables) : AutoDownload :=
  if ba_isEmpty (autoDownload_serialize (autoDownload r))
  then autoDownload p
  else autoDownload r.

(** The record [r] as a round trip through the blob returns it when decoded
    into [p]: the ratio in the precision the blob stores, the tabbed selector
    flag cleared under the info panel flag, no legacy sentinel. *)
Definition roundtrip_image (r p : Variables) : Variables :=
  {| selectorTab := selectorTab r;
     lastSeenWarningSeen := lastSeenWarningSeen r;
     tabbedSelectorSectionEnabled :=
       if thirdSectionInfoEnabled r then false
       else tabbedSelectorSectionEnabled r;
     soundOverrides := soundOverrides r;
     tabbedSelectorSectionTooltipShown := tabbedSelectorSectionTooltipShown r;
     floatPlayerColumn := floatPlayerColumn r;
     floatPlayerCorner := floatPlayerCorner r;
     groupStickersSectionHidden := groupStickersSectionHidden r;
     thirdSectionInfoEnabled := thirdSectionInfoEnabled r;
     smallDialogsList := smallDialogsList r;
     dialogsWidthRatio := ratioFromRaw (ratioToRaw (dialogsWidthRatio r));
     thirdColumnWidth := thirdColumnWidth r;
     thirdSectionExtendedBy := thirdSectionExtendedBy r;
     sendFilesWay := sendFilesWay r;
     sendSubmitWay := sendSubmitWay r;
     supportSwitch := supportSwitch r;
     supportFixChatsOrder := supportFixChatsOrder r;
     supportTemplatesAutocomplete := supportTemplatesAutocomplete r;
     supportChatsTimeSlice := supportChatsTimeSlice r;
     hadLegacyCallsPeerToPeerNobody := false;
     includeMutedCounter := includeMutedCounter r;
     countUnreadMessages := countUnreadMessages r;
     exeLaunchWarning := exeLaunchWarning r;
     autoDownload := restored_autoDownload r p;
     supportAllSearchResults := supportAllSearchResults r;
     archiveCollapsed := archiveCollapsed r;
     notifyAboutPinned := notifyAboutPinned r |}.

(** What the fields of the groups a truncated blob lacks end up as when the
    blob is decoded into [p]: fixed values for groups 3 to 8, the values of
    [p] for groups 9 to 20. *)
Definition fallback (p : Variables) : Variables :=
  {| selectorTab := SelectorTab_Emoji tags;
     lastSeenWarningSeen := false;
     tabbedSelectorSectionEnabled := true;
     soundOverrides := [];
     tabbedSelectorSectionTooltipShown := 0;
     floatPlayerColumn := Column_Second tags;
     floatPlayerCorner := RectPart_TopRight tags;
     groupStickersSectionHidden := [];
     thirdSectionInfoEnabled := false;
     smallDialogsList := false;
     dialogsWidthRatio := dialogsWidthRatio p;
     thirdColumnWidth := thirdColumnWidth p;
     thirdSectionExtendedBy := thirdSectionExtendedBy p;
     sendFilesWay := sendFilesWay p;
     sendSubmitWay := sendSubmitWay p;
     supportSwitch := supportSwitch p;
     supportFixChatsOrder := supportFixChatsOrder p;
     supportTemplatesAutocomplete := supportTemplatesAutocomplete p;
     supportChatsTimeSlice := supportChatsTimeSlice p;
     hadLegacyCallsPeerToPeerNobody := false;
     includeMutedCounter := includeMutedCounter p;
     countUnreadMessages := countUnreadMessages p;
     exeLaunchWarning := exeLaunchWarning p;
     autoDownload := autoDownload p;
     supportAllSearchResults := supportAllSearchResults p;
     archiveCollapsed := archiveCollapsed p;
     notifyAboutPinned := notifyAboutPinned p |}.

(** A field of group [g] in a blob cut after group [k]. *)
Definition pick {A} (k g : nat) (sent kept : A) : A :=
  if (g <=? k)%nat then sent else kept.

(** The record expected from the blob of [r] cut after group [k] and decoded
    into [p]: groups 1 to [k] as in [roundtrip_image r p], the others as in
    [fallback p]. *)
Definition truncated_image (k : nat) (r p : Variables) : Variables :=
  let f := fallback p in
  let i := roundtrip_image r p in
  {| selectorTab := pick k 1 (selectorTab i) (selectorTab f);
     lastSeenWarningSeen :=
       pick k 2 (lastSeenWarningSeen i) (lastSeenWarningSeen f);
     tabbedSelectorSectionEnabled :=
       if pick k 8 (thirdSectionInfoEnabled r) (thirdSectionInfoEnabled f)
       then false
       else pick k 3 (tabbedSelectorSectionEnabled r)
                     (tabbedSelectorSectionEnabled f);
     soundOverrides := pick k 4 (soundOverrides i) (soundOverrides f);
     tabbedSelectorSectionTooltipShown :=
       pick k 5 (tabbedSelectorSectionTooltipShown i)
                (tabbedSelectorSectionTooltipShown f);
     floatPlayerColumn := pick k 6 (floatPlayerColumn i) (floatPlayerColumn f);
     floatPlayerCorner := pick k 6 (floatPlayerCorner i) (floatPlayerCorner f);
     groupStickersSectionHidden :=
       pick k 7 (groupStickersSectionHidden i) (groupStickersSectionHidden f);
     thirdSectionInfoEnabled :=
       pick k 8 (thirdSectionInfoEnabled i) (thirdSectionInfoEnabled f);
     smallDialogsList := pick k 8 (smallDialogsList i) (smallDialogsList f);
     dialogsWidthRatio := pick k 9 (dialogsWidthRatio i) (dialogsWidthRatio f);
     thirdColumnWidth := pick k 9 (thirdColumnWidth i) (thirdColumnWidth f);
     thirdSectionExtendedBy :=
       pick k 9 (thirdSectionExtendedBy i) (thirdSectionExtendedBy f);
     sendFilesWay := pick k 10 (sendFilesWay i) (sendFilesWay f);
     sendSubmitWay := pick k 12 (sendSubmitWay i) (sendSubmitWay f);
     supportSwitch := pick k 12 (supportSwitch i) (supportSwitch f);
     supportFixChatsOrder :=
       pick k 12 (supportFixChatsOrder i) (supportFixChatsOrder f);
     supportTemplatesAutocomplete :=
       pick k 13 (supportTemplatesAutocomplete i)
                 (supportTemplatesAutocomplete f);
     supportChatsTimeSlice :=
       pick k 14 (supportChatsTimeSlice i) (supportChatsTimeSlice f);
     hadLegacyCallsPeerToPeerNobody := false;
     includeMutedCounter :=
       pick k 15 (includeMutedCounter i) (includeMutedCounter f);
     countUnreadMessages :=
       pick k 15 (countUnreadMessages i) (countUnreadMessages f);
     exeLaunchWarning := pick k 16 (exeLaunchWarning i) (exeLaunchWarning f);
     autoDownload := pick k 17 (autoDownload i) (autoDownload f);
     supportAllSearchResults :=
       pick k 18 (supportAllSearchResults i) (supportAllSearchResults f);
     archiveCollapsed := pick k 19 (archiveCollapsed i) (archiveCollapsed f);
     notifyAboutPinned :=
       pick k 20 (notifyAboutPinned i) (notifyAboutPinned f) |}.

(** The locals after the reads of a blob cut after group [k]. *)
Definition prefix_locals (k : nat) (r p : Variables) : Locals :=
  let l0 := init_locals p in
  {| l_selectorTab := selectorTab r;
     l_lastSeenWarningSeen := b2i (lastSeenWarningSeen r);
     l_tabbedSelectorSectionEnabled :=
       pick k 3 (b2i (tabbedSelectorSectionEnabled r))
                (l_tabbedSelectorSectionEnabled l0);
     l_tabbedSelectorSectionTooltipShown :=
       pick k 5 (tabbedSelectorSectionTooltipShown r)
                (l_tabbedSelectorSectionTooltipShown l0);
     l_floatPlayerColumn :=
       pick k 6 (floatPlayerColumn r) (l_floatPlayerColumn l0);
     l_floatPlayerCorner :=
       pick k 6 (floatPlayerCorner r) (l_floatPlayerCorner l0);
     l_soundOverrides := pick k 4 (soundOverrides r) (l_soundOverrides l0);
     l_groupStickersSectionHidden :=
       pick k 7 (groupStickersSectionHidden r)
                (l_groupStickersSectionHidden l0);
     l_thirdSectionInfoEnabled :=
       pick k 8 (b2i (thirdSectionInfoEnabled r))
                (l_thirdSectionInfoEnabled l0);
     l_smallDialogsList :=
       pick k 8 (b2i (smallDialogsList r)) (l_smallDialogsList l0);
     l_dialogsWidthRatio :=
       pick k 9 (ratioFromRaw (ratioToRaw (dialogsWidthRatio r)))
                (l_dialogsWidthRatio l0);
     l_thirdColumnWidth :=
       pick k 9 (thirdColumnWidth r) (l_thirdColumnWidth l0);
     l_thirdSectionExtendedBy :=
       pick k 9 (thirdSectionExtendedBy r) (l_thirdSectionExtendedBy l0);
     l_sendFilesWay := pick k 10 (sendFilesWay r) (l_sendFilesWay l0);
     l_legacyCallsPeerToPeer := pick k 11 0 (l_legacyCallsPeerToPeer l0);
     l_sendSubmitWay := pick k 12 (sendSubmitWay r) (l_sendSubmitWay l0);
     l_supportSwitch := pick k 12 (supportSwitch r) (l_supportSwitch l0);
     l_supportFixChatsOrder :=
       pick k 12 (b2i (supportFixChatsOrder r)) (l_supportFixChatsOrder l0);
     l_supportTemplatesAutocomplete :=
       pick k 13 (b2i (supportTemplatesAutocomplete r))
                 (l_supportTemplatesAutocomplete l0);
     l_supportChatsTimeSlice :=
       pick k 14 (supportChatsTimeSlice r) (l_supportChatsTimeSlice l0);
     l_includeMutedCounter :=
       pick k 15 (b2i (includeMutedCounter r)) (l_includeMutedCounter l0);
     l_countUnreadMessages :=
       pick k 15 (b2i (countUnreadMessages r)) (l_countUnreadMessages l0);
     l_exeLaunchWarning :=
       pick k 16 (b2i (exeLaunchWarning r)) (l_exeLaunchWarning l0);
     l_autoDownload :=
       pick k 17 (autoDownload_serialize (autoDownload r)) (l_autoDownload l0);
     l_supportAllSearchResults :=
       pick k 18 (b2i (supportAllSearchResults r))
                 (l_supportAllSearchResults l0);
     l_archiveCollapsed :=
       pick k 19 (b2i (archiveCollapsed r)) (l_archiveCollapsed l0);
     l_notifyAboutPinned :=
       pick k 20 (b2i (notifyAboutPinned r)) (l_notifyAboutPinned l0) |}.

(** The first eight groups of [r], then a ninth group whose ratio is the raw
    integer [raw]. *)
Definition blob_with_raw_ratio (r : Variables) (raw : Z) : QByteArray :=
  Some (concat (firstn 8 (serialize_groups r))
        ++ write_qint32 raw
        ++ write_qint32 (thirdColumnWidth r)
        ++ write_qint32 (thirdSectionExtendedBy r)).

(* ===================================================================== *)
(** ** Further operations of the file                                     *)
(* ===================================================================== *)

(** Every enumerated field holds one of the enumerators its [switch] in the
    decoder lists. *)
Definition enums_legal (v : Variables) : Prop :=
  In (selectorTab v) legal_SelectorTab
  /\ In (floatPlayerColumn v) legal_Column
  /\ In (floatPlayerCorner v) legal_Corner
  /\ In (sendFilesWay v) legal_SendFilesWay
  /\ In (sendSubmitWay v) legal_InputSubmitSettings
  /\ In (supportSwitch v) legal_SwitchSettings.

(** A blob of the format that ended with the calls peer-to-peer setting: the
    first ten groups of [r], then [legacy] as the eleventh. *)
Definition blob_with_legacy (r : Variables) (legacy : Z) : QByteArray :=
  Some (concat (firstn 10 (serialize_groups r)) ++ write_qint32 legacy).

(** [QMap::constFind]: the search follows the key order. *)
Fixpoint qmap_constFind (key : QString) (m : QMap) : option QString :=
  match m with
  | [] => None
  | (k, v) :: t =>
      match qs_compare key k with
      | Lt => None
      | Eq => Some v
      | Gt => qmap_constFind key t
      end
  end.

(** [operator+] on [QString]: the code units of both; two null strings give
    a null string. *)
Definition qs_append (a b : QString) : QString :=
  match a, b with
  | None, None => None
  | _, _ => Some (qs_units a ++ qs_units b)
  end.

(** [qsl(":/sounds/")] and [qsl(".mp3")]. *)
Definition sounds_prefix : QString :=
  Some [58; 47; 115; 111; 117; 110; 100; 115; 47].
Definition mp3_suffix : QString := Some [46; 109; 112; 51].

(** [AuthSessionSettings::getSoundPath]. *)
Definition getSoundPath (key : QString) (v : Variables) : QString :=
  match qmap_constFind key (soundOverrides v) with
  | Some value => value
  | None => qs_append (qs_append sounds_prefix key) mp3_suffix
  end.

(** The record [v] with [tab] for its selector tab. *)
Definition with_selectorTab (tab : Z) (v : Variables) : Variables :=
  {| selectorTab := tab;
     lastSeenWarningSeen := lastSeenWarningSeen v;
     tabbedSelectorSectionEnabled := tabbedSelectorSectionEnabled v;
     soundOverrides := soundOverrides v;
     tabbedSelectorSectionTooltipShown := tabbedSelectorSectionTooltipShown v;
     floatPlayerColumn := floatPlayerColumn v;
     floatPlayerCorner := floatPlayerCorner v;
     groupStickersSectionHidden := groupStickersSectionHidden v;
     thirdSectionInfoEnabled := thirdSectionInfoEnabled v;
     smallDialogsList := smallDialogsList v;
     dialogsWidthRatio := dialogsWidthRatio v;
     thirdColumnWidth := thirdColumnWidth v;
     thirdSectionExtendedBy := thirdSectionExtendedBy v;
     sendFilesWay := sendFilesWay v;
     sendSubmitWay := sendSubmitWay v;
     supportSwitch := supportSwitch v;
     supportFixChatsOrder := supportFixChatsOrder v;
     supportTemplatesAutocomplete := supportTemplatesAutocomplete v;
     supportChatsTimeSlice := supportChatsTimeSlice v;
     hadLegacyCallsPeerToPeerNobody := hadLegacyCallsPeerToPeerNobody v;
     includeMutedCounter := includeMutedCounter v;
     countUnreadMessages := countUnreadMessages v;
     exeLaunchWarning := exeLaunchWarning v;
     autoDownload := autoDownload v;
     supportAllSearchResults := supportAllSearchResults v;
     archiveCollapsed := archiveCollapsed v;
     notifyAboutPinned := notifyAboutPinned v |}.

(** What [AuthSession::moveSettingsFrom] asks of its collaborators. *)
Inductive SessionEffect :=
| SavePrivacyPhoneP2PDisallowAll   (* [api().savePrivacy(...)] *)
| SaveSettingsDelayed.             (* [saveSettingsDelayed()] *)

(** [AuthSession::moveSettingsFrom].  [AuthSessionSettings::moveFrom] is
    declared in the header and is a parameter here; the getter
    [hadLegacyCallsPeerToPeerNobody()] reads the field of that name. *)
Definition moveSettingsFrom
           (moveFrom : AuthSessionSettings -> AuthSessionSettings
                       -> AuthSessionSettings)
           (_settings other : AuthSessionSettings)
  : AuthSessionSettings * list SessionEffect :=
  let s := moveFrom _settings other in
  if hadLegacyCallsPeerToPeerNobody (_variables s)
  then (s, [SavePrivacyPhoneP2PDisallowAll; SaveSettingsDelayed])
  else (s, []).

Unset Implicit Arguments.

End Settings.

(* ===================================================================== *)
(** ** Concrete instances                                                 *)
(* ===================================================================== *)

(** The numbers C++ gives the enumerators when they are declared in the
    order the source lists them; the four corners are bits of the [RectPart]
    flag set. *)
Definition cpp_tags : EnumTags :=
  {| SelectorTab_Emoji := 0;
     SelectorTab_Stickers := 1;
     SelectorTab_Gifs := 2;
     Column_First := 0;
     Column_Second := 1;
     Column_Third := 2;
     RectPart_TopLeft := 1;
     RectPart_TopRight := 4;
     RectPart_BottomLeft := 64;
     RectPart_BottomRight := 16;
     SendFilesWay_Album := 0;
     SendFilesWay_Photos := 1;
     SendFilesWay_Files := 2;
     InputSubmitSettings_Enter := 0;
     InputSubmitSettings_CtrlEnter := 1;
     SwitchSettings_None := 0;
     SwitchSettings_Next := 1;
     SwitchSettings_Previous := 2 |}.

(** A small stand-in for the auto-download codec: one preference, written as
    a version byte and a flag byte; anything else is rejected and leaves the
    object alone. *)
Definition demo_serialize (a : bool) : QByteArray :=
  Some [x01; if a then x01 else x00].

Definition demo_setFromSerialized (blob : QByteArray) (a : bool)
  : bool * bool :=
  match blob with
  | Some [x01; x00] => (true, false)
  | Some [x01; x01] => (true, true)
  | _ => (false, a)
  end.

(** A stand-in that spoils its object before it reports failure. *)
Definition sloppy_setFromSerialized (blob : QByteArray) (a : bool)
  : bool * bool :=
  match blob with
  | Some [x01; x00] => (true, false)
  | Some [x01; x01] => (true, true)
  | _ => (false, negb a)
  end.

(** A freshly constructed record: the six enumerated fields as
    [Variables::Variables()] sets them; the initial values of the other
    fields belong to the header and are picked for the examples. *)
Definition fresh_settings : Variables bool :=
  {| selectorTab := SelectorTab_Emoji cpp_tags;
     lastSeenWarningSeen := false;
     tabbedSelectorSectionEnabled := false;
     soundOverrides := [];
     tabbedSelectorSectionTooltipShown := 0;
     floatPlayerColumn := Column_Second cpp_tags;
     floatPlayerCorner := RectPart_TopRight cpp_tags;
     groupStickersSectionHidden := [];
     thirdSectionInfoEnabled := true;
     smallDialogsList := false;
     dialogsWidthRatio := f_div (f_of_int 5) (f_of_int 14);
     thirdColumnWidth := 0;
     thirdSectionExtendedBy := -1;
     sendFilesWay := SendFilesWay_Album cpp_tags;
     sendSubmitWay := InputSubmitSettings_Enter cpp_tags;
     supportSwitch := SwitchSettings_Next cpp_tags;
     supportFixChatsOrder := true;
     supportTemplatesAutocomplete := true;
     supportChatsTimeSlice := 432000;
     hadLegacyCallsPeerToPeerNobody := false;
     includeMutedCounter := true;
     countUnreadMessages := true;
     exeLaunchWarning := true;
     autoDownload := false;
     supportAllSearchResults := false;
     archiveCollapsed := false;
     notifyAboutPinned := true |}.

(** A record a user has changed: a sound override, two hidden sticker
    sections, the tabbed selector in the third column, a ratio of one half. *)
Definition used_settings : Variables bool :=
  {| selectorTab := SelectorTab_Stickers cpp_tags;
     lastSeenWarningSeen := true;
     tabbedSelectorSectionEnabled := true;
     soundOverrides :=
       [(Some [99; 97; 108; 108], Some [47; 97; 46; 109; 112; 51]);
        (Some [109; 115; 103], None)];
     tabbedSelectorSectionTooltipShown := 3;
     floatPlayerColumn := Column_Third cpp_tags;
     floatPlayerCorner := RectPart_BottomLeft cpp_tags;
     groupStickersSectionHidden := [5; 77; 18446744073709551615];
     thirdSectionInfoEnabled := false;
     smallDialogsList := true;
     dialogsWidthRatio := f_div (f_of_int 1) (f_of_int 2);
     thirdColumnWidth := 320;
     thirdSectionExtendedBy := -1;
     sendFilesWay := SendFilesWay_Files cpp_tags;
     sendSubmitWay := InputSubmitSettings_CtrlEnter cpp_tags;
     supportSwitch := SwitchSettings_None cpp_tags;
     supportFixChatsOrder := false;
     supportTemplatesAutocomplete := true;
     supportChatsTimeSlice := 86400;
     hadLegacyCallsPeerToPeerNobody := false;
     includeMutedCounter := false;
     countUnreadMessages := true;
     exeLaunchWarning := false;
     autoDownload := true;
     supportAllSearchResults := true;
     archiveCollapsed := true;
     notifyAboutPinned := false |}.

(** The same record with the info panel switched on as well, a state the
    setters never produce but a record can hold. *)
Definition both_panels_settings : Variables bool :=
  with_thirdSectionInfoEnabled true used_settings.

(** A blob cut in the middle of a field: the first ten bytes. *)
Definition cut_mid_field : QByteArray :=
  Some (firstn 10 (ba_bytes (serialize demo_serialize used_settings))).

(** The blob of [used_settings] with [tab] in place of the selector tab. *)
Definition blob_with_selectorTab (tab : Z) : QByteArray :=
  Some (write_qint32 tab
        ++ skipn 4 (ba_bytes (serialize demo_serialize used_settings))).

(** The blob of [used_settings] with a sub-blob of version 2, which the
    stand-in codec rejects. *)
Definition blob_with_bad_autoDownload : QByteArray :=
  Some (concat (firstn 16 (serialize_groups demo_serialize used_settings))
        ++ write_QByteArray (Some [x02; x00])).

(* ===================================================================== *)
(** ** The auto-lock timer                                                *)
(* ===================================================================== *)

(** [crl::time] is a 64-bit signed integer. *)
Definition wrap64 (z : Z) : Z :=
  let u := z mod 2 ^ 64 in if u <? 2 ^ 63 then u else u - 2 ^ 64.

Definition is_int64 (z : Z) : Prop := - 2 ^ 63 <= z < 2 ^ 63.

Definition kAutoLockTimeoutLateMs : Z := 3000.

(** What [checkAutoLock] reads from the application: [Global::LocalPasscode()],
    [Core::App().passcodeLocked()], [crl::now()],
    [Core::App().lastNonIdleTime()] and [Global::AutoLock()] (seconds). *)
Record LockInputs := mkLockInputs {
  LocalPasscode : bool;
  passcodeLocked : bool;
  now : Z;
  lastNonIdleTime : Z;
  AutoLock : Z
}.

(** What it does to the application and to [_autoLockTimer], in order. *)
Inductive LockEffect :=
| CheckLocalTime
| TimerCancel
| TimerCallOnce (delay : Z)
| LockByPasscode.

(** [AuthSession::checkAutoLock]: the new [_shouldLockAt] and the effects. *)
Definition checkAutoLock (i : LockInputs) (_shouldLockAt : Z)
  : Z * list LockEffect :=
  if negb (LocalPasscode i) || passcodeLocked i
  then (0, [TimerCancel])
  else
    let shouldLockInMs := wrap64 (AutoLock i * 1000) in
    let checkTimeMs := wrap64 (now i - lastNonIdleTime i) in
    if (shouldLockInMs <=? checkTimeMs)
       || ((0 <? _shouldLockAt)
           && (wrap64 (_shouldLockAt + kAutoLockTimeoutLateMs) <? now i))
    then (0, [CheckLocalTime; TimerCancel; LockByPasscode])
    else
      (wrap64 (now i + wrap64 (shouldLockInMs - checkTimeMs)),
       [CheckLocalTime; TimerCallOnce (wrap64 (shouldLockInMs - checkTimeMs))]).

(** [AuthSession::localPasscodeChanged]. *)
Definition localPasscodeChanged (i : LockInputs) : Z * list LockEffect :=
  let (at_, effects) := checkAutoLock i 0 in
  (at_, TimerCancel :: effects).

(** [AuthSession::checkAutoLockIn]; [active] and [remain] are what
    [_autoLockTimer.isActive()] and [remainingTime()] answer. *)
Definition checkAutoLockIn (time : Z) (active : bool) (remain : Z)
  : list LockEffect :=
  if active && ((0 <? remain) && (remain <=? time))
  then []
  else [TimerCallOnce time].

(* ===================================================================== *)
(** ** Notions used by the further properties                             *)
(* ===================================================================== *)

(** The stream after a failed read: at its end, with an error status. *)
Definition stream_failed (st : QDataStream) : Prop :=
  unread st = [] /\ status st <> Ok.

(** [c] is a cut of [bytes]: a prefix that stops short of the end. *)
Definition cut_of (c bytes : list byte) : Prop :=
  exists tail, tail <> [] /\ c ++ tail = bytes.

(** The value the last pair with a key equal to [key] carries, if any. *)
Fixpoint last_override (key : QString) (l : list (QString * QString))
  : option QString :=
  match l with
  | [] => None
  | (k, v) :: t =>
      match last_override key t with
      | Some x => Some x
      | None =>
          match qs_compare key k with
          | Eq => Some v
          | _ => None
          end
      end
  end.

Section MoreBlobs.
Context {AutoDownload : Type}.
Variable ser : AutoDownload -> QByteArray.

(** The first three groups of [r], then a fourth group that lists the pairs
    [l] as they come. *)
Definition blob_with_overrides (r : Variables AutoDownload)
           (l : list (QString * QString)) : QByteArray :=
  Some (concat (firstn 3 (serialize_groups ser r))
        ++ write_qint32 (Z.of_nat (length l))
        ++ write_soundOverrides l).

(** The first six groups of [r], then a seventh group that lists the ids
    [ids] as they come. *)
Definition blob_with_hidden (r : Variables AutoDownload) (ids : list Z)
  : QByteArray :=
  Some (concat (firstn 6 (serialize_groups ser r))
        ++ write_qint32 (Z.of_nat (length ids))
        ++ write_peerIds ids).
End MoreBlobs.

(** Times as the application meets them: clock readings below 2^61 ms, the
    last activity not after [now], a timeout in seconds that fits an [int]. *)
Definition plausible (i : LockInputs) (at_ : Z) : Prop :=
  0 <= lastNonIdleTime i <= now i
  /\ now i < 2 ^ 61
  /\ 0 <= AutoLock i < 2 ^ 31
  /\ 0 <= at_ < 2 ^ 61.

Section SessionOps.
Context {AutoDownload : Type}.
Variable setFrom : QByteArray -> AutoDownload -> bool * AutoDownload.
Variable tags : EnumTags.

(** What changes the settings of a session: a stored blob is applied
    ([constructFromSerialized] assigns to the members of [_variables] only,
    and fires neither of the two event streams), or one of the panel setters
    is called. *)
Inductive SettingsOp :=
| OpConstructFromSerialized (serialized : QByteArray)
| OpSetter (c : Setter).

Definition run_op (op : SettingsOp) (s : AuthSessionSettings AutoDownload)
  : AuthSessionSettings AutoDownload :=
  match op with
  | OpConstructFromSerialized serialized =>
      mkSettings
        (after (constructFromSerialized setFrom tags serialized
                  (_variables s)))
        (_tabbedReplacedWithInfo s) (fired s)
  | OpSetter c => run_setter c s
  end.

Definition run_ops (ops : list SettingsOp)
           (s : AuthSessionSettings AutoDownload)
  : AuthSessionSettings AutoDownload :=
  fold_left (fun acc op => run_op op acc) ops s.
End SessionOps.

(* ===================================================================== *)
(** * Properties                                                          *)
(* ===================================================================== *)

(** ** Wire integers *)

Lemma Z_of_byte_range (b : byte) : 0 <= Z_of_byte b < 256.
Proof.
  unfold Z_of_byte. pose proof (Byte.to_N_bounded b). lia.
Qed.

Lemma Z_of_byte_of_Z (z : Z) : Z_of_byte (byte_of_Z z) = z mod 256.
Proof.
  unfold byte_of_Z, Z_of_byte.
  assert (Hr : 0 <= z mod 256 < 256) by (apply Z.mod_pos_bound; lia).
  destruct (Byte.of_N (Z.to_N (z mod 256))) as [b|] eqn:E.
  - apply Byte.to_of_N in E. rewrite E. lia.
  - apply Byte.of_N_None_iff in E. lia.
Qed.

Lemma be_encode_length (n : nat) (z : Z) : length (be_encode n z) = n.
Proof. induction n; simpl; congruence. Qed.

Lemma be_decode_encode (n : nat) (z : Z) :
  be_decode (be_encode n z) = z mod 256 ^ Z.of_nat n.
Proof.
  induction n as [|n IH].
  - simpl. now rewrite Z.mod_1_r.
  - cbn [be_encode be_decode].
    rewrite be_encode_length, IH, Z_of_byte_of_Z.
    rewrite Nat2Z.inj_succ, Z.pow_succ_r by lia.
    rewrite (Z.mul_comm 256), Z.rem_mul_r by lia.
    lia.
Qed.

Lemma to_signed32_wrap (z : Z) : is_int32 z -> to_signed32 (z mod 2 ^ 32) = z.
Proof.
  unfold is_int32, to_signed32. intros H.
  destruct (Z.ltb_spec (z mod 2 ^ 32) (2 ^ 31)) as [L|L].
  - destruct (Z.le_gt_cases 0 z).
    + rewrite Z.mod_small; lia.
    + rewrite <- (Z.mod_add z 1) in L by lia.
      rewrite Z.mod_small in L; lia.
  - destruct (Z.le_gt_cases 0 z).
    + rewrite Z.mod_small in L; lia.
    + rewrite <- (Z.mod_add z 1) by lia.
      rewrite Z.mod_small; lia.
Qed.

Lemma wrap32_id (z : Z) : is_int32 z -> wrap32 z = z.
Proof. apply to_signed32_wrap. Qed.

Lemma to_signed32_range (u : Z) :
  0 <= u < 2 ^ 32 -> is_int32 (to_signed32 u).
Proof.
  unfold is_int32, to_signed32. intros H.
  destruct (Z.ltb_spec u (2 ^ 31)); lia.
Qed.

Lemma wrap32_range (z : Z) : is_int32 (wrap32 z).
Proof.
  apply to_signed32_range. apply Z.mod_pos_bound. lia.
Qed.

Lemma be_decode_range (l : list byte) :
  0 <= be_decode l < 256 ^ Z.of_nat (length l).
Proof.
  induction l as [|b t IH]; cbn [be_decode length].
  - simpl. lia.
  - pose proof (Z_of_byte_range b).
    rewrite Nat2Z.inj_succ, Z.pow_succ_r by lia.
    nia.
Qed.

(** ** Reading back what was written *)

Lemma readRawData_app (a rest : list byte) (s : Status) (len : Z) :
  len = Z.of_nat (length a) ->
  readRawData len (mkStream (a ++ rest) s) = (Some a, mkStream rest s).
Proof.
  intros ->. unfold readRawData. cbn [unread status].
  rewrite length_app, Nat2Z.id.
  destruct (Z.leb_spec (Z.of_nat (length a))
                       (Z.of_nat (length a + length rest))); [|lia].
  rewrite firstn_app, Nat.sub_diag, firstn_all, firstn_O, app_nil_r.
  rewrite skipn_app, Nat.sub_diag, skipn_all. reflexivity.
Qed.

Lemma read_uint_write (n : nat) (z : Z) (rest : list byte) (s : Status) :
  read_uint (Z.of_nat n) (mkStream (be_encode n z ++ rest) s)
  = (z mod 256 ^ Z.of_nat n, mkStream rest s).
Proof.
  unfold read_uint, bind.
  rewrite readRawData_app by now rewrite be_encode_length.
  unfold ret. now rewrite be_decode_encode.
Qed.

Lemma read_qint32_write (z : Z) (rest : list byte) (s : Status) :
  is_int32 z ->
  read_qint32 (mkStream (write_qint32 z ++ rest) s) = (z, mkStream rest s).
Proof.
  intros H. unfold read_qint32, write_qint32, bind.
  rewrite (read_uint_write 4). unfold ret.
  change (256 ^ Z.of_nat 4) with (2 ^ 32).
  now rewrite to_signed32_wrap.
Qed.

Lemma read_quint32_write (z : Z) (rest : list byte) (s : Status) :
  0 <= z < 2 ^ 32 ->
  read_quint32 (mkStream (write_quint32 z ++ rest) s) = (z, mkStream rest s).
Proof.
  intros H. unfold read_quint32, write_quint32.
  rewrite (read_uint_write 4).
  change (256 ^ Z.of_nat 4) with (2 ^ 32).
  rewrite Z.mod_small by lia. reflexivity.
Qed.

Lemma read_quint64_write (z : Z) (rest : list byte) (s : Status) :
  is_uint64 z ->
  read_quint64 (mkStream (write_quint64 z ++ rest) s) = (z, mkStream rest s).
Proof.
  intros H. unfold read_quint64, write_quint64.
  rewrite (read_uint_write 8).
  change (256 ^ Z.of_nat 8) with (2 ^ 64).
  rewrite Z.mod_small by (unfold is_uint64 in H; lia). reflexivity.
Qed.

Lemma units_of_bytes_of_units (l : list QChar) :
  Forall (fun c => 0 <= c < 65536) l ->
  units_of_bytes (bytes_of_units l) = l.
Proof.
  induction 1 as [|c t Hc _ IH]; [reflexivity|].
  cbn [bytes_of_units be_encode app units_of_bytes].
  rewrite IH. f_equal.
  change [byte_of_Z (c / 256 ^ Z.of_nat 1); byte_of_Z (c / 256 ^ Z.of_nat 0)]
    with (be_encode 2 c).
  rewrite be_decode_encode. apply Z.mod_small. simpl. lia.
Qed.

Lemma bytes_of_units_length (l : list QChar) :
  Z.of_nat (length (bytes_of_units l)) = 2 * Z.of_nat (length l).
Proof.
  induction l as [|c t IH]; [reflexivity|].
  cbn [bytes_of_units be_encode app length]. lia.
Qed.

Lemma read_QString_write (q : QString) (rest : list byte) :
  is_utf16 q ->
  read_QString (mkStream (write_QString q ++ rest) Ok)
  = (q, mkStream rest Ok).
Proof.
  intros [Hu Hl]. destruct q as [l|]; cbn [qs_units write_QString] in *.
  - unfold read_QString, bind. rewrite <- app_assoc.
    rewrite read_quint32_write by lia.
    destruct (Z.eqb_spec (2 * Z.of_nat (length l)) 4294967295) as [E|_];
      [lia|].
    destruct (Z.ltb_spec 0 (2 * Z.of_nat (length l))) as [P|P].
    + rewrite Z.odd_mul. cbn [Z.odd andb].
      rewrite readRawData_app by now rewrite bytes_of_units_length.
      unfold ret. now rewrite units_of_bytes_of_units.
    + destruct l; [reflexivity | cbn [length] in P; lia].
  - unfold read_QString, bind.
    rewrite read_quint32_write by lia. reflexivity.
Qed.

Lemma read_QByteArray_write (b : QByteArray) (rest : list byte) :
  Z.of_nat (length (ba_bytes b)) < 2 ^ 31 ->
  read_QByteArray (mkStream (write_QByteArray b ++ rest) Ok)
  = (b, mkStream rest Ok).
Proof.
  intros Hl. destruct b as [l|]; cbn [ba_bytes write_QByteArray] in *.
  - unfold read_QByteArray, bind. rewrite <- app_assoc.
    rewrite read_quint32_write by lia.
    destruct (Z.eqb_spec (Z.of_nat (length l)) 4294967295) as [E|_]; [lia|].
    rewrite readRawData_app by reflexivity. reflexivity.
  - unfold read_QByteArray, bind.
    rewrite read_quint32_write by lia. reflexivity.
Qed.

(** ** The counted loop *)

Lemma wrap32_mod (z : Z) : wrap32 z mod 2 ^ 32 = z mod 2 ^ 32.
Proof.
  unfold wrap32, to_signed32.
  pose proof (Z.mod_pos_bound z (2 ^ 32) ltac:(lia)).
  destruct (Z.ltb_spec (z mod 2 ^ 32) (2 ^ 31)).
  - apply Z.mod_mod. lia.
  - rewrite <- (Z.mod_add _ 1) by lia.
    replace (z mod 2 ^ 32 - 2 ^ 32 + 1 * 2 ^ 32) with (z mod 2 ^ 32) by lia.
    apply Z.mod_mod. lia.
Qed.

Lemma rounds_zero (i count : Z) :
  is_int32 i -> is_int32 count -> rounds i count = 0%N -> i = count.
Proof.
  unfold rounds, is_int32. intros Hi Hc H.
  pose proof (Z.mod_pos_bound (count - i) (2 ^ 32) ltac:(lia)) as B.
  assert (E : (count - i) mod 2 ^ 32 = 0) by lia.
  apply Z.mod_divide in E; [|lia].
  destruct E as [q E]. nia.
Qed.

Lemma rounds_same (i : Z) : rounds i i = 0%N.
Proof. unfold rounds. now rewrite Z.sub_diag. Qed.

Lemma rounds_next (i count : Z) (n : N) :
  rounds i count = N.succ n -> rounds (wrap32 (i + 1)) count = n.
Proof.
  unfold rounds. intros H.
  pose proof (Z.mod_pos_bound (count - i) (2 ^ 32) ltac:(lia)) as B.
  rewrite <- Zminus_mod_idemp_r, wrap32_mod, Zminus_mod_idemp_r.
  replace (count - (i + 1)) with ((count - i) - 1) by lia.
  rewrite <- Zminus_mod_idemp_l.
  rewrite Z.mod_small by lia. lia.
Qed.

Lemma rounds_of_nat (n : nat) :
  Z.of_nat n < 2 ^ 32 -> rounds 0 (Z.of_nat n) = N.of_nat n.
Proof.
  intros H. unfold rounds. rewrite Z.sub_0_r, Z.mod_small by lia. lia.
Qed.

(** The loop as written stops, in the state [for_loop] computes. *)
Lemma for_exec_runs {X} (count : Z) (body : X -> Rd X) :
  is_int32 count ->
  forall (n : N) (i : Z) (p : X * QDataStream),
    is_int32 i ->
    rounds i count = n ->
    for_exec count body i p
      (N.iter n (fun q => body (fst q) (snd q)) p).
Proof.
  intros Hc n. induction n as [|n IH] using N.peano_ind; intros i p Hi Hn.
  - apply for_exit. now apply rounds_zero.
  - rewrite N.iter_succ_r. apply for_round.
    + intros ->. rewrite rounds_same in Hn. lia.
    + apply IH; [apply wrap32_range | now apply rounds_next].
Qed.

Lemma for_exec_deterministic {X} (count : Z) (body : X -> Rd X)
      (i : Z) (p q q' : X * QDataStream) :
  for_exec count body i p q -> for_exec count body i p q' -> q = q'.
Proof.
  intros H. revert q'.
  induction H as [i p E|i p q N _ IH]; intros q' H'.
  - inversion H' as [|? ? ? N']; subst; [reflexivity | congruence].
  - inversion H'; subst; [congruence | auto].
Qed.

(** ** Containers *)

Lemma StronglySorted_app_before {A} (R : A -> A -> Prop) (l1 l2 : list A)
      (x : A) :
  StronglySorted R (l1 ++ x :: l2) -> Forall (fun y => R y x) l1.
Proof.
  induction l1 as [|a l1 IH]; cbn [app]; intros H; [constructor|].
  apply StronglySorted_inv in H. destruct H as [Hs Hf].
  constructor; [|auto].
  rewrite Forall_forall in Hf. apply Hf, in_elt.
Qed.

Lemma qs_compare_antisym (a b : QString) :
  qs_compare b a = CompOpp (qs_compare a b).
Proof.
  unfold qs_compare. apply list_compare_antisym.
  - apply Z.compare_eq_iff.
  - intros x y. apply Z.compare_antisym.
Qed.

Lemma qmap_set_last (m : QMap) (k v : QString) :
  Forall (fun k' => qs_compare k' k = Lt) (map fst m) ->
  qmap_set k v m = m ++ [(k, v)].
Proof.
  induction m as [|[k' v'] t IH]; cbn [map fst]; intros H; [reflexivity|].
  apply Forall_cons_iff in H. destruct H as [Hk Ht].
  cbn [qmap_set app]. rewrite qs_compare_antisym, Hk. cbn [CompOpp].
  now rewrite IH.
Qed.

Lemma flat_set_insert_last (s : flat_set) (x : Z) :
  Forall (fun y => y < x) s -> flat_set_insert x s = s ++ [x].
Proof.
  induction s as [|y t IH]; intros H; [reflexivity|].
  apply Forall_cons_iff in H. destruct H as [Hy Ht].
  cbn [flat_set_insert app].
  destruct (Z.compare_spec x y); try lia. now rewrite IH.
Qed.

Lemma read_soundOverrides_loop (m2 acc : QMap) (rest : list byte) :
  qmap_sorted (acc ++ m2) ->
  Forall (fun kv => is_utf16 (fst kv) /\ is_utf16 (snd kv)) m2 ->
  N.iter (N.of_nat (length m2))
         (fun q => read_soundOverride (fst q) (snd q))
         (acc, mkStream (write_soundOverrides m2 ++ rest) Ok)
  = (acc ++ m2, mkStream rest Ok).
Proof.
  revert acc. induction m2 as [|[k v] t IH]; intros acc Hs Hu.
  - cbn. now rewrite app_nil_r.
  - apply Forall_cons_iff in Hu. destruct Hu as [[Hk Hv] Hu].
    cbn [length fst snd] in *.
    rewrite Nat2N.inj_succ, N.iter_succ_r. cbn [fst snd].
    unfold write_soundOverrides. cbn [flat_map fst snd].
    unfold read_soundOverride at 2. unfold bind.
    rewrite <- !app_assoc.
    rewrite read_QString_write by assumption.
    rewrite read_QString_write by assumption.
    unfold ret. rewrite qmap_set_last.
    + change (flat_map _ t) with (write_soundOverrides t).
      rewrite IH; [now rewrite <- app_assoc | | assumption].
      now rewrite <- app_assoc.
    + unfold qmap_sorted in Hs. rewrite map_app in Hs. cbn [map fst] in Hs.
      now apply StronglySorted_app_before in Hs.
Qed.

Lemma read_peerIds_loop (s2 acc : flat_set) (rest : list byte) :
  flat_set_sorted (acc ++ s2) ->
  Forall is_uint64 s2 ->
  N.iter (N.of_nat (length s2))
         (fun q => read_peerId (fst q) (snd q))
         (acc, mkStream (write_peerIds s2 ++ rest) Ok)
  = (acc ++ s2, mkStream rest Ok).
Proof.
  revert acc. induction s2 as [|x t IH]; intros acc Hs Hu.
  - cbn. now rewrite app_nil_r.
  - apply Forall_cons_iff in Hu. destruct Hu as [Hx Hu].
    cbn [length]. rewrite Nat2N.inj_succ, N.iter_succ_r. cbn [fst snd].
    unfold write_peerIds. cbn [flat_map].
    unfold read_peerId at 2. unfold bind.
    rewrite <- !app_assoc.
    rewrite read_quint64_write by assumption.
    unfold ret. rewrite flat_set_insert_last.
    + change (flat_map _ t) with (write_peerIds t).
      rewrite IH; [now rewrite <- app_assoc | | assumption].
      now rewrite <- app_assoc.
    + now apply StronglySorted_app_before in Hs.
Qed.

Lemma read_soundOverrides_write (m : QMap) (rest : list byte) :
  qmap_sorted m ->
  Z.of_nat (length m) < 2 ^ 31 ->
  Forall (fun kv => is_utf16 (fst kv) /\ is_utf16 (snd kv)) m ->
  read_soundOverrides
    (mkStream (write_qint32 (Z.of_nat (length m))
               ++ write_soundOverrides m ++ rest) Ok)
  = (m, mkStream rest Ok).
Proof.
  intros Hs Hl Hu. unfold read_soundOverrides, bind.
  rewrite read_qint32_write by (unfold is_int32; lia).
  cbn [getStatus status Status_eqb]. unfold for_loop.
  rewrite rounds_of_nat by lia.
  apply (read_soundOverrides_loop m []); assumption.
Qed.

Lemma read_groupStickersSectionHidden_write (s : flat_set)
      (rest : list byte) :
  flat_set_sorted s ->
  Z.of_nat (length s) < 2 ^ 31 ->
  Forall is_uint64 s ->
  read_groupStickersSectionHidden
    (mkStream (write_qint32 (Z.of_nat (length s))
               ++ write_peerIds s ++ rest) Ok)
  = (s, mkStream rest Ok).
Proof.
  intros Hs Hl Hu. unfold read_groupStickersSectionHidden, bind.
  rewrite read_qint32_write by (unfold is_int32; lia).
  cbn [getStatus status Status_eqb]. unfold for_loop.
  rewrite rounds_of_nat by lia.
  apply (read_peerIds_loop s []); assumption.
Qed.

(** ** Decoding what [serialize] wrote *)

Lemma is_int32_b2i (b : bool) : is_int32 (b2i b).
Proof. destruct b; unfold is_int32; simpl; lia. Qed.

Lemma is_int32_0 : is_int32 0.
Proof. unfold is_int32; lia. Qed.

Lemma snap_Z_range (v lo hi : Z) :
  lo <= hi -> lo <= snap Z.ltb v lo hi <= hi.
Proof.
  intros H. unfold snap.
  destruct (Z.ltb_spec v lo); [lia|].
  destruct (Z.ltb_spec hi v); lia.
Qed.

Lemma ratioToRaw_range (x : float64) : 0 <= ratioToRaw x <= 1000000.
Proof. apply snap_Z_range. lia. Qed.

Lemma is_int32_ratioToRaw (x : float64) : is_int32 (ratioToRaw x).
Proof. pose proof (ratioToRaw_range x). unfold is_int32. lia. Qed.

Lemma unlessAtEnd_end {A} (block : Rd A) (keep : A) (s : Status) :
  unlessAtEnd block keep (mkStream [] s) = (keep, mkStream [] s).
Proof. reflexivity. Qed.

Lemma unlessAtEnd_more {A} (block : Rd A) (keep : A) (st : QDataStream) :
  unread st <> [] -> unlessAtEnd block keep st = block st.
Proof.
  unfold unlessAtEnd, bind, atEnd. destruct (unread st); [congruence|].
  reflexivity.
Qed.

Lemma unlessAtEnd_int {A} (block : Rd A) (keep : A) (z : Z)
      (rest : list byte) (s : Status) :
  unlessAtEnd block keep (mkStream (write_qint32 z ++ rest) s)
  = block (mkStream (write_qint32 z ++ rest) s).
Proof. apply unlessAtEnd_more. discriminate. Qed.

Lemma unlessAtEnd_bytes {A} (block : Rd A) (keep : A) (b : QByteArray)
      (rest : list byte) (s : Status) :
  unlessAtEnd block keep (mkStream (write_QByteArray b ++ rest) s)
  = block (mkStream (write_QByteArray b ++ rest) s).
Proof. apply unlessAtEnd_more. destruct b; discriminate. Qed.

Lemma read2_write (a b : Z) (rest : list byte) :
  is_int32 a -> is_int32 b ->
  read2 (mkStream (write_qint32 a ++ write_qint32 b ++ rest) Ok)
  = ((a, b), mkStream rest Ok).
Proof.
  intros Ha Hb. unfold read2, bind.
  now rewrite !read_qint32_write.
Qed.

Lemma read3_write (a b c : Z) (rest : list byte) :
  is_int32 a -> is_int32 b -> is_int32 c ->
  read3 (mkStream (write_qint32 a ++ write_qint32 b ++ write_qint32 c
                   ++ rest) Ok)
  = ((a, b, c), mkStream rest Ok).
Proof.
  intros Ha Hb Hc. unfold read3, bind.
  now rewrite !read_qint32_write.
Qed.

Lemma read_widths_write (a b c : Z) (rest : list byte) :
  is_int32 a -> is_int32 b -> is_int32 c ->
  read_widths (mkStream (write_qint32 a ++ write_qint32 b ++ write_qint32 c
                         ++ rest) Ok)
  = ((ratioFromRaw a, b, c), mkStream rest Ok).
Proof.
  intros Ha Hb Hc. unfold read_widths, bind.
  now rewrite !read_qint32_write.
Qed.

Create HintDb wire.

#[local] Hint Resolve is_int32_b2i is_int32_0 is_int32_ratioToRaw : wire.

Section Decoding.

Context {AutoDownload : Type}.
Variable ser : AutoDownload -> QByteArray.
Variable setFrom : QByteArray -> AutoDownload -> bool * AutoDownload.
Variable tags : EnumTags.

Lemma serialize_concat_groups (v : Variables AutoDownload) :
  serialize ser v = Some (concat (serialize_groups ser v)).
Proof.
  unfold serialize, serialize_groups. cbn [concat].
  now rewrite <- !app_assoc, app_nil_r.
Qed.

Lemma serialize_truncate_20 (v : Variables AutoDownload) :
  serialize ser v = truncate_after_group ser 20 v.
Proof. apply serialize_concat_groups. Qed.

(** One guarded block of the decoder at a time. *)
Ltac decode_block :=
  first
    [ rewrite unlessAtEnd_end
    | rewrite unlessAtEnd_int
    | rewrite unlessAtEnd_bytes ];
  try first
    [ rewrite read_soundOverrides_write by eauto
    | rewrite read_groupStickersSectionHidden_write by eauto
    | rewrite read_widths_write by eauto with wire
    | rewrite read3_write by eauto with wire
    | rewrite read2_write by eauto with wire
    | rewrite read_QByteArray_write by eauto
    | rewrite read_qint32_write by eauto with wire ];
  cbv beta iota.

Lemma decode_fields_prefix (k : nat) (r p : Variables AutoDownload) :
  well_typed ser r ->
  (2 <= k <= 20)%nat ->
  decode_fields tags p
    (mkStream (ba_bytes (truncate_after_group ser k r)) Ok)
  = (prefix_locals ser tags k r p, mkStream [] Ok).
Proof.
  intros [] Hk.
  assert (Hcases :
            (k = 2 \/ k = 3 \/ k = 4 \/ k = 5 \/ k = 6 \/ k = 7 \/ k = 8
             \/ k = 9 \/ k = 10 \/ k = 11 \/ k = 12 \/ k = 13 \/ k = 14
             \/ k = 15 \/ k = 16 \/ k = 17 \/ k = 18 \/ k = 19
             \/ k = 20)%nat) by lia.
  unfold truncate_after_group, serialize_groups, ba_bytes.
  unfold decode_fields, bind.
  repeat (destruct Hcases as [->|Hcases]); [..|subst k];
    cbn [firstn concat];
    rewrite <- ?app_assoc;
    rewrite (read_qint32_write (selectorTab r)) by assumption;
    cbv beta iota;
    rewrite read_qint32_write by auto with wire;
    cbv beta iota;
    do 18 decode_block;
    reflexivity.
Qed.

Lemma decode_fields_raw_ratio (r p : Variables AutoDownload) (raw : Z) :
  well_typed ser r ->
  is_int32 raw ->
  exists l : Locals,
    decode_fields tags p
      (mkStream (ba_bytes (blob_with_raw_ratio ser r raw)) Ok)
    = (l, mkStream [] Ok)
    /\ l_dialogsWidthRatio l = ratioFromRaw raw
    /\ l_autoDownload l = None.
Proof.
  intros [] Hraw.
  unfold blob_with_raw_ratio, serialize_groups, ba_bytes.
  cbn [firstn concat].
  rewrite <- (app_nil_r (write_qint32 (thirdSectionExtendedBy r))).
  rewrite <- ?app_assoc. rewrite app_nil_l.
  unfold decode_fields, bind.
  rewrite (read_qint32_write (selectorTab r)) by assumption.
  cbv beta iota.
  rewrite read_qint32_write by auto with wire.
  cbv beta iota.
  do 18 decode_block.
  eexists. split; [reflexivity|]. split; reflexivity.
Qed.

Lemma b2i_eqb_1 (b : bool) : (b2i b =? 1) = b.
Proof. now destruct b. Qed.

Lemma b2i_neq_0 (b : bool) : negb (b2i b =? 0) = b.
Proof. now destruct b. Qed.

Lemma existsb_In (x : Z) (l : list Z) : In x l -> existsb (Z.eqb x) l = true.
Proof.
  intros H. apply existsb_exists. exists x. split; [assumption|].
  apply Z.eqb_refl.
Qed.

Lemma existsb_not_In (x : Z) (l : list Z) :
  ~ In x l -> existsb (Z.eqb x) l = false.
Proof.
  intros H. destruct (existsb (Z.eqb x) l) eqn:E; [|reflexivity].
  apply existsb_exists in E. destruct E as [y [Hy E]].
  apply Z.eqb_eq in E. subst y. contradiction.
Qed.

Lemma checked_In (legal : list Z) (x prior : Z) :
  In x legal -> checked legal x prior = x.
Proof. intros H. unfold checked. now rewrite existsb_In. Qed.

Lemma checked_not_In (legal : list Z) (x prior : Z) :
  ~ In x legal -> checked legal x prior = prior.
Proof. intros H. unfold checked. now rewrite existsb_not_In. Qed.

Lemma checked_same (legal : list Z) (x : Z) : checked legal x x = x.
Proof. unfold checked. now destruct (existsb _ _). Qed.

Lemma truncate_not_empty (k : nat) (r : Variables AutoDownload) :
  (1 <= k)%nat -> ba_isEmpty (truncate_after_group ser k r) = false.
Proof.
  intros Hk. destruct k as [|k]; [lia|]. reflexivity.
Qed.

(** The assignments turn the locals of a cut blob into [truncated_image].
    [v] is [p] up to its auto-download preferences, which are those expected
    after the sub-blob step. *)
Lemma commit_prefix (k : nat) (r p v : Variables AutoDownload) :
  valid ser tags r ->
  (2 <= k <= 20)%nat ->
  selectorTab v = selectorTab p ->
  floatPlayerColumn v = floatPlayerColumn p ->
  floatPlayerCorner v = floatPlayerCorner p ->
  sendFilesWay v = sendFilesWay p ->
  sendSubmitWay v = sendSubmitWay p ->
  supportSwitch v = supportSwitch p ->
  autoDownload v = pick k 17 (restored_autoDownload ser r p) (autoDownload p) ->
  commit tags (prefix_locals ser tags k r p) v
  = truncated_image ser tags k r p.
Proof.
  intros [_ V1 V2 V3 V4 V5 V6] Hk E1 E2 E3 E4 E5 E6 Ea.
  assert (Hcases :
            (k = 2 \/ k = 3 \/ k = 4 \/ k = 5 \/ k = 6 \/ k = 7 \/ k = 8
             \/ k = 9 \/ k = 10 \/ k = 11 \/ k = 12 \/ k = 13 \/ k = 14
             \/ k = 15 \/ k = 16 \/ k = 17 \/ k = 18 \/ k = 19
             \/ k = 20)%nat) by lia.
  unfold commit. rewrite E1, E2, E3, E4, E5, E6, Ea. clear E1 E2 E3 E4 E5 E6 Ea.
  unfold truncated_image.
  repeat (destruct Hcases as [->|Hcases]); [..|subst k];
    unfold prefix_locals, pick; cbn [Nat.leb];
    cbn [init_locals roundtrip_image fallback
         l_selectorTab l_lastSeenWarningSeen l_tabbedSelectorSectionEnabled
         l_tabbedSelectorSectionTooltipShown l_floatPlayerColumn
         l_floatPlayerCorner l_soundOverrides l_groupStickersSectionHidden
         l_thirdSectionInfoEnabled l_smallDialogsList l_dialogsWidthRatio
         l_thirdColumnWidth l_thirdSectionExtendedBy l_sendFilesWay
         l_legacyCallsPeerToPeer l_sendSubmitWay l_supportSwitch
         l_supportFixChatsOrder l_supportTemplatesAutocomplete
         l_supportChatsTimeSlice l_includeMutedCounter l_countUnreadMessages
         l_exeLaunchWarning l_autoDownload l_supportAllSearchResults
         l_archiveCollapsed l_notifyAboutPinned
         selectorTab lastSeenWarningSeen tabbedSelectorSectionEnabled
         soundOverrides tabbedSelectorSectionTooltipShown floatPlayerColumn
         floatPlayerCorner groupStickersSectionHidden thirdSectionInfoEnabled
         smallDialogsList dialogsWidthRatio thirdColumnWidth
         thirdSectionExtendedBy sendFilesWay sendSubmitWay supportSwitch
         supportFixChatsOrder supportTemplatesAutocomplete
         supportChatsTimeSlice hadLegacyCallsPeerToPeerNobody
         includeMutedCounter countUnreadMessages exeLaunchWarning autoDownload
         supportAllSearchResults archiveCollapsed notifyAboutPinned];
    rewrite ?b2i_eqb_1, ?b2i_neq_0, ?checked_same;
    rewrite ?(checked_In _ _ _ V1), ?(checked_In _ _ _ V2),
            ?(checked_In _ _ _ V3), ?(checked_In _ _ _ V4),
            ?(checked_In _ _ _ V5), ?(checked_In _ _ _ V6);
    rewrite ?(checked_In (legal_Column tags) (Column_Second tags))
      by (simpl; auto);
    rewrite ?(checked_In (legal_Corner tags) (RectPart_TopRight tags))
      by (simpl; auto);
    reflexivity.
Qed.

End Decoding.

(** ** The decoder on blobs of [serialize] *)

Section Codec.

Context {AutoDownload : Type}.
Variable ser : AutoDownload -> QByteArray.
Variable setFrom : QByteArray -> AutoDownload -> bool * AutoDownload.
Variable tags : EnumTags.

Lemma with_autoDownload_same (v : Variables AutoDownload) :
  with_autoDownload v (autoDownload v) = v.
Proof. now destruct v. Qed.

(** A blob cut after group [k], for [k] from 2 to 20, is applied and leaves
    [truncated_image]. *)
Lemma construct_truncated (k : nat) (r p : Variables AutoDownload) :
  valid ser tags r ->
  codec_roundtrip ser setFrom ->
  (2 <= k <= 20)%nat ->
  constructFromSerialized setFrom tags (truncate_after_group ser k r) p
  = mkDecoded Applied (truncated_image ser tags k r p) [].
Proof.
  intros Hv Hc Hk. unfold constructFromSerialized.
  rewrite truncate_not_empty by lia.
  rewrite decode_fields_prefix by (try apply Hv; assumption).
  cbn [status Status_eqb negb].
  change (l_autoDownload (prefix_locals ser tags k r p))
    with (pick k 17 (ser (autoDownload r)) None).
  unfold pick at 1 2.
  destruct (Nat.leb_spec 17 k) as [L|L].
  - destruct (ba_isEmpty (ser (autoDownload r))) eqn:E.
    + f_equal. apply commit_prefix; try assumption; try reflexivity.
      unfold pick, restored_autoDownload. rewrite E.
      now destruct (17 <=? k)%nat.
    + rewrite (Hc _ _ E). f_equal.
      apply commit_prefix; try assumption; try reflexivity.
      unfold pick, restored_autoDownload. rewrite E. cbn [autoDownload with_autoDownload].
      apply Nat.leb_le in L. now rewrite L.
  - cbn [ba_isEmpty ba_bytes]. f_equal.
    apply commit_prefix; try assumption; try reflexivity.
    unfold pick. destruct (Nat.leb_spec 17 k); [lia | reflexivity].
Qed.

Lemma truncated_image_20 (r p : Variables AutoDownload) :
  truncated_image ser tags 20 r p = roundtrip_image ser r p.
Proof. reflexivity. Qed.

(** C1, in the form that holds.  Decoding the blob of a valid record [r] into any record
    [p] is applied without a diagnostic and gives back every field of [r],
    except that the legacy flag is false, the ratio is the one the stored
    millionths stand for, the tabbed selector flag is cleared when the info
    panel flag is set, and the auto-download preferences are those the
    delegated codec restores. *)
Theorem decode_serialize_roundtrip (r p : Variables AutoDownload) :
  valid ser tags r ->
  codec_roundtrip ser setFrom ->
  constructFromSerialized setFrom tags (serialize ser r) p
  = mkDecoded Applied (roundtrip_image ser r p) [].
Proof.
  intros Hv Hc.
  rewrite serialize_truncate_20, <- truncated_image_20.
  apply construct_truncated; [assumption | assumption | lia].
Qed.


(** A blob that stops after the selector tab is rejected, whatever the
    record: the second field is read unconditionally. *)
Lemma construct_truncated_1 (r p : Variables AutoDownload) :
  is_int32 (selectorTab r) ->
  constructFromSerialized setFrom tags (truncate_after_group ser 1 r) p
  = mkDecoded BadData p [bad_data_message].
Proof.
  intros H. unfold constructFromSerialized, truncate_after_group.
  cbn [serialize_groups firstn concat ba_isEmpty ba_bytes].
  unfold decode_fields, bind.
  rewrite read_qint32_write by assumption. reflexivity.
Qed.

(** ** Failure paths *)

(** C2.  Whenever the reads leave the stream in an error status, the function
    logs the diagnostic and returns with the record exactly as it was: no
    field is assigned before the status test. *)
Theorem decode_bad_data_atomic (blob : QByteArray) (p : Variables AutoDownload) :
  ba_isEmpty blob = false ->
  status (snd (decode_fields tags p (mkStream (ba_bytes blob) Ok))) <> Ok ->
  constructFromSerialized setFrom tags blob p
  = mkDecoded BadData p [bad_data_message].
Proof.
  intros He Hs. unfold constructFromSerialized. rewrite He.
  destruct (decode_fields tags p (mkStream (ba_bytes blob) Ok)) as [l st].
  cbn [snd] in Hs.
  destruct (status st); [congruence | reflexivity | reflexivity].
Qed.

(** C9.  An empty blob, null or not, returns at once: nothing is logged and
    the record is untouched. *)
Theorem decode_empty_blob (blob : QByteArray) (p : Variables AutoDownload) :
  ba_isEmpty blob = true ->
  constructFromSerialized setFrom tags blob p = mkDecoded EmptyInput p [].
Proof.
  intros He. unfold constructFromSerialized. now rewrite He.
Qed.

(** C6.  When the reads succeed and the sub-blob is present, not empty, and
    rejected by the delegated decoder, the function returns before any
    assignment of its own; with a delegated decoder that leaves its object
    alone when it fails, the record is unchanged. *)
Theorem decode_autoDownload_rejected
        (blob : QByteArray) (p : Variables AutoDownload)
        (l : Locals) (st : QDataStream) :
  codec_atomic setFrom ->
  ba_isEmpty blob = false ->
  decode_fields tags p (mkStream (ba_bytes blob) Ok) = (l, st) ->
  status st = Ok ->
  ba_isEmpty (l_autoDownload l) = false ->
  fst (setFrom (l_autoDownload l) (autoDownload p)) = false ->
  constructFromSerialized setFrom tags blob p
  = mkDecoded AutoDownloadRejected p [].
Proof.
  intros Ha He Hd Hs Hn Hr. unfold constructFromSerialized.
  rewrite He, Hd, Hs, Hn. cbn [Status_eqb negb].
  specialize (Ha _ _ Hr).
  destruct (setFrom (l_autoDownload l) (autoDownload p)) as [ok a].
  cbn [fst snd] in *. subst ok a.
  now rewrite with_autoDownload_same.
Qed.

(** Whatever the delegated decoder does to its own object, a rejection
    leaves every other field as it was. *)
Lemma decode_autoDownload_rejected_frame
      (blob : QByteArray) (p : Variables AutoDownload) :
  outcome (constructFromSerialized setFrom tags blob p) = AutoDownloadRejected ->
  exists a, after (constructFromSerialized setFrom tags blob p)
            = with_autoDownload p a.
Proof.
  unfold constructFromSerialized.
  destruct (ba_isEmpty blob); [discriminate|].
  destruct (decode_fields tags p (mkStream (ba_bytes blob) Ok)) as [l st].
  destruct (negb (Status_eqb (status st) Ok)); [discriminate|].
  destruct (ba_isEmpty (l_autoDownload l)); [discriminate|].
  destruct (setFrom (l_autoDownload l) (autoDownload p)) as [[|] a];
    [discriminate|].
  intros _. now exists a.
Qed.

(** ** Enumerated fields and the dependent flag *)

Lemma ba_isEmpty_int (v : Z) (rest : list byte) :
  ba_isEmpty (Some (write_qint32 v ++ rest)) = false.
Proof. reflexivity. Qed.

(** The selector tab is the first thing read; nothing read after it depends
    on its value, so the locals of two blobs that differ in the selector tab
    only give the same record up to the selector tab. *)
Lemma decode_fields_selectorTab_frame (v v' : Z) (rest : list byte)
      (p : Variables AutoDownload) :
  is_int32 v -> is_int32 v' ->
  exists (l l' : Locals) (st : QDataStream),
    decode_fields tags p (mkStream (write_qint32 v ++ rest) Ok) = (l, st)
    /\ decode_fields tags p (mkStream (write_qint32 v' ++ rest) Ok) = (l', st)
    /\ l_selectorTab l = v
    /\ l_autoDownload l = l_autoDownload l'
    /\ forall (q : Variables AutoDownload) (tab : Z),
         with_selectorTab tab (commit tags l q)
         = with_selectorTab tab (commit tags l' q).
Proof.
  intros Hv Hv'. unfold decode_fields, bind.
  rewrite !read_qint32_write by assumption.
  repeat match goal with
         | |- context [match ?X with pair _ _ => _ end] => destruct X
         end.
  unfold ret. do 3 eexists. repeat split.
Qed.

Lemma with_selectorTab_same (v : Variables AutoDownload) :
  with_selectorTab (selectorTab v) v = v.
Proof. now destruct v. Qed.

Lemma serialize_selectorTab_first (r : Variables AutoDownload) :
  ba_bytes (serialize ser r)
  = write_qint32 (selectorTab r) ++ skipn 4 (ba_bytes (serialize ser r)).
Proof. reflexivity. Qed.

(** A blob with an integer outside {Emoji, Stickers, Gifs} for the selector
    tab, against the same blob with [v'] in its place: the same return, the
    same log, and the same record except that the selector tab is the one the
    receiving record had. *)
Lemma construct_selectorTab_ignored
      (v v' : Z) (rest : list byte) (p : Variables AutoDownload) :
  is_int32 v -> is_int32 v' ->
  ~ In v (legal_SelectorTab tags) ->
  let d := constructFromSerialized setFrom tags
             (Some (write_qint32 v ++ rest)) p in
  let d' := constructFromSerialized setFrom tags
              (Some (write_qint32 v' ++ rest)) p in
  outcome d = outcome d'
  /\ logged d = logged d'
  /\ after d = with_selectorTab (selectorTab p) (after d').
Proof.
  intros Hv Hv' Hn d d'. subst d d'. unfold constructFromSerialized.
  rewrite !ba_isEmpty_int. cbn [ba_bytes].
  destruct (decode_fields_selectorTab_frame v v' rest p Hv Hv')
    as (l & l' & st & -> & -> & Hl & Ha & Hc).
  rewrite <- Ha.
  assert (Hq : forall q : Variables AutoDownload,
             selectorTab q = selectorTab p ->
             commit tags l q
             = with_selectorTab (selectorTab p) (commit tags l' q)).
  { intros q Hq. rewrite <- Hc.
    rewrite <- (with_selectorTab_same (commit tags l q)) at 1.
    f_equal. cbn [commit selectorTab]. rewrite Hl, Hq.
    now apply checked_not_In. }
  destruct (negb (Status_eqb (status st) Ok)).
  - cbn [outcome logged after]. rewrite with_selectorTab_same.
    repeat split.
  - destruct (ba_isEmpty (l_autoDownload l)).
    + cbn [outcome logged after]. repeat split; now apply Hq.
    + destruct (setFrom (l_autoDownload l) (autoDownload p)) as [[|] a];
        cbn [outcome logged after].
      * repeat split; now apply Hq.
      * repeat split; try reflexivity; now destruct p.
Qed.

(** C4.  An integer outside {Emoji, Stickers, Gifs} in the place of the
    selector tab is no decode error.  The blob of any valid record with such
    an integer for the tab is applied without a diagnostic, every other field
    comes back as in a round trip, and the selector tab keeps the value the
    receiving record had.  For every blob whatsoever the integer changes
    neither the return nor the log, against the same blob with any other tab,
    and the record left differs from that blob's in the selector tab only,
    which is the one the receiving record had. *)
Theorem decode_selectorTab_out_of_range (v : Z) :
  is_int32 v ->
  ~ In v (legal_SelectorTab tags) ->
  (forall r p : Variables AutoDownload,
      valid ser tags r ->
      codec_roundtrip ser setFrom ->
      let d := constructFromSerialized setFrom tags
                 (Some (write_qint32 v
                        ++ skipn 4 (ba_bytes (serialize ser r)))) p in
      d = mkDecoded Applied
            (with_selectorTab (selectorTab p) (roundtrip_image ser r p)) []
      /\ outcome d = Applied
      /\ selectorTab (after d) = selectorTab p)
  /\ (forall (v' : Z) (rest : list byte) (p : Variables AutoDownload),
         is_int32 v' ->
         let d := constructFromSerialized setFrom tags
                    (Some (write_qint32 v ++ rest)) p in
         let d' := constructFromSerialized setFrom tags
                     (Some (write_qint32 v' ++ rest)) p in
         outcome d = outcome d'
         /\ logged d = logged d'
         /\ after d = with_selectorTab (selectorTab p) (after d')
         /\ selectorTab (after d) = selectorTab p).
Proof.
  intros Hv Hn. split.
  - intros r p Hr Hc d.
    destruct (construct_selectorTab_ignored v (selectorTab r)
                (skipn 4 (ba_bytes (serialize ser r))) p Hv
                ltac:(apply Hr) Hn) as (Ho & Hg & Hf).
    fold d in Ho, Hg, Hf. clearbody d.
    rewrite <- serialize_selectorTab_first in Ho, Hg, Hf.
    change (Some (ba_bytes (serialize ser r))) with (serialize ser r)
      in Ho, Hg, Hf.
    rewrite serialize_truncate_20, construct_truncated in Ho, Hg, Hf
      by (try assumption; lia).
    rewrite truncated_image_20 in Hf.
    destruct d as [o a g]. cbn [outcome logged after] in *. subst o a g.
    repeat split.
  - intros v' rest p Hv' d d'.
    destruct (construct_selectorTab_ignored v v' rest p Hv Hv' Hn)
      as (Ho & Hg & Hf).
    fold d d' in Ho, Hg, Hf.
    split; [exact Ho|]. split; [exact Hg|]. split; [exact Hf|].
    rewrite Hf. reflexivity.
Qed.

(** C5.  Whenever a blob is applied, a set info panel flag comes with a
    cleared tabbed selector flag; in particular the blob of a record that has
    both flags set is applied with the tabbed selector flag cleared. *)
Theorem decode_clears_tabbed_selector :
  (forall (blob : QByteArray) (p : Variables AutoDownload),
      let d := constructFromSerialized setFrom tags blob p in
      outcome d = Applied ->
      thirdSectionInfoEnabled (after d) = true ->
      tabbedSelectorSectionEnabled (after d) = false)
  /\ (forall r p : Variables AutoDownload,
         valid ser tags r ->
         codec_roundtrip ser setFrom ->
         thirdSectionInfoEnabled r = true ->
         tabbedSelectorSectionEnabled r = true ->
         let d := constructFromSerialized setFrom tags (serialize ser r) p in
         outcome d = Applied
         /\ thirdSectionInfoEnabled (after d) = true
         /\ tabbedSelectorSectionEnabled (after d) = false).
Proof.
  split.
  - intros blob p d. subst d. unfold constructFromSerialized.
    destruct (ba_isEmpty blob); [discriminate|].
    destruct (decode_fields tags p (mkStream (ba_bytes blob) Ok)) as [l st].
    destruct (negb (Status_eqb (status st) Ok)); [discriminate|].
    destruct (ba_isEmpty (l_autoDownload l)).
    + cbn [after commit thirdSectionInfoEnabled tabbedSelectorSectionEnabled].
      intros _ ->. reflexivity.
    + destruct (setFrom (l_autoDownload l) (autoDownload p)) as [[|] a];
        [|discriminate].
      cbn [after commit thirdSectionInfoEnabled tabbedSelectorSectionEnabled].
      intros _ ->. reflexivity.
  - intros r p Hv Hc H3 Ht d. subst d.
    rewrite serialize_truncate_20, construct_truncated by (auto; lia).
    cbn [outcome after]. rewrite truncated_image_20.
    cbn [roundtrip_image thirdSectionInfoEnabled tabbedSelectorSectionEnabled].
    rewrite H3. auto.
Qed.

End Codec.

(** ** The panel setters *)

Section Setters.

Context {AutoDownload : Type}.

(** The setters never nest more than two calls: the bound of [run_setter] is
    never hit, and a larger one changes nothing. *)
Lemma call_depth (c : Setter) (s : AuthSessionSettings AutoDownload) :
  exists s', call 2 c s = Some s'
             /\ forall n, (2 <= n)%nat -> call n c s = Some s'.
Proof.
  destruct c as [[|]|[|]]; cbn [call].
  - destruct (Bool.eqb _ false) eqn:E; eexists; (split; [reflexivity|]);
      intros [|[|n]] Hn; try lia; cbn [call]; rewrite E; reflexivity.
  - eexists; split; [reflexivity|].
    intros [|[|n]] Hn; try lia; reflexivity.
  - destruct (Bool.eqb _ true) eqn:E; eexists; (split; [reflexivity|]);
      intros [|[|n]] Hn; try lia; cbn [call]; rewrite E; reflexivity.
  - destruct (Bool.eqb _ false) eqn:E; eexists; (split; [reflexivity|]);
      intros [|[|n]] Hn; try lia; cbn [call]; rewrite E; reflexivity.
Qed.

Ltac setter_step :=
  unfold setTabbedReplacedWithInfo;
  cbn [Bool.eqb call _variables with_tabbedSelectorSectionEnabled
       with_thirdSectionInfoEnabled thirdSectionInfoEnabled
       tabbedSelectorSectionEnabled _tabbedReplacedWithInfo fired].

Ltac run_setter_cases s :=
  destruct s as [v replaced events];
  unfold setTabbedSelectorSectionEnabled, setThirdSectionInfoEnabled,
    run_setter, panels_exclusive;
  setter_step;
  destruct (thirdSectionInfoEnabled v) eqn:Ethird;
  destruct (tabbedSelectorSectionEnabled v) eqn:Etabbed;
  destruct replaced;
  setter_step; rewrite ?Ethird, ?Etabbed; setter_step.

Lemma setTabbed_true (s : AuthSessionSettings AutoDownload) :
  let s' := setTabbedSelectorSectionEnabled true s in
  tabbedSelectorSectionEnabled (_variables s') = true
  /\ thirdSectionInfoEnabled (_variables s') = false.
Proof. run_setter_cases s; auto. Qed.

Lemma setThird_true (s : AuthSessionSettings AutoDownload) :
  panels_exclusive (_variables s) ->
  let s' := setThirdSectionInfoEnabled true s in
  thirdSectionInfoEnabled (_variables s') = true
  /\ tabbedSelectorSectionEnabled (_variables s') = false.
Proof. run_setter_cases s; intuition congruence. Qed.

Lemma run_setter_exclusive (c : Setter) (s : AuthSessionSettings AutoDownload) :
  panels_exclusive (_variables s) ->
  panels_exclusive (_variables (run_setter c s)).
Proof.
  destruct c as [[|]|[|]]; run_setter_cases s; intuition congruence.
Qed.

Lemma run_setters_app (cs cs' : list Setter)
      (s : AuthSessionSettings AutoDownload) :
  run_setters (cs ++ cs') s = run_setters cs' (run_setters cs s).
Proof. apply fold_left_app. Qed.

Lemma run_setters_exclusive (cs : list Setter)
      (s : AuthSessionSettings AutoDownload) :
  panels_exclusive (_variables s) ->
  panels_exclusive (_variables (run_setters cs s)).
Proof.
  revert s. induction cs as [|c cs IH]; intros s H; [assumption|].
  cbn [run_setters fold_left]. apply IH. now apply run_setter_exclusive.
Qed.

(** C8.  From a state in which the two panel flags are not both set, no
    sequence of setter calls leaves both set; a sequence that ends with
    [setTabbedSelectorSectionEnabled(true)] leaves the info panel flag clear,
    and one that ends with [setThirdSectionInfoEnabled(true)] leaves the
    tabbed selector flag clear. *)
Theorem setters_keep_panels_exclusive
        (cs : list Setter) (s : AuthSessionSettings AutoDownload) :
  panels_exclusive (_variables s) ->
  panels_exclusive (_variables (run_setters cs s))
  /\ thirdSectionInfoEnabled
       (_variables
          (run_setters (cs ++ [SetTabbedSelectorSectionEnabled true]) s))
     = false
  /\ tabbedSelectorSectionEnabled
       (_variables
          (run_setters (cs ++ [SetThirdSectionInfoEnabled true]) s))
     = false.
Proof.
  intros H. pose proof (run_setters_exclusive cs s H) as Hcs.
  split; [assumption|]. rewrite !run_setters_app. cbn [run_setters fold_left].
  split.
  - apply (setTabbed_true (run_setters cs s)).
  - now apply (setThird_true (run_setters cs s)).
Qed.

End Setters.

(** ** The counted loops of the decoder *)

Lemma read_uint_range (width : Z) (st : QDataStream) :
  0 <= width ->
  0 <= fst (read_uint width st) < 256 ^ width.
Proof.
  intros Hw. unfold read_uint, bind, readRawData.
  destruct (Z.leb_spec width (Z.of_nat (length (unread st)))) as [L|L].
  - cbn [fst ret]. pose proof (be_decode_range
                               (firstn (Z.to_nat width) (unread st))) as B.
    rewrite length_firstn in B.
    replace (Z.of_nat (Nat.min (Z.to_nat width) (length (unread st))))
      with width in B by lia.
    exact B.
  - cbn. split; [lia|]. apply Z.pow_pos_nonneg; lia.
Qed.

Lemma read_qint32_range (st : QDataStream) : is_int32 (fst (read_qint32 st)).
Proof.
  unfold read_qint32, bind.
  pose proof (read_uint_range 4 st ltac:(lia)) as B.
  destruct (read_uint 4 st) as [u st']. cbn [fst ret] in *.
  apply to_signed32_range. exact B.
Qed.

(** C10.  Whatever count the stream delivers, negative or larger than what
    the stream holds, both loops stop: the loop as written reaches its exit
    in the state the decoder continues from, after [count mod 2^32] rounds. *)
Theorem decode_loops_terminate (st st' : QDataStream) (count : Z) :
  read_qint32 st = (count, st') ->
  for_exec count read_soundOverride 0 ([], st')
           (for_loop count read_soundOverride [] st')
  /\ for_exec count read_peerId 0 ([], st')
              (for_loop count read_peerId [] st')
  /\ (rounds 0 count < 2 ^ 32)%N.
Proof.
  intros H. pose proof (read_qint32_range st) as Hc. rewrite H in Hc.
  cbn [fst] in Hc.
  split; [|split].
  - apply for_exec_runs; [assumption | apply is_int32_0 | reflexivity].
  - apply for_exec_runs; [assumption | apply is_int32_0 | reflexivity].
  - unfold rounds.
    pose proof (Z.mod_pos_bound (count - 0) (2 ^ 32) ltac:(lia)). lia.
Qed.

(** ** binary64 *)

Lemma digits2_pos_spec (p : positive) :
  2 ^ (Zpos (digits2_pos p) - 1) <= Zpos p < 2 ^ Zpos (digits2_pos p).
Proof.
  induction p as [p IH|p IH|]; cbn [digits2_pos].
  - rewrite Pos2Z.inj_succ. change (Zpos p~1) with (2 * Zpos p + 1).
    replace (Z.succ (Zpos (digits2_pos p)) - 1)
      with (Z.succ (Zpos (digits2_pos p) - 1)) by lia.
    rewrite !Z.pow_succ_r by lia.
    set (a := 2 ^ (Zpos (digits2_pos p) - 1)) in *.
    set (b := 2 ^ Zpos (digits2_pos p)) in *. clearbody a b. lia.
  - rewrite Pos2Z.inj_succ. change (Zpos p~0) with (2 * Zpos p).
    replace (Z.succ (Zpos (digits2_pos p)) - 1)
      with (Z.succ (Zpos (digits2_pos p) - 1)) by lia.
    rewrite !Z.pow_succ_r by lia.
    set (a := 2 ^ (Zpos (digits2_pos p) - 1)) in *.
    set (b := 2 ^ Zpos (digits2_pos p)) in *. clearbody a b. lia.
  - simpl. lia.
Qed.

Lemma digits2_pos_unique (p : positive) (n : Z) :
  2 ^ (n - 1) <= Zpos p < 2 ^ n -> Zpos (digits2_pos p) = n.
Proof.
  intros [Hl Hu]. pose proof (digits2_pos_spec p) as [Dl Du].
  destruct (Z.lt_trichotomy (Zpos (digits2_pos p)) n) as [L|[E|G]];
    [exfalso | assumption | exfalso].
  - assert (0 <= n - 1) by lia.
    pose proof (Z.pow_le_mono_r 2 (Zpos (digits2_pos p)) (n - 1)
                  ltac:(lia) ltac:(lia)). lia.
  - destruct (Z.le_gt_cases 0 n) as [N|N].
    + pose proof (Z.pow_le_mono_r 2 n (Zpos (digits2_pos p) - 1)
                    ltac:(lia) ltac:(lia)). lia.
    + rewrite (Z.pow_neg_r 2 n) in Hu by lia. lia.
Qed.

Lemma shr_fexp_53 (m : positive) (e : Z) (l : location) :
  4503599627370496 <= Zpos m < 9007199254740992 ->
  - 1074 <= e ->
  shr_fexp 53 1024 (Zpos m) e l = (shr_record_of_loc (Zpos m) l, e).
Proof.
  intros Hm He. unfold shr_fexp, Zdigits2.
  rewrite (digits2_pos_unique m 53) by (simpl; lia).
  unfold fexp, emin.
  replace (Z.max (53 + e - 53) (3 - 1024 - 53) - e) with 0 by lia.
  reflexivity.
Qed.

Lemma shr_fexp_54 (m : positive) (e : Z) (l : location) :
  9007199254740992 <= Zpos m < 18014398509481984 ->
  - 1075 <= e ->
  shr_fexp 53 1024 (Zpos m) e l = (shr_1 (shr_record_of_loc (Zpos m) l), e + 1).
Proof.
  intros Hm He. unfold shr_fexp, Zdigits2.
  rewrite (digits2_pos_unique m 54) by (simpl; lia).
  unfold fexp, emin.
  replace (Z.max (54 + e - 53) (3 - 1024 - 53) - e) with 1 by lia.
  reflexivity.
Qed.

Lemma round_nearest_even_range (m : Z) (l : location) :
  m <= round_nearest_even m l <= m + 1.
Proof.
  unfold round_nearest_even. destruct l as [|[| |]]; try lia.
  destruct (Z.even m); lia.
Qed.

Lemma shr_1_half (m : positive) (r s : bool) :
  2 <= Zpos m ->
  shr_m (shr_1 (Build_shr_record (Zpos m) r s)) = Zpos m / 2.
Proof.
  intros H. destruct m as [p|p|]; cbn [shr_1 shr_m]; [| |lia].
  - change (Zpos p~1) with (2 * Zpos p + 1).
    apply Z.div_unique with 1; lia.
  - change (Zpos p~0) with (2 * Zpos p).
    apply Z.div_unique with 0; lia.
Qed.

(** The last step of a rounding: a mantissa that a carry may have pushed to
    [2^53] is brought back to 53 bits. *)
Lemma round_finish (s : bool) (t e : Z) :
  4503599627370496 <= t <= 9007199254740992 ->
  - 1074 <= e <= 960 ->
  exists (M : positive) (E : Z),
    (let '(mrs, e') := shr_fexp 53 1024 t e loc_Exact in
     match shr_m mrs with
     | Z0 => S754_zero s
     | Zpos m =>
         if e' <=? 1024 - 53 then S754_finite s m e' else S754_infinity s
     | Zneg _ => S754_nan
     end) = S754_finite s M E
    /\ 4503599627370496 <= Zpos M < 9007199254740992
    /\ e <= E <= e + 1
    /\ (t < 9007199254740992 -> Zpos M = t /\ E = e).
Proof.
  intros Ht He. destruct t as [|tp|tp]; try lia.
  destruct (Z.eq_dec (Zpos tp) 9007199254740992) as [Eq|Ne].
  - inversion Eq; subst tp.
    rewrite shr_fexp_54 by lia. cbn [shr_record_of_loc shr_1 shr_m].
    destruct (Z.leb_spec (e + 1) (1024 - 53)); [|lia].
    exists 4503599627370496%positive, (e + 1). repeat split; lia.
  - rewrite shr_fexp_53 by lia. cbn [shr_record_of_loc shr_m].
    destruct (Z.leb_spec e (1024 - 53)); [|lia].
    exists tp, e. repeat split; lia.
Qed.

Lemma binary_round_aux_finite (s : bool) (q e : Z) (l : location) :
  4503599627370496 <= q < 18014398509481984 ->
  - 1074 <= e <= 950 ->
  exists (M : positive) (E : Z),
    binary_round_aux 53 1024 s q e l = S754_finite s M E
    /\ 4503599627370496 <= Zpos M < 9007199254740992
    /\ (if q <? 9007199254740992 then e <= E else e + 1 <= E).
Proof.
  intros Hq He. destruct q as [|qp|qp]; try lia.
  unfold binary_round_aux.
  destruct (Z.ltb_spec (Zpos qp) 9007199254740992) as [L|L].
  - rewrite shr_fexp_53 by lia.
    pose proof (round_nearest_even_range
                  (shr_m (shr_record_of_loc (Zpos qp) l))
                  (loc_of_shr_record (shr_record_of_loc (Zpos qp) l))) as R.
    assert (Hm : shr_m (shr_record_of_loc (Zpos qp) l) = Zpos qp)
      by (destruct l as [|[| |]]; reflexivity).
    destruct (round_finish s
                (round_nearest_even
                   (shr_m (shr_record_of_loc (Zpos qp) l))
                   (loc_of_shr_record (shr_record_of_loc (Zpos qp) l)))
                e ltac:(lia) ltac:(lia))
      as (M & E & HE & HM & HEe & _).
    exists M, E. rewrite HE. repeat split; lia.
  - rewrite shr_fexp_54 by lia.
    set (mrs := shr_1 (shr_record_of_loc (Zpos qp) l)).
    assert (Hm : shr_m mrs = Zpos qp / 2).
    { unfold mrs. destruct l as [|[| |]]; apply shr_1_half; lia. }
    pose proof (round_nearest_even_range (shr_m mrs) (loc_of_shr_record mrs))
      as R.
    assert (4503599627370496 <= Zpos qp / 2 < 9007199254740992).
    { split.
      - apply Z.div_le_lower_bound; lia.
      - apply Z.div_lt_upper_bound; lia. }
    destruct (round_finish s (round_nearest_even (shr_m mrs)
                                (loc_of_shr_record mrs)) (e + 1)
                ltac:(lia) ltac:(lia))
      as (M & E & HE & HM & HEe & _).
    exists M, E. rewrite HE. repeat split; lia.
Qed.

Lemma binary_round_aux_exact (s : bool) (m : positive) (e : Z) :
  4503599627370496 <= Zpos m < 9007199254740992 ->
  - 1074 <= e <= 960 ->
  binary_round_aux 53 1024 s (Zpos m) e loc_Exact = S754_finite s m e.
Proof.
  intros Hm He. unfold binary_round_aux.
  rewrite shr_fexp_53 by lia.
  cbn [shr_record_of_loc shr_m loc_of_shr_record round_nearest_even].
  rewrite shr_fexp_53 by lia. cbn [shr_record_of_loc shr_m].
  destruct (Z.leb_spec e (1024 - 53)); [reflexivity | lia].
Qed.

Lemma f_million_eq : f_million = S754_finite false 8589934592000000 (-33).
Proof. reflexivity. Qed.

Lemma f_one_eq : f_one = S754_finite false 4503599627370496 (-52).
Proof. reflexivity. Qed.

(** A non-zero [int] converts exactly: its bits are moved to the top of the
    53-bit mantissa. *)
Lemma binary_round_int (s : bool) (m : positive) :
  Zpos m <= 2147483648 ->
  exists mx : positive,
    binary_round 53 1024 s m 0
    = S754_finite s mx (Zpos (digits2_pos m) - 53)
    /\ Zpos mx = Zpos m * 2 ^ (53 - Zpos (digits2_pos m))
    /\ 4503599627370496 <= Zpos mx < 9007199254740992
    /\ 1 <= Zpos (digits2_pos m) <= 32.
Proof.
  intros Hm. pose proof (digits2_pos_spec m) as [Dl Du].
  set (d := Zpos (digits2_pos m)) in *.
  assert (Hd : 1 <= d <= 32).
  { split; [subst d; lia|].
    destruct (Z.le_gt_cases d 32) as [L|G]; [assumption|exfalso].
    pose proof (Z.pow_le_mono_r 2 32 (d - 1) ltac:(lia) ltac:(lia)) as P.
    change (2 ^ 32) with 4294967296 in P. lia. }
  unfold binary_round, shl_align, fexp, emin.
  fold d.
  replace (Z.max (d + 0 - 53) (3 - 1024 - 53)) with (d - 53) by lia.
  destruct (d - 53 - 0) as [|k|k] eqn:Ek; try lia.
  assert (Hk : Zpos k = 53 - d) by lia.
  assert (Hmz : Zpos (Pos.iter xO m k) = Zpos m * 2 ^ (53 - d)).
  { change (Pos.iter xO m k) with (shift_pos k m).
    rewrite shift_pos_correct, <- Hk.
    change (Z.pow_pos 2 k) with (2 ^ Zpos k). lia. }
  assert (Hb : 4503599627370496 <= Zpos (Pos.iter xO m k) < 9007199254740992).
  { rewrite Hmz.
    assert (P1 : 2 ^ (d - 1) * 2 ^ (53 - d) = 4503599627370496).
    { rewrite <- Z.pow_add_r by lia.
      replace (d - 1 + (53 - d)) with 52 by lia. reflexivity. }
    assert (P2 : 2 ^ d * 2 ^ (53 - d) = 9007199254740992).
    { rewrite <- Z.pow_add_r by lia.
      replace (d + (53 - d)) with 53 by lia. reflexivity. }
    assert (P3 : 0 < 2 ^ (53 - d)) by (apply Z.pow_pos_nonneg; lia).
    set (a := 2 ^ (d - 1)) in *. set (b := 2 ^ d) in *.
    set (c := 2 ^ (53 - d)) in *. clearbody a b c. nia. }
  exists (Pos.iter xO m k).
  rewrite binary_round_aux_exact by lia.
  repeat split; lia.
Qed.

(** Dividing such a value by one million: the quotient is a normal number of
    the same sign, and it is at least one in magnitude as soon as the integer
    is at least one million. *)
Lemma f_div_million (s : bool) (mx : positive) (ex : Z) :
  4503599627370496 <= Zpos mx < 9007199254740992 ->
  - 52 <= ex <= - 21 ->
  exists (M : positive) (E : Z),
    f_div (S754_finite s mx ex) f_million = S754_finite s M E
    /\ 4503599627370496 <= Zpos M < 9007199254740992
    /\ (- 32 <= ex -> - 52 <= E)
    /\ (ex = - 33 -> 8589934592000000 <= Zpos mx -> - 52 <= E).
Proof.
  intros Hm He. rewrite f_million_eq. unfold f_div, SFdiv.
  rewrite Bool.xorb_false_r.
  unfold SFdiv_core_binary, Zdigits2.
  rewrite (digits2_pos_unique mx 53) by (simpl; lia).
  change (Zpos (digits2_pos 8589934592000000)) with 53.
  unfold fexp, emin.
  replace (Z.min (Z.max (53 + ex - (53 + -33) - 53) (3 - 1024 - 53))
                 (ex - -33)) with (ex - 20) by lia.
  replace (ex - -33 - (ex - 20)) with 53 by lia.
  rewrite Z.shiftl_mul_pow2 by lia.
  change (2 ^ 53) with 9007199254740992.
  pose proof (Z_div_mod (Zpos mx * 9007199254740992) 8589934592000000
                        ltac:(lia)) as D.
  destruct (Z.div_eucl (Zpos mx * 9007199254740992) 8589934592000000)
    as [q r].
  destruct D as [D1 D2].
  assert (Hq : 4503599627370496 <= q < 18014398509481984) by nia.
  destruct (binary_round_aux_finite s q (ex - 20)
              (new_location 8589934592000000 r) Hq ltac:(lia))
    as (M & E & HE & HM & HEe).
  exists M, E. rewrite HE. repeat split; try lia.
  - intros L. destruct (q <? 9007199254740992); lia.
  - intros -> Hge.
    destruct (Z.ltb_spec q 9007199254740992) as [Lq|Lq]; [exfalso; nia | lia].
Qed.

Lemma compare_cont_Eq (p q : positive) :
  Pos.compare_cont Eq p q = (p ?= q)%positive.
Proof. reflexivity. Qed.

(** [SFcompare] against the two bounds of the clamp. *)
Lemma snap_negative (M : positive) (E : Z) :
  snap f_ltb (S754_finite true M E) f_zero f_one = f_zero.
Proof. unfold snap, f_ltb, SFltb, f_zero. cbn [SFcompare]. reflexivity. Qed.

Lemma snap_at_least_one (M : positive) (E : Z) :
  4503599627370496 <= Zpos M ->
  - 52 <= E ->
  snap f_ltb (S754_finite false M E) f_zero f_one = f_one.
Proof.
  intros HM HE. rewrite f_one_eq. unfold snap, f_ltb, SFltb, f_zero.
  cbn [SFcompare].
  destruct (Z.compare_spec (- 52) E) as [He|He|He]; [| reflexivity | lia].
  subst E.
  rewrite compare_cont_Eq, (Pos2Z.inj_compare 4503599627370496 M).
  destruct (Z.compare_spec 4503599627370496 (Zpos M)) as [Hm|Hm|Hm].
  - inversion Hm. reflexivity.
  - reflexivity.
  - lia.
Qed.

Lemma f_leb_is_not_gt (M : positive) (E : Z) :
  f_ltb f_one (S754_finite false M E) = false ->
  f_leb (S754_finite false M E) f_one = true.
Proof.
  rewrite f_one_eq. unfold f_ltb, f_leb, SFltb, SFleb. cbn [SFcompare].
  rewrite (Z.compare_antisym E (- 52)).
  destruct (E ?= - 52); cbn [CompOpp].
  - rewrite (compare_cont_Eq 4503599627370496 M).
    rewrite (compare_cont_Eq M 4503599627370496).
    rewrite (Pos.compare_antisym M 4503599627370496).
    destruct (M ?= 4503599627370496)%positive; cbn [CompOpp]; intros H.
    + reflexivity.
    + reflexivity.
    + exact (eq_sym H).
  - intros _. reflexivity.
  - intros H. exact (eq_sym H).
Qed.

(** The quotient [value / 1000000.] for a non-zero [int]. *)
Lemma f_of_int_div_million (raw : Z) :
  is_int32 raw -> raw <> 0 ->
  exists (M : positive) (E : Z),
    f_div (f_of_int raw) f_million = S754_finite (raw <? 0) M E
    /\ 4503599627370496 <= Zpos M < 9007199254740992
    /\ (1000000 <= Z.abs raw -> - 52 <= E).
Proof.
  unfold is_int32. intros Hr Hn.
  assert (Hshape :
            exists (m : positive),
              Zpos m = Z.abs raw
              /\ f_of_int raw = binary_round 53 1024 (raw <? 0) m 0).
  { destruct raw as [|m|m]; [congruence | |]; exists m; split; reflexivity. }
  destruct Hshape as (m & Hm & ->).
  destruct (binary_round_int (raw <? 0) m ltac:(lia))
    as (mx & -> & Hmx & Hb & Hd).
  set (d := Zpos (digits2_pos m)) in *.
  destruct (f_div_million (raw <? 0) mx (d - 53) Hb ltac:(lia))
    as (M & E & HE & HM & H1 & H2).
  exists M, E. repeat split; try assumption; try lia.
  intros Hbig.
  pose proof (digits2_pos_spec m) as [_ Du]. fold d in Du.
  assert (Hd20 : 20 <= d).
  { destruct (Z.le_gt_cases 20 d) as [L|G]; [assumption|exfalso].
    pose proof (Z.pow_le_mono_r 2 d 19 ltac:(lia) ltac:(lia)) as P.
    change (2 ^ 19) with 524288 in P. lia. }
  destruct (Z.eq_dec d 20) as [E20|N20].
  - apply H2; [lia|]. rewrite Hmx, E20.
    change (2 ^ (53 - 20)) with 8589934592. lia.
  - apply H1. lia.
Qed.

Lemma ratioFromRaw_large (raw : Z) :
  is_int32 raw -> 1000000 <= raw -> ratioFromRaw raw = f_one.
Proof.
  intros Hr Hb.
  destruct (f_of_int_div_million raw Hr ltac:(lia)) as (M & E & HE & HM & HEb).
  unfold ratioFromRaw. rewrite HE.
  destruct (Z.ltb_spec raw 0); [lia|].
  apply snap_at_least_one; lia.
Qed.

Lemma ratioFromRaw_negative (raw : Z) :
  is_int32 raw -> raw < 0 -> ratioFromRaw raw = f_zero.
Proof.
  intros Hr Hb.
  destruct (f_of_int_div_million raw Hr ltac:(lia)) as (M & E & HE & _).
  unfold ratioFromRaw. rewrite HE.
  destruct (Z.ltb_spec raw 0); [|lia].
  apply snap_negative.
Qed.

Lemma ratioFromRaw_range (raw : Z) :
  is_int32 raw ->
  f_leb f_zero (ratioFromRaw raw) = true
  /\ f_leb (ratioFromRaw raw) f_one = true.
Proof.
  intros Hr.
  destruct (Z.lt_trichotomy raw 0) as [N|[Z0|P]].
  - rewrite ratioFromRaw_negative by assumption. split; reflexivity.
  - subst raw. split; reflexivity.
  - destruct (f_of_int_div_million raw Hr ltac:(lia))
      as (M & E & HE & _).
    unfold ratioFromRaw. rewrite HE.
    destruct (Z.ltb_spec raw 0); [lia|].
    unfold snap. change (f_ltb (S754_finite false M E) f_zero) with false.
    cbv iota.
    destruct (f_ltb f_one (S754_finite false M E)) eqn:C.
    + split; reflexivity.
    + split; [reflexivity | now apply f_leb_is_not_gt].
Qed.

(** ** The ratio in the decoder *)

Section Ratio.

Context {AutoDownload : Type}.
Variable ser : AutoDownload -> QByteArray.
Variable setFrom : QByteArray -> AutoDownload -> bool * AutoDownload.
Variable tags : EnumTags.

(** C7.  A blob whose ninth group carries the raw integer [raw] is applied
    with the ratio [snap(raw / 1000000., 0., 1.)]: a value between 0.0 and
    1.0, which is 1.0 for every raw integer from 1,000,000 up and 0.0 for
    every negative one. *)
Theorem decode_ratio_clamp (r p : Variables AutoDownload) (raw : Z) :
  well_typed ser r ->
  is_int32 raw ->
  let d := constructFromSerialized setFrom tags
             (blob_with_raw_ratio ser r raw) p in
  outcome d = Applied
  /\ dialogsWidthRatio (after d)
     = snap f_ltb (f_div (f_of_int raw) f_million) f_zero f_one
  /\ f_leb f_zero (dialogsWidthRatio (after d)) = true
  /\ f_leb (dialogsWidthRatio (after d)) f_one = true
  /\ (1000000 <= raw -> dialogsWidthRatio (after d) = f_one)
  /\ (raw < 0 -> dialogsWidthRatio (after d) = f_zero).
Proof.
  intros Hr Hraw d. subst d. unfold constructFromSerialized.
  destruct (decode_fields_raw_ratio ser tags r p raw Hr Hraw)
    as (l & Hd & Hl & Ha).
  change (ba_isEmpty (blob_with_raw_ratio ser r raw)) with false.
  cbv iota. rewrite Hd. cbn [status Status_eqb negb]. rewrite Ha.
  cbn [ba_isEmpty ba_bytes outcome after commit dialogsWidthRatio].
  rewrite Hl. fold (ratioFromRaw raw).
  pose proof (ratioFromRaw_range raw Hraw) as [R0 R1].
  repeat split; try assumption.
  - now apply ratioFromRaw_large.
  - now apply ratioFromRaw_negative.
Qed.

End Ratio.

(** ** The theorems on concrete records and blobs *)

Ltac prove_range :=
  first
    [ lia
    | unfold is_int32, is_uint64; cbn; lia
    | cbn; lia ].

Ltac prove_well_typed :=
  constructor;
  first
    [ prove_range
    | unfold qmap_sorted, flat_set_sorted; cbn;
      repeat (constructor; try reflexivity; try lia)
    | repeat (first [ apply Forall_nil
                    | apply Forall_cons
                    | split
                    | prove_range ]) ].

Ltac prove_valid :=
  constructor; [prove_well_typed | cbn; tauto ..].

Lemma demo_codec_roundtrip :
  codec_roundtrip demo_serialize demo_setFromSerialized.
Proof. intros [|] a0 _; reflexivity. Qed.

Lemma demo_codec_atomic : codec_atomic demo_setFromSerialized.
Proof.
  intros blob a H. unfold demo_setFromSerialized in *.
  repeat match goal with
         | H : context [match ?x with _ => _ end] |- _ =>
             destruct x; try discriminate H
         end;
    reflexivity.
Qed.

Lemma used_settings_valid : valid demo_serialize cpp_tags used_settings.
Proof. prove_valid. Qed.

Lemma fresh_settings_valid : valid demo_serialize cpp_tags fresh_settings.
Proof. prove_valid. Qed.

Lemma both_panels_settings_valid :
  valid demo_serialize cpp_tags both_panels_settings.
Proof. prove_valid. Qed.

Ltac prove_codec_roundtrip := intros [|] ? _; reflexivity.

(** C1 on [used_settings], decoded into a fresh record. *)
Lemma decode_serialize_roundtrip_witness :
  valid demo_serialize cpp_tags used_settings
  /\ codec_roundtrip demo_serialize demo_setFromSerialized
  /\ constructFromSerialized demo_setFromSerialized cpp_tags
       (serialize demo_serialize used_settings) fresh_settings
     = mkDecoded Applied
         (roundtrip_image demo_serialize used_settings fresh_settings) [].
Proof.
  split; [prove_valid|]. split; [prove_codec_roundtrip|].
  apply (decode_serialize_roundtrip demo_serialize demo_setFromSerialized
           cpp_tags used_settings fresh_settings);
    [prove_valid | prove_codec_roundtrip].
Defined.

(** The record C1 fails on as it is worded: the ratio 5/14 of a fresh record
    is stored as 357143 millionths and comes back as 0.357143. *)
Lemma roundtrip_changes_ratio :
  valid demo_serialize cpp_tags fresh_settings
  /\ outcome (constructFromSerialized demo_setFromSerialized cpp_tags
                (serialize demo_serialize fresh_settings) fresh_settings)
     = Applied
  /\ dialogsWidthRatio
       (after (constructFromSerialized demo_setFromSerialized cpp_tags
                 (serialize demo_serialize fresh_settings) fresh_settings))
     <> dialogsWidthRatio fresh_settings.
Proof.
  split; [prove_valid|]. split; [reflexivity|].
  vm_compute. discriminate.
Qed.

(** C2 on a blob cut inside the third field. *)
Lemma decode_bad_data_atomic_witness :
  ba_isEmpty cut_mid_field = false
  /\ status (snd (decode_fields cpp_tags fresh_settings
                    (mkStream (ba_bytes cut_mid_field) Ok))) <> Ok
  /\ constructFromSerialized demo_setFromSerialized cpp_tags
       cut_mid_field fresh_settings
     = mkDecoded BadData fresh_settings [bad_data_message].
Proof.
  split; [reflexivity|]. split; [vm_compute; discriminate|].
  apply (decode_bad_data_atomic demo_setFromSerialized cpp_tags
           cut_mid_field fresh_settings);
    [reflexivity | vm_compute; discriminate].
Defined.



(** C4 on the blob of [used_settings] with 7 for the selector tab, decoded
    into a fresh record: applied, and the tab is still the fresh record's. *)
Lemma decode_selectorTab_out_of_range_witness :
  is_int32 7
  /\ ~ In 7 (legal_SelectorTab cpp_tags)
  /\ valid demo_serialize cpp_tags used_settings
  /\ codec_roundtrip demo_serialize demo_setFromSerialized
  /\ constructFromSerialized demo_setFromSerialized cpp_tags
       (blob_with_selectorTab 7) fresh_settings
     = mkDecoded Applied
         (with_selectorTab (selectorTab fresh_settings)
            (roundtrip_image demo_serialize used_settings fresh_settings))
         [].
Proof.
  assert (H7 : is_int32 7) by prove_range.
  assert (Hn : ~ In 7 (legal_SelectorTab cpp_tags)) by (cbn; lia).
  split; [exact H7|]. split; [exact Hn|].
  split; [prove_valid|]. split; [prove_codec_roundtrip|].
  apply (proj1 (decode_selectorTab_out_of_range demo_serialize
                  demo_setFromSerialized cpp_tags 7 H7 Hn)
           used_settings fresh_settings);
    [prove_valid | prove_codec_roundtrip].
Defined.

(** The same by evaluation: that blob is applied. *)
Lemma blob_with_selectorTab_7_applied :
  outcome (constructFromSerialized demo_setFromSerialized cpp_tags
             (blob_with_selectorTab 7) fresh_settings) = Applied.
Proof. reflexivity. Qed.

(** C5 on a record that has both panel flags set. *)
Lemma decode_clears_tabbed_selector_witness :
  valid demo_serialize cpp_tags both_panels_settings
  /\ codec_roundtrip demo_serialize demo_setFromSerialized
  /\ thirdSectionInfoEnabled both_panels_settings = true
  /\ tabbedSelectorSectionEnabled both_panels_settings = true
  /\ outcome (constructFromSerialized demo_setFromSerialized cpp_tags
                (serialize demo_serialize both_panels_settings)
                fresh_settings) = Applied
  /\ thirdSectionInfoEnabled
       (after (constructFromSerialized demo_setFromSerialized cpp_tags
                 (serialize demo_serialize both_panels_settings)
                 fresh_settings)) = true
  /\ tabbedSelectorSectionEnabled
       (after (constructFromSerialized demo_setFromSerialized cpp_tags
                 (serialize demo_serialize both_panels_settings)
                 fresh_settings)) = false.
Proof.
  split; [prove_valid|]. split; [prove_codec_roundtrip|].
  split; [reflexivity|]. split; [reflexivity|].
  apply (proj2 (decode_clears_tabbed_selector demo_serialize
                  demo_setFromSerialized cpp_tags)
           both_panels_settings fresh_settings);
    [prove_valid | prove_codec_roundtrip | reflexivity | reflexivity].
Defined.

(** C6 on a blob whose sub-blob has a version the stand-in codec rejects. *)
Lemma decode_autoDownload_rejected_witness :
  codec_atomic demo_setFromSerialized
  /\ ba_isEmpty blob_with_bad_autoDownload = false
  /\ status (snd (decode_fields cpp_tags fresh_settings
                    (mkStream (ba_bytes blob_with_bad_autoDownload) Ok)))
     = Ok
  /\ l_autoDownload
       (fst (decode_fields cpp_tags fresh_settings
               (mkStream (ba_bytes blob_with_bad_autoDownload) Ok)))
     = Some [x02; x00]
  /\ constructFromSerialized demo_setFromSerialized cpp_tags
       blob_with_bad_autoDownload fresh_settings
     = mkDecoded AutoDownloadRejected fresh_settings [].
Proof.
  split; [exact demo_codec_atomic|]. split; [reflexivity|].
  split; [reflexivity|]. split; [reflexivity|].
  apply (decode_autoDownload_rejected demo_setFromSerialized cpp_tags
           blob_with_bad_autoDownload fresh_settings
           (fst (decode_fields cpp_tags fresh_settings
                   (mkStream (ba_bytes blob_with_bad_autoDownload) Ok)))
           (snd (decode_fields cpp_tags fresh_settings
                   (mkStream (ba_bytes blob_with_bad_autoDownload) Ok))));
    [ exact demo_codec_atomic
    | reflexivity
    | apply surjective_pairing
    | reflexivity
    | reflexivity
    | reflexivity ].
Defined.

(** With a delegated decoder that spoils its object before it fails, the
    rejection leaks into the record: the outer function has no copy to
    restore from. *)
Lemma sloppy_codec_changes_record :
  outcome (constructFromSerialized sloppy_setFromSerialized cpp_tags
             blob_with_bad_autoDownload fresh_settings)
  = AutoDownloadRejected
  /\ autoDownload
       (after (constructFromSerialized sloppy_setFromSerialized cpp_tags
                 blob_with_bad_autoDownload fresh_settings))
     <> autoDownload fresh_settings.
Proof. split; [reflexivity | vm_compute; discriminate]. Qed.

(** C7 on the raw integer 1,500,000. *)
Lemma decode_ratio_clamp_witness :
  well_typed demo_serialize used_settings
  /\ is_int32 1500000
  /\ outcome (constructFromSerialized demo_setFromSerialized cpp_tags
                (blob_with_raw_ratio demo_serialize used_settings 1500000)
                fresh_settings) = Applied
  /\ dialogsWidthRatio
       (after (constructFromSerialized demo_setFromSerialized cpp_tags
                 (blob_with_raw_ratio demo_serialize used_settings 1500000)
                 fresh_settings)) = f_one.
Proof.
  split; [prove_well_typed|]. split; [prove_range|].
  pose proof (decode_ratio_clamp demo_serialize demo_setFromSerialized
                cpp_tags used_settings fresh_settings 1500000
                ltac:(prove_well_typed) ltac:(prove_range)) as H.
  cbv zeta in H. destruct H as (H1 & _ & _ & _ & H2 & _).
  split; [exact H1 | apply H2; lia].
Defined.

Example ratioFromRaw_1500000 : ratioFromRaw 1500000 = f_one.
Proof. reflexivity. Qed.

Example ratioFromRaw_minus_1 : ratioFromRaw (-1) = f_zero.
Proof. reflexivity. Qed.

Example ratioFromRaw_half : ratioFromRaw 500000 = f_half.
Proof. reflexivity. Qed.

(** The encoder clamps as well: a ratio of 1.5 is stored as 1,000,000. *)
Example ratioToRaw_one_and_a_half :
  ratioToRaw (f_div (f_of_int 3) (f_of_int 2)) = 1000000.
Proof. reflexivity. Qed.

(** C8 from a fresh record. *)
Lemma setters_keep_panels_exclusive_witness :
  panels_exclusive (_variables (mkSettings fresh_settings false []))
  /\ panels_exclusive
       (_variables
          (run_setters [SetTabbedSelectorSectionEnabled true;
                        SetThirdSectionInfoEnabled true;
                        SetTabbedSelectorSectionEnabled true]
             (mkSettings fresh_settings false [])))
  /\ thirdSectionInfoEnabled
       (_variables
          (run_setters ([SetTabbedSelectorSectionEnabled true;
                         SetThirdSectionInfoEnabled true;
                         SetTabbedSelectorSectionEnabled true]
                        ++ [SetTabbedSelectorSectionEnabled true])
             (mkSettings fresh_settings false []))) = false
  /\ tabbedSelectorSectionEnabled
       (_variables
          (run_setters ([SetTabbedSelectorSectionEnabled true;
                         SetThirdSectionInfoEnabled true;
                         SetTabbedSelectorSectionEnabled true]
                        ++ [SetThirdSectionInfoEnabled true])
             (mkSettings fresh_settings false []))) = false.
Proof.
  split; [unfold panels_exclusive; cbn; intuition discriminate|].
  apply (setters_keep_panels_exclusive
           [SetTabbedSelectorSectionEnabled true;
            SetThirdSectionInfoEnabled true;
            SetTabbedSelectorSectionEnabled true]
           (mkSettings fresh_settings false [])).
  unfold panels_exclusive; cbn; intuition discriminate.
Defined.

(** The premise of C8 is needed: in a record that already has both flags
    set, [setThirdSectionInfoEnabled(true)] finds nothing to change. *)
Example setThird_true_on_both_panels :
  setThirdSectionInfoEnabled true (mkSettings both_panels_settings false [])
  = mkSettings both_panels_settings false [].
Proof. reflexivity. Qed.

(** C9 on the null byte array. *)
Lemma decode_empty_blob_witness :
  ba_isEmpty None = true
  /\ constructFromSerialized demo_setFromSerialized cpp_tags None
       used_settings
     = mkDecoded EmptyInput used_settings [].
Proof.
  split; [reflexivity|].
  apply (decode_empty_blob demo_setFromSerialized cpp_tags None used_settings).
  reflexivity.
Defined.

(** C10 on a stream that delivers the count -1. *)
Lemma decode_loops_terminate_witness :
  read_qint32 (mkStream [xff; xff; xff; xff] Ok) = (-1, mkStream [] Ok)
  /\ for_exec (-1) read_soundOverride 0 ([], mkStream [] Ok)
              (for_loop (-1) read_soundOverride [] (mkStream [] Ok))
  /\ for_exec (-1) read_peerId 0 ([], mkStream [] Ok)
              (for_loop (-1) read_peerId [] (mkStream [] Ok))
  /\ (rounds 0 (-1) < 2 ^ 32)%N.
Proof.
  split; [reflexivity|].
  apply (decode_loops_terminate (mkStream [xff; xff; xff; xff] Ok)
           (mkStream [] Ok) (-1)).
  reflexivity.
Defined.

(** A count larger than what the stream holds: the reads past the end fail,
    the loop still makes its five rounds and stops. *)
Example overlong_count_is_bad_data :
  constructFromSerialized demo_setFromSerialized cpp_tags
    (Some (write_qint32 0 ++ write_qint32 1 ++ write_qint32 1
           ++ write_qint32 5))
    fresh_settings
  = mkDecoded BadData fresh_settings [bad_data_message].
Proof. reflexivity. Qed.

(** ** More on the decoder *)

Section DecoderInvariants.

Context {AutoDownload : Type}.
Variable ser : AutoDownload -> QByteArray.
Variable setFrom : QByteArray -> AutoDownload -> bool * AutoDownload.
Variable tags : EnumTags.

Lemma checked_legal (legal : list Z) (x prior : Z) :
  In prior legal -> In (checked legal x prior) legal.
Proof.
  intros H. unfold checked.
  destruct (existsb (Z.eqb x) legal) eqn:E; [|assumption].
  apply existsb_exists in E. destruct E as [y [Hy E]].
  apply Z.eqb_eq in E. now subst y.
Qed.

Lemma construct_enums_legal
      (blob : QByteArray) (p : Variables AutoDownload) :
  enums_legal tags p ->
  enums_legal tags (after (constructFromSerialized setFrom tags blob p)).
Proof.
  intros (H1 & H2 & H3 & H4 & H5 & H6). unfold constructFromSerialized.
  destruct (ba_isEmpty blob); [repeat split; assumption|].
  destruct (decode_fields tags p (mkStream (ba_bytes blob) Ok)) as [l st].
  destruct (negb (Status_eqb (status st) Ok)); [repeat split; assumption|].
  destruct (ba_isEmpty (l_autoDownload l)).
  - unfold enums_legal.
    cbn [after commit selectorTab floatPlayerColumn floatPlayerCorner
         sendFilesWay sendSubmitWay supportSwitch].
    repeat split; now apply checked_legal.
  - destruct (setFrom (l_autoDownload l) (autoDownload p)) as [[|] a].
    + unfold enums_legal.
      cbn [after commit with_autoDownload selectorTab floatPlayerColumn
           floatPlayerCorner sendFilesWay sendSubmitWay supportSwitch].
      repeat split; now apply checked_legal.
    + unfold enums_legal.
      cbn [after with_autoDownload selectorTab floatPlayerColumn
           floatPlayerCorner sendFilesWay sendSubmitWay supportSwitch].
      repeat split; assumption.
Qed.

(** Whatever the blob, the decoder never leaves an enumerated field outside
    its legal set: an illegal value in the blob is dropped, on every path. *)
Theorem decode_keeps_enums_legal
        (blob : QByteArray) (p : Variables AutoDownload) :
  enums_legal tags p ->
  enums_legal tags (after (constructFromSerialized setFrom tags blob p)).
Proof. apply construct_enums_legal. Qed.

(** The decoder never leaves both panel flags set, whatever the blob and
    whatever comes of it. *)
Lemma construct_exclusive (blob : QByteArray) (p : Variables AutoDownload) :
  panels_exclusive p ->
  panels_exclusive (after (constructFromSerialized setFrom tags blob p)).
Proof.
  intros H. unfold constructFromSerialized.
  destruct (ba_isEmpty blob); [assumption|].
  destruct (decode_fields tags p (mkStream (ba_bytes blob) Ok)) as [l st].
  destruct (negb (Status_eqb (status st) Ok)); [assumption|].
  unfold panels_exclusive in *.
  destruct (ba_isEmpty (l_autoDownload l)).
  - cbn [after commit thirdSectionInfoEnabled tabbedSelectorSectionEnabled].
    intros [Ht Hi]. rewrite Hi in Ht. discriminate Ht.
  - destruct (setFrom (l_autoDownload l) (autoDownload p)) as [[|] a].
    + cbn [after commit thirdSectionInfoEnabled tabbedSelectorSectionEnabled].
      intros [Ht Hi]. rewrite Hi in Ht. discriminate Ht.
    + cbn [after with_autoDownload thirdSectionInfoEnabled
           tabbedSelectorSectionEnabled].
      exact H.
Qed.

End DecoderInvariants.

Section DecoderFormats.

Context {AutoDownload : Type}.
Variable ser : AutoDownload -> QByteArray.
Variable setFrom : QByteArray -> AutoDownload -> bool * AutoDownload.
Variable tags : EnumTags.

Ltac read_group :=
  first
    [ rewrite unlessAtEnd_end
    | rewrite unlessAtEnd_int
    | rewrite unlessAtEnd_bytes ];
  try first
    [ rewrite read_soundOverrides_write by eauto
    | rewrite read_groupStickersSectionHidden_write by eauto
    | rewrite read_widths_write by eauto with wire
    | rewrite read3_write by eauto with wire
    | rewrite read2_write by eauto with wire
    | rewrite read_QByteArray_write by eauto
    | rewrite read_qint32_write by eauto with wire ];
  cbv beta iota.

(** The reads of a complete blob stop after group 20 and leave whatever
    follows unread. *)
Lemma decode_fields_with_trailing (r p : Variables AutoDownload)
      (extra : list byte) :
  well_typed ser r ->
  decode_fields tags p
    (mkStream (ba_bytes (serialize ser r) ++ extra) Ok)
  = (prefix_locals ser tags 20 r p, mkStream extra Ok).
Proof.
  intros [].
  unfold serialize, ba_bytes.
  rewrite <- ?app_assoc.
  unfold decode_fields, bind.
  rewrite (read_qint32_write (selectorTab r)) by assumption.
  cbv beta iota.
  rewrite read_qint32_write by auto with wire.
  cbv beta iota.
  do 18 read_group.
  reflexivity.
Qed.

(** Forward compatibility: bytes appended after the twenty groups (the fields
    of a later format) are ignored; the blob is applied exactly as the blob
    without them. *)
Theorem decode_ignores_trailing_bytes
        (r p : Variables AutoDownload) (extra : list byte) :
  valid ser tags r ->
  codec_roundtrip ser setFrom ->
  constructFromSerialized setFrom tags
    (Some (ba_bytes (serialize ser r) ++ extra)) p
  = constructFromSerialized setFrom tags (serialize ser r) p.
Proof.
  intros Hv Hc.
  rewrite (serialize_truncate_20 ser r) at 2.
  rewrite (construct_truncated ser setFrom tags 20 r p Hv Hc) by lia.
  unfold constructFromSerialized.
  assert (He : ba_isEmpty (Some (ba_bytes (serialize ser r) ++ extra)) = false)
    by reflexivity.
  rewrite He. cbn [ba_bytes].
  change (match serialize ser r with Some l => l | None => [] end)
    with (ba_bytes (serialize ser r)).
  rewrite decode_fields_with_trailing by apply Hv.
  cbn [status Status_eqb negb].
  change (l_autoDownload (prefix_locals ser tags 20 r p))
    with (ser (autoDownload r)).
  destruct (ba_isEmpty (ser (autoDownload r))) eqn:E.
  - f_equal. apply commit_prefix; try assumption; try reflexivity; try lia.
    unfold pick, restored_autoDownload. now rewrite E.
  - rewrite (Hc _ _ E). f_equal.
    apply commit_prefix; try assumption; try reflexivity; try lia.
    unfold pick, restored_autoDownload. now rewrite E.
Qed.

Lemma decode_fields_legacy (r p : Variables AutoDownload) (legacy : Z) :
  well_typed ser r ->
  is_int32 legacy ->
  exists l : Locals,
    decode_fields tags p
      (mkStream (ba_bytes (blob_with_legacy ser r legacy)) Ok)
    = (l, mkStream [] Ok)
    /\ l_legacyCallsPeerToPeer l = legacy
    /\ l_autoDownload l = None.
Proof.
  intros [] Hl.
  unfold blob_with_legacy, serialize_groups, ba_bytes.
  cbn [firstn concat].
  rewrite <- (app_nil_r (write_qint32 legacy)).
  rewrite <- ?app_assoc. rewrite app_nil_l.
  unfold decode_fields, bind.
  rewrite (read_qint32_write (selectorTab r)) by assumption.
  cbv beta iota.
  rewrite read_qint32_write by auto with wire.
  cbv beta iota.
  do 18 read_group.
  eexists. split; [reflexivity|]. split; reflexivity.
Qed.

Lemma construct_legacy (r p : Variables AutoDownload) (legacy : Z) :
  well_typed ser r ->
  is_int32 legacy ->
  outcome (constructFromSerialized setFrom tags
             (blob_with_legacy ser r legacy) p) = Applied
  /\ hadLegacyCallsPeerToPeerNobody
       (after (constructFromSerialized setFrom tags
                 (blob_with_legacy ser r legacy) p))
     = (legacy =? 4).
Proof.
  intros Hr Hl. unfold constructFromSerialized.
  destruct (decode_fields_legacy r p legacy Hr Hl) as (l & Hd & Hg & Ha).
  change (ba_isEmpty (blob_with_legacy ser r legacy)) with false.
  cbv iota. rewrite Hd. cbn [status Status_eqb negb]. rewrite Ha.
  cbn [ba_isEmpty ba_bytes outcome after commit
       hadLegacyCallsPeerToPeerNobody].
  rewrite Hg. split; reflexivity.
Qed.

(** A blob of the format that ended with the calls peer-to-peer setting is
    applied, and raises the migration flag exactly when that setting is the
    old "nobody" value 4. *)
Theorem decode_legacy_sentinel
        (r p : Variables AutoDownload) (legacy : Z) :
  well_typed ser r ->
  is_int32 legacy ->
  let d := constructFromSerialized setFrom tags
             (blob_with_legacy ser r legacy) p in
  outcome d = Applied
  /\ hadLegacyCallsPeerToPeerNobody (after d) = (legacy =? 4).
Proof.
  intros Hr Hl d. subst d. now apply construct_legacy.
Qed.

(** The migration end to end: settings decoded from such a blob make
    [moveSettingsFrom] save the calls privacy rule and schedule a save exactly
    when the legacy value is 4, and settings decoded from a blob that
    [serialize] wrote never do. *)
Theorem moveSettingsFrom_migrates_legacy
        (moveFrom : AuthSessionSettings AutoDownload
                    -> AuthSessionSettings AutoDownload
                    -> AuthSessionSettings AutoDownload)
        (s : AuthSessionSettings AutoDownload)
        (r p : Variables AutoDownload) (legacy : Z) :
  (forall a b, _variables (moveFrom a b) = _variables b) ->
  valid ser tags r ->
  codec_roundtrip ser setFrom ->
  is_int32 legacy ->
  let restored blob :=
    mkSettings (after (constructFromSerialized setFrom tags blob p))
               false [] in
  snd (moveSettingsFrom moveFrom s (restored (blob_with_legacy ser r legacy)))
  = (if legacy =? 4
     then [SavePrivacyPhoneP2PDisallowAll; SaveSettingsDelayed]
     else [])
  /\ snd (moveSettingsFrom moveFrom s (restored (serialize ser r))) = [].
Proof.
  intros Hm Hv Hc Hl restored. subst restored. unfold moveSettingsFrom.
  rewrite !Hm. cbn [_variables].
  destruct (construct_legacy r p legacy ltac:(apply Hv) Hl) as [_ Hflag].
  rewrite Hflag.
  rewrite (serialize_truncate_20 ser r).
  rewrite (construct_truncated ser setFrom tags 20 r p Hv Hc) by lia.
  cbn [after truncated_image hadLegacyCallsPeerToPeerNobody].
  split; [destruct (legacy =? 4); reflexivity | reflexivity].
Qed.

End DecoderFormats.

(** ** Torn blobs *)

Lemma cut_of_app (c a b : list byte) :
  cut_of c (a ++ b) ->
  cut_of c a \/ exists c', c = a ++ c' /\ cut_of c' b.
Proof.
  intros (tail & Ht & E). apply app_eq_app in E.
  destruct E as (l & [[E1 E2] | [E1 E2]]).
  - right. exists l. split; [assumption|]. exists tail. auto.
  - destruct l as [|x l].
    + right. exists []. rewrite app_nil_r in E1. split.
      * now rewrite app_nil_r.
      * exists tail. split; [assumption|]. now rewrite E2.
    + left. exists (x :: l). split; [discriminate | now symmetry].
Qed.

Lemma cut_of_length (c bytes : list byte) :
  cut_of c bytes -> (length c < length bytes)%nat.
Proof.
  intros (tail & Ht & <-). rewrite length_app.
  destruct tail; [congruence | cbn; lia].
Qed.

Lemma cut_of_nil (c : list byte) : ~ cut_of c [].
Proof. intros H. apply cut_of_length in H. cbn in H. lia. Qed.

Lemma readRawData_short (len : Z) (st : QDataStream) :
  Z.of_nat (length (unread st)) < len ->
  readRawData len st = (None, mkStream [] (status st)).
Proof.
  intros H. unfold readRawData.
  destruct (Z.leb_spec len (Z.of_nat (length (unread st)))); [lia|].
  reflexivity.
Qed.

Lemma read_uint_short (width : Z) (st : QDataStream) :
  Z.of_nat (length (unread st)) < width ->
  stream_failed (snd (read_uint width st)).
Proof.
  intros H. unfold read_uint, bind. rewrite readRawData_short by assumption.
  unfold setStatus, ret, stream_failed. cbn [snd status unread].
  destruct (status st); cbn [unread status]; split;
    try reflexivity; congruence.
Qed.

Lemma read_uint_failed (width : Z) (st : QDataStream) :
  0 < width -> stream_failed st -> read_uint width st = (0, st).
Proof.
  intros Hw [Hu Hs]. destruct st as [u s]. cbn [unread status] in *. subst u.
  unfold read_uint, bind.
  rewrite readRawData_short by (cbn; lia).
  unfold setStatus, ret. cbn [status unread].
  destruct s; [congruence | reflexivity | reflexivity].
Qed.

Lemma read_qint32_short (st : QDataStream) :
  (length (unread st) < 4)%nat -> stream_failed (snd (read_qint32 st)).
Proof.
  intros H. unfold read_qint32, bind.
  pose proof (read_uint_short 4 st ltac:(lia)) as F.
  destruct (read_uint 4 st) as [u st']. exact F.
Qed.

Lemma read_qint32_failed (st : QDataStream) :
  stream_failed st -> read_qint32 st = (0, st).
Proof.
  intros F. unfold read_qint32, bind.
  rewrite read_uint_failed by (lia || assumption). reflexivity.
Qed.

Lemma read_quint64_short (st : QDataStream) :
  (length (unread st) < 8)%nat -> stream_failed (snd (read_quint64 st)).
Proof. intros H. apply read_uint_short. lia. Qed.

Lemma read_quint64_failed (st : QDataStream) :
  stream_failed st -> read_quint64 st = (0, st).
Proof. intros F. apply read_uint_failed; [lia | assumption]. Qed.

Lemma read_QString_failed (st : QDataStream) :
  stream_failed st -> read_QString st = (Some [], st).
Proof.
  intros F. unfold read_QString, bind, read_quint32.
  rewrite read_uint_failed by (lia || assumption). reflexivity.
Qed.

Lemma read_QByteArray_failed (st : QDataStream) :
  stream_failed st -> read_QByteArray st = (Some [], st).
Proof.
  intros F. unfold read_QByteArray, bind, read_quint32.
  rewrite read_uint_failed by (lia || assumption).
  destruct F as [Hu Hs]. destruct st as [u s]. cbn [unread status] in *.
  subst u. reflexivity.
Qed.

Lemma write_qint32_length (z : Z) : length (write_qint32 z) = 4%nat.
Proof. reflexivity. Qed.

Lemma write_quint64_length (z : Z) : length (write_quint64 z) = 8%nat.
Proof. reflexivity. Qed.

(** A reader given a cut of what was written for it fails. *)
Lemma read_qint32_cut (z : Z) (c : list byte) :
  cut_of c (write_qint32 z) ->
  stream_failed (snd (read_qint32 (mkStream c Ok))).
Proof.
  intros H. apply cut_of_length in H. rewrite write_qint32_length in H.
  now apply read_qint32_short.
Qed.

Lemma read_quint64_cut (z : Z) (c : list byte) :
  cut_of c (write_quint64 z) ->
  stream_failed (snd (read_quint64 (mkStream c Ok))).
Proof.
  intros H. apply cut_of_length in H. rewrite write_quint64_length in H.
  now apply read_quint64_short.
Qed.

Lemma read_QString_cut (q : QString) (c : list byte) :
  is_utf16 q ->
  cut_of c (write_QString q) ->
  stream_failed (snd (read_QString (mkStream c Ok))).
Proof.
  intros [Hu Hl] H. unfold read_QString, bind, read_quint32.
  destruct q as [l|]; cbn [write_QString qs_units] in *.
  - apply cut_of_app in H. destruct H as [H | (c' & -> & H)].
    + apply cut_of_length in H.
      pose proof (read_uint_short 4 (mkStream c Ok) ltac:(cbn; cbn in H; lia))
        as F.
      destruct (read_uint 4 (mkStream c Ok)) as [u st'] eqn:E.
      assert (u = 0).
      { unfold read_uint, bind in E.
        rewrite readRawData_short in E by (cbn; cbn in H; lia).
        unfold ret in E. cbn in E.
        now inversion E. }
      subst u. exact F.
    + fold (read_quint32 (mkStream (write_quint32 (2 * Z.of_nat (length l))
                                    ++ c') Ok)).
      rewrite read_quint32_write by lia.
      destruct (Z.eqb_spec (2 * Z.of_nat (length l)) 4294967295); [lia|].
      apply cut_of_length in H.
      pose proof (bytes_of_units_length l) as BL.
      destruct (Z.ltb_spec 0 (2 * Z.of_nat (length l))) as [P|P].
      * rewrite Z.odd_mul. cbn [Z.odd andb].
        rewrite readRawData_short by (cbn [unread]; lia).
        unfold setStatus, ret, stream_failed. cbn. split; congruence.
      * exfalso. lia.
  - apply cut_of_length in H.
    pose proof (read_uint_short 4 (mkStream c Ok) ltac:(cbn; cbn in H; lia))
      as F.
    destruct (read_uint 4 (mkStream c Ok)) as [u st'] eqn:E.
    assert (u = 0).
    { unfold read_uint, bind in E.
      rewrite readRawData_short in E by (cbn; cbn in H; lia).
      unfold ret in E. cbn in E.
      now inversion E. }
    subst u. exact F.
Qed.

Lemma read_uint_short_value (width : Z) (st : QDataStream) :
  Z.of_nat (length (unread st)) < width -> fst (read_uint width st) = 0.
Proof.
  intros H. unfold read_uint, bind. rewrite readRawData_short by assumption.
  reflexivity.
Qed.

Lemma read_QByteArray_cut (b : QByteArray) (c : list byte) :
  Z.of_nat (length (ba_bytes b)) < 2 ^ 31 ->
  cut_of c (write_QByteArray b) ->
  stream_failed (snd (read_QByteArray (mkStream c Ok))).
Proof.
  intros Hl H. unfold read_QByteArray, bind, read_quint32.
  assert (Hshort :
            (length c < 4)%nat ->
            stream_failed
              (snd (let (a, st') := read_uint 4 (mkStream c Ok) in
                    (if a =? 4294967295 then ret None
                     else fun st0 =>
                            let (a0, st'0) := readRawData a st0 in
                            match a0 with
                            | Some raw => ret (Some raw)
                            | None => fun st1 =>
                                        let (_, st'1) :=
                                          setStatus ReadPastEnd st1 in
                                        ret None st'1
                            end st'0) st'))).
  { intros Hc.
    pose proof (read_uint_short 4 (mkStream c Ok) ltac:(cbn; lia)) as F.
    pose proof (read_uint_short_value 4 (mkStream c Ok) ltac:(cbn; lia)) as V.
    destruct (read_uint 4 (mkStream c Ok)) as [u st']. cbn [fst snd] in *.
    subst u. cbn [Z.eqb]. destruct F as [Fu Fs].
    destruct st' as [u s]. cbn [unread status] in *. subst u.
    cbn. split; [reflexivity | assumption]. }
  destruct b as [l|]; cbn [write_QByteArray ba_bytes] in *.
  - apply cut_of_app in H. destruct H as [H | (c' & -> & H)].
    + apply cut_of_length in H. apply Hshort. cbn in H. lia.
    + fold (read_quint32 (mkStream (write_quint32 (Z.of_nat (length l))
                                    ++ c') Ok)).
      rewrite read_quint32_write by lia.
      destruct (Z.eqb_spec (Z.of_nat (length l)) 4294967295); [lia|].
      apply cut_of_length in H.
      rewrite readRawData_short by (cbn [unread]; lia).
      unfold setStatus, ret, stream_failed. cbn. split; congruence.
  - apply cut_of_length in H. apply Hshort. cbn in H. lia.
Qed.

(** Readers made of several reads; a read after a failed one changes
    nothing. *)
Lemma read2_cut (a b : Z) (c : list byte) :
  is_int32 a ->
  cut_of c (write_qint32 a ++ write_qint32 b) ->
  stream_failed (snd (read2 (mkStream c Ok))).
Proof.
  intros Ha H. unfold read2, bind.
  apply cut_of_app in H. destruct H as [H | (c' & -> & H)].
  - pose proof (read_qint32_cut a c H) as F.
    destruct (read_qint32 (mkStream c Ok)) as [x st']. cbn [snd] in F.
    rewrite (read_qint32_failed st' F). exact F.
  - rewrite read_qint32_write by assumption.
    pose proof (read_qint32_cut b c' H) as F.
    destruct (read_qint32 (mkStream c' Ok)) as [x st']. exact F.
Qed.

Lemma read3_cut (a b z : Z) (c : list byte) :
  is_int32 a -> is_int32 b ->
  cut_of c (write_qint32 a ++ write_qint32 b ++ write_qint32 z) ->
  stream_failed (snd (read3 (mkStream c Ok))).
Proof.
  intros Ha Hb H. unfold read3, bind.
  apply cut_of_app in H. destruct H as [H | (c' & -> & H)].
  - pose proof (read_qint32_cut a c H) as F.
    destruct (read_qint32 (mkStream c Ok)) as [x st']. cbn [snd] in F.
    rewrite !(read_qint32_failed st' F). exact F.
  - rewrite read_qint32_write by assumption.
    apply cut_of_app in H. destruct H as [H | (c'' & -> & H)].
    + pose proof (read_qint32_cut b c' H) as F.
      destruct (read_qint32 (mkStream c' Ok)) as [x st']. cbn [snd] in F.
      rewrite (read_qint32_failed st' F). exact F.
    + rewrite read_qint32_write by assumption.
      pose proof (read_qint32_cut z c'' H) as F.
      destruct (read_qint32 (mkStream c'' Ok)) as [x st']. exact F.
Qed.

Lemma read_widths_cut (a b z : Z) (c : list byte) :
  is_int32 a -> is_int32 b ->
  cut_of c (write_qint32 a ++ write_qint32 b ++ write_qint32 z) ->
  stream_failed (snd (read_widths (mkStream c Ok))).
Proof.
  intros Ha Hb H. unfold read_widths, bind.
  apply cut_of_app in H. destruct H as [H | (c' & -> & H)].
  - pose proof (read_qint32_cut a c H) as F.
    destruct (read_qint32 (mkStream c Ok)) as [x st']. cbn [snd] in F.
    rewrite !(read_qint32_failed st' F). exact F.
  - rewrite read_qint32_write by assumption.
    apply cut_of_app in H. destruct H as [H | (c'' & -> & H)].
    + pose proof (read_qint32_cut b c' H) as F.
      destruct (read_qint32 (mkStream c' Ok)) as [x st']. cbn [snd] in F.
      rewrite (read_qint32_failed st' F). exact F.
    + rewrite read_qint32_write by assumption.
      pose proof (read_qint32_cut z c'' H) as F.
      destruct (read_qint32 (mkStream c'' Ok)) as [x st']. exact F.
Qed.

(** The loops: once a round has failed, the remaining rounds leave the
    stream as it is. *)
Lemma read_soundOverride_failed (m : QMap) (st : QDataStream) :
  stream_failed st -> snd (read_soundOverride m st) = st.
Proof.
  intros F. unfold read_soundOverride, bind.
  rewrite !(read_QString_failed st F). reflexivity.
Qed.

Lemma read_peerId_failed (s : flat_set) (st : QDataStream) :
  stream_failed st -> snd (read_peerId s st) = st.
Proof.
  intros F. unfold read_peerId, bind.
  rewrite (read_quint64_failed st F). reflexivity.
Qed.

Lemma rounds_keep_failed {X} (body : X -> Rd X) (n : N) :
  (forall x st, stream_failed st -> snd (body x st) = st) ->
  forall p, stream_failed (snd p) ->
            snd (N.iter n (fun q => body (fst q) (snd q)) p) = snd p.
Proof.
  intros Hb. induction n as [|n IH] using N.peano_ind; intros p F.
  - reflexivity.
  - rewrite N.iter_succ_r. rewrite IH.
    + now apply Hb.
    + rewrite Hb; assumption.
Qed.

Lemma read_soundOverride_cut (k v : QString) (m : QMap) (c : list byte) :
  is_utf16 k -> is_utf16 v ->
  cut_of c (write_QString k ++ write_QString v) ->
  stream_failed (snd (read_soundOverride m (mkStream c Ok))).
Proof.
  intros Hk Hv H. unfold read_soundOverride, bind.
  apply cut_of_app in H. destruct H as [H | (c' & -> & H)].
  - pose proof (read_QString_cut k c Hk H) as F.
    destruct (read_QString (mkStream c Ok)) as [x st']. cbn [snd] in F.
    rewrite (read_QString_failed st' F). exact F.
  - rewrite read_QString_write by assumption.
    pose proof (read_QString_cut v c' Hv H) as F.
    destruct (read_QString (mkStream c' Ok)) as [x st']. exact F.
Qed.

Lemma read_soundOverrides_loop_cut (m acc : QMap) (c : list byte) :
  Forall (fun kv => is_utf16 (fst kv) /\ is_utf16 (snd kv)) m ->
  cut_of c (write_soundOverrides m) ->
  stream_failed
    (snd (N.iter (N.of_nat (length m))
                 (fun q => read_soundOverride (fst q) (snd q))
                 (acc, mkStream c Ok))).
Proof.
  revert acc c. induction m as [|[k v] t IH]; intros acc c Hu H.
  - now apply cut_of_nil in H.
  - apply Forall_cons_iff in Hu. destruct Hu as [[Hk Hv] Hu].
    cbn [fst snd] in Hk, Hv.
    cbn [length]. rewrite Nat2N.inj_succ, N.iter_succ_r. cbn [fst snd].
    unfold write_soundOverrides in H. cbn [flat_map fst snd] in H.
    apply cut_of_app in H. destruct H as [H | (c' & -> & H)].
    + pose proof (read_soundOverride_cut k v acc c Hk Hv H) as F.
      rewrite rounds_keep_failed.
      * exact F.
      * apply read_soundOverride_failed.
      * exact F.
    + unfold read_soundOverride at 2. unfold bind.
      rewrite <- app_assoc.
      rewrite read_QString_write by assumption.
      rewrite read_QString_write by assumption.
      unfold ret. now apply IH.
Qed.

Lemma read_peerIds_loop_cut (s acc : flat_set) (c : list byte) :
  Forall is_uint64 s ->
  cut_of c (write_peerIds s) ->
  stream_failed
    (snd (N.iter (N.of_nat (length s))
                 (fun q => read_peerId (fst q) (snd q))
                 (acc, mkStream c Ok))).
Proof.
  revert acc c. induction s as [|x t IH]; intros acc c Hu H.
  - now apply cut_of_nil in H.
  - apply Forall_cons_iff in Hu. destruct Hu as [Hx Hu].
    cbn [length]. rewrite Nat2N.inj_succ, N.iter_succ_r. cbn [fst snd].
    unfold write_peerIds in H. cbn [flat_map] in H.
    apply cut_of_app in H. destruct H as [H | (c' & -> & H)].
    + assert (F : stream_failed (snd (read_peerId acc (mkStream c Ok)))).
      { unfold read_peerId, bind.
        pose proof (read_quint64_cut x c H) as F.
        destruct (read_quint64 (mkStream c Ok)) as [y st']. exact F. }
      rewrite rounds_keep_failed.
      * exact F.
      * apply read_peerId_failed.
      * exact F.
    + unfold read_peerId at 2. unfold bind.
      rewrite read_quint64_write by assumption.
      unfold ret. now apply IH.
Qed.

Lemma read_soundOverrides_cut (m : QMap) (c : list byte) :
  Z.of_nat (length m) < 2 ^ 31 ->
  Forall (fun kv => is_utf16 (fst kv) /\ is_utf16 (snd kv)) m ->
  cut_of c (write_qint32 (Z.of_nat (length m)) ++ write_soundOverrides m) ->
  stream_failed (snd (read_soundOverrides (mkStream c Ok))).
Proof.
  intros Hl Hu H. unfold read_soundOverrides, bind.
  apply cut_of_app in H. destruct H as [H | (c' & -> & H)].
  - pose proof (read_qint32_cut _ c H) as F.
    destruct (read_qint32 (mkStream c Ok)) as [x st']. cbn [snd] in F.
    cbn [getStatus]. destruct F as [Fu Fs].
    destruct (status st') eqn:Es; [congruence | |];
      cbn [Status_eqb ret snd]; split; congruence.
  - rewrite read_qint32_write by (unfold is_int32; lia).
    cbn [getStatus status Status_eqb]. unfold for_loop.
    rewrite rounds_of_nat by lia.
    now apply read_soundOverrides_loop_cut.
Qed.

Lemma read_groupStickersSectionHidden_cut (s : flat_set) (c : list byte) :
  Z.of_nat (length s) < 2 ^ 31 ->
  Forall is_uint64 s ->
  cut_of c (write_qint32 (Z.of_nat (length s)) ++ write_peerIds s) ->
  stream_failed (snd (read_groupStickersSectionHidden (mkStream c Ok))).
Proof.
  intros Hl Hu H. unfold read_groupStickersSectionHidden, bind.
  apply cut_of_app in H. destruct H as [H | (c' & -> & H)].
  - pose proof (read_qint32_cut _ c H) as F.
    destruct (read_qint32 (mkStream c Ok)) as [x st']. cbn [snd] in F.
    cbn [getStatus]. destruct F as [Fu Fs].
    destruct (status st') eqn:Es; [congruence | |];
      cbn [Status_eqb ret snd]; split; congruence.
  - rewrite read_qint32_write by (unfold is_int32; lia).
    cbn [getStatus status Status_eqb]. unfold for_loop.
    rewrite rounds_of_nat by lia.
    now apply read_peerIds_loop_cut.
Qed.

Section TornBlobs.

Context {AutoDownload : Type}.
Variable ser : AutoDownload -> QByteArray.
Variable setFrom : QByteArray -> AutoDownload -> bool * AutoDownload.
Variable tags : EnumTags.

Ltac whole_group :=
  first
    [ rewrite unlessAtEnd_int
    | rewrite unlessAtEnd_bytes ];
  first
    [ rewrite read_soundOverrides_write by eauto
    | rewrite read_groupStickersSectionHidden_write by eauto
    | rewrite read_widths_write by eauto with wire
    | rewrite read3_write by eauto with wire
    | rewrite read2_write by eauto with wire
    | rewrite read_QByteArray_write by eauto
    | rewrite read_qint32_write by eauto with wire ];
  cbv beta iota.

Ltac reader_fails H :=
  first
    [ exact (read_qint32_cut _ _ H)
    | eapply read2_cut; cycle 1; [eexact H | eauto with wire]
    | eapply read3_cut; cycle 2; [eexact H | eauto with wire ..]
    | eapply read_widths_cut; cycle 2; [eexact H | eauto with wire ..]
    | eapply read_soundOverrides_cut; cycle 2; [eexact H | eauto ..]
    | eapply read_groupStickersSectionHidden_cut; cycle 2;
      [eexact H | eauto ..]
    | eapply read_QByteArray_cut; cycle 1; [eexact H | eauto] ].

Ltac torn_group c H Hc :=
  try rewrite (unlessAtEnd_more _ _ (mkStream c Ok))
    by (cbn [unread]; exact Hc);
  match goal with
  | |- context [match ?R (mkStream c Ok) with pair _ _ => _ end] =>
      let F := fresh "F" in
      assert (F : stream_failed (snd (R (mkStream c Ok))))
        by reader_fails H;
      let x := fresh "x" in
      let u := fresh "u" in
      let s := fresh "s" in
      let Fu := fresh "Fu" in
      let Fs := fresh "Fs" in
      destruct (R (mkStream c Ok)) as [x [u s]];
      destruct F as [Fu Fs];
      cbn [snd unread status] in Fu, Fs;
      subst u; cbv beta iota
  end.

Lemma torn_blob_fails_reads (r p : Variables AutoDownload)
      (k : nat) (c : list byte) :
  well_typed ser r ->
  (k < 20)%nat ->
  c <> [] ->
  cut_of c (nth k (serialize_groups ser r) []) ->
  status (snd (decode_fields tags p
                 (mkStream (concat (firstn k (serialize_groups ser r)) ++ c)
                           Ok)))
  <> Ok.
Proof.
  intros [] Hk Hc H.
  assert (Hcases :
            (k = 0 \/ k = 1 \/ k = 2 \/ k = 3 \/ k = 4 \/ k = 5 \/ k = 6
             \/ k = 7 \/ k = 8 \/ k = 9 \/ k = 10 \/ k = 11 \/ k = 12
             \/ k = 13 \/ k = 14 \/ k = 15 \/ k = 16 \/ k = 17 \/ k = 18
             \/ k = 19)%nat) by lia.
  unfold serialize_groups in *.
  unfold decode_fields, bind.
  repeat (destruct Hcases as [->|Hcases]); [..|subst k];
    cbn [firstn concat nth] in *;
    rewrite <- ?app_assoc; rewrite ?app_nil_l;
    repeat (rewrite read_qint32_write by auto with wire; cbv beta iota);
    repeat whole_group;
    torn_group c H Hc;
    try (rewrite (read_qint32_failed (mkStream [] s))
          by (split; [reflexivity | assumption]); cbv beta iota);
    repeat (rewrite unlessAtEnd_end; cbv beta iota);
    exact Fs.
Qed.

(** A torn blob: the blob of a record cut anywhere inside a field group (not
    at a group boundary) is rejected as bad data, with the diagnostic, and
    the receiving record stays as it was. *)
Theorem torn_blob_rejected (r p : Variables AutoDownload)
        (k : nat) (c : list byte) :
  well_typed ser r ->
  (k < 20)%nat ->
  c <> [] ->
  cut_of c (nth k (serialize_groups ser r) []) ->
  constructFromSerialized setFrom tags
    (Some (concat (firstn k (serialize_groups ser r)) ++ c)) p
  = mkDecoded BadData p [bad_data_message].
Proof.
  intros Hr Hk Hc H.
  pose proof (torn_blob_fails_reads r p k c Hr Hk Hc H) as F.
  unfold constructFromSerialized.
  assert (He : ba_isEmpty
                 (Some (concat (firstn k (serialize_groups ser r)) ++ c))
               = false).
  { unfold ba_isEmpty. cbn [ba_bytes].
    destruct (concat (firstn k (serialize_groups ser r)) ++ c) eqn:E;
      [|reflexivity].
    apply app_eq_nil in E. destruct E. contradiction. }
  rewrite He. cbn [ba_bytes].
  destruct (decode_fields tags p
              (mkStream (concat (firstn k (serialize_groups ser r)) ++ c) Ok))
    as [l st].
  cbn [snd] in F.
  destruct (status st); [congruence | reflexivity | reflexivity].
Qed.

End TornBlobs.

(** ** Lookup in the sound overrides *)

Lemma qs_compare_Eq (a b : QString) :
  qs_compare a b = Eq <-> qs_units a = qs_units b.
Proof. unfold qs_compare. apply list_compare_refl, Z.compare_eq_iff. Qed.

Lemma Z_compare_trans (x y z : Z) (c : comparison) :
  (x ?= y) = c -> (y ?= z) = c -> (x ?= z) = c.
Proof.
  destruct c; intros H1 H2.
  - apply Z.compare_eq_iff in H1, H2. subst. apply Z.compare_refl.
  - rewrite Z.compare_lt_iff in *. lia.
  - rewrite Z.compare_gt_iff in *. lia.
Qed.

Lemma qs_compare_trans (a b c : QString) (o : comparison) :
  qs_compare a b = o -> qs_compare b c = o -> qs_compare a c = o.
Proof.
  unfold qs_compare. apply list_compare_trans.
  - apply Z.compare_eq_iff.
  - apply Z_compare_trans.
  - intros x y. apply Z.compare_antisym.
Qed.

Lemma qs_compare_units (a a' b : QString) :
  qs_units a = qs_units a' -> qs_compare a b = qs_compare a' b.
Proof. unfold qs_compare. now intros ->. Qed.

Lemma qs_compare_units_r (a b b' : QString) :
  qs_units b = qs_units b' -> qs_compare a b = qs_compare a b'.
Proof. unfold qs_compare. now intros ->. Qed.

Lemma qmap_constFind_set_same (key k v : QString) (m : QMap) :
  qs_compare key k = Eq ->
  qmap_constFind key (qmap_set k v m) = Some v.
Proof.
  intros E. apply qs_compare_Eq in E.
  induction m as [|[k' v'] t IH]; cbn [qmap_set qmap_constFind].
  - rewrite (qs_compare_units key k k E).
    now rewrite (proj2 (qs_compare_Eq k k) eq_refl).
  - destruct (qs_compare k k') eqn:C; cbn [qmap_constFind].
    + rewrite (qs_compare_units key k k' E), C. reflexivity.
    + rewrite (qs_compare_units key k k E).
      now rewrite (proj2 (qs_compare_Eq k k) eq_refl).
    + rewrite (qs_compare_units key k k' E), C. exact IH.
Qed.

Lemma qmap_constFind_set_other (key k v : QString) (m : QMap) :
  qs_compare key k <> Eq ->
  qmap_constFind key (qmap_set k v m) = qmap_constFind key m.
Proof.
  intros N.
  induction m as [|[k' v'] t IH]; cbn [qmap_set qmap_constFind].
  - destruct (qs_compare key k); [congruence | reflexivity | reflexivity].
  - destruct (qs_compare k k') eqn:C; cbn [qmap_constFind].
    + apply qs_compare_Eq in C.
      rewrite <- (qs_compare_units_r key k k' C).
      destruct (qs_compare key k); [congruence | reflexivity | reflexivity].
    + destruct (qs_compare key k) eqn:D; [congruence | | reflexivity].
      now rewrite (qs_compare_trans key k k' Lt D C).
    + destruct (qs_compare key k'); [reflexivity | reflexivity | exact IH].
Qed.

Lemma last_override_app (key k v : QString) (l : list (QString * QString)) :
  last_override key (l ++ [(k, v)])
  = match qs_compare key k with
    | Eq => Some v
    | _ => last_override key l
    end.
Proof.
  induction l as [|[k' v'] t IH]; cbn [app last_override].
  - destruct (qs_compare key k); reflexivity.
  - rewrite IH.
    destruct (qs_compare key k); reflexivity.
Qed.

Lemma qmap_constFind_inserted (key : QString) (l : list (QString * QString)) :
  qmap_constFind key
    (fold_left (fun m kv => qmap_set (fst kv) (snd kv) m) l [])
  = last_override key l.
Proof.
  induction l as [|[k v] t IH] using rev_ind; [reflexivity|].
  rewrite fold_left_app, last_override_app. cbn [fold_left fst snd].
  destruct (qs_compare key k) eqn:C.
  - now apply qmap_constFind_set_same.
  - rewrite qmap_constFind_set_other by congruence. exact IH.
  - rewrite qmap_constFind_set_other by congruence. exact IH.
Qed.

Lemma read_soundOverrides_loop_any (l : list (QString * QString))
      (acc : QMap) (rest : list byte) :
  Forall (fun kv => is_utf16 (fst kv) /\ is_utf16 (snd kv)) l ->
  N.iter (N.of_nat (length l))
         (fun q => read_soundOverride (fst q) (snd q))
         (acc, mkStream (write_soundOverrides l ++ rest) Ok)
  = (fold_left (fun m kv => qmap_set (fst kv) (snd kv) m) l acc,
     mkStream rest Ok).
Proof.
  revert acc. induction l as [|[k v] t IH]; intros acc Hu; [reflexivity|].
  apply Forall_cons_iff in Hu. destruct Hu as [[Hk Hv] Hu].
  cbn [length fst snd fold_left] in *.
  rewrite Nat2N.inj_succ, N.iter_succ_r. cbn [fst snd].
  unfold write_soundOverrides. cbn [flat_map fst snd].
  unfold read_soundOverride at 2. unfold bind.
  rewrite <- !app_assoc.
  rewrite read_QString_write by assumption.
  rewrite read_QString_write by assumption.
  unfold ret. now apply IH.
Qed.

Lemma read_soundOverrides_any (l : list (QString * QString))
      (rest : list byte) :
  Z.of_nat (length l) < 2 ^ 31 ->
  Forall (fun kv => is_utf16 (fst kv) /\ is_utf16 (snd kv)) l ->
  read_soundOverrides
    (mkStream (write_qint32 (Z.of_nat (length l))
               ++ write_soundOverrides l ++ rest) Ok)
  = (fold_left (fun m kv => qmap_set (fst kv) (snd kv) m) l [],
     mkStream rest Ok).
Proof.
  intros Hl Hu. unfold read_soundOverrides, bind.
  rewrite read_qint32_write by (unfold is_int32; lia).
  cbn [getStatus status Status_eqb]. unfold for_loop.
  rewrite rounds_of_nat by lia.
  now apply read_soundOverrides_loop_any.
Qed.

Section SoundPaths.

Context {AutoDownload : Type}.
Variable ser : AutoDownload -> QByteArray.
Variable setFrom : QByteArray -> AutoDownload -> bool * AutoDownload.
Variable tags : EnumTags.

(** [getSoundPath] by itself: the override of an equal key when the map has
    one, the bundled [":/sounds/<key>.mp3"] when it has none. *)
Theorem getSoundPath_lookup (key : QString) (v : Variables AutoDownload) :
  qmap_sorted (soundOverrides v) ->
  (forall k value,
      In (k, value) (soundOverrides v) ->
      qs_compare key k = Eq ->
      getSoundPath key v = value)
  /\ ((forall k value,
          In (k, value) (soundOverrides v) -> qs_compare key k <> Eq) ->
      getSoundPath key v
      = Some ([58; 47; 115; 111; 117; 110; 100; 115; 47]
              ++ qs_units key ++ [46; 109; 112; 51])).
Proof.
  unfold getSoundPath, qmap_sorted.
  induction (soundOverrides v) as [|[k1 v1] t IH]; intros Hs.
  - split; [intros k value []|]. intros _. cbn [qmap_constFind].
    unfold qs_append, sounds_prefix, mp3_suffix. cbn [qs_units].
    destruct key; cbn [qs_units]; now rewrite <- app_assoc.
  - cbn [map fst] in Hs. apply StronglySorted_inv in Hs.
    destruct Hs as [Hs Hf]. destruct (IH Hs) as [IH1 IH2].
    split.
    + intros k value [E|Hin] C; cbn [qmap_constFind].
      * inversion E; subst. now rewrite C.
      * assert (L : qs_compare k1 k = Lt).
        { rewrite Forall_forall in Hf. apply Hf.
          change k with (fst (k, value)). now apply in_map. }
        apply qs_compare_Eq in C.
        rewrite (qs_compare_units key k k1 C), qs_compare_antisym, L.
        cbn [CompOpp]. apply (IH1 k value Hin).
        now apply qs_compare_Eq.
    + intros Hnone. cbn [qmap_constFind].
      destruct (qs_compare key k1) eqn:C.
      * exfalso. apply (Hnone k1 v1); [now left | assumption].
      * unfold qs_append, sounds_prefix, mp3_suffix. cbn [qs_units].
        destruct key; cbn [qs_units]; now rewrite <- app_assoc.
      * apply IH2. intros k value Hin. apply (Hnone k value). now right.
Qed.

End SoundPaths.

(** ** The hidden sticker sections as a set *)

Lemma flat_set_insert_In (x y : Z) (s : flat_set) :
  In x (flat_set_insert y s) <-> x = y \/ In x s.
Proof.
  induction s as [|z t IH]; cbn [flat_set_insert].
  - cbn. intuition.
  - destruct (Z.compare_spec y z) as [E|L|G]; cbn [In].
    + subst. intuition.
    + intuition.
    + rewrite IH. intuition.
Qed.

Lemma flat_set_insert_sorted (y : Z) (s : flat_set) :
  flat_set_sorted s -> flat_set_sorted (flat_set_insert y s).
Proof.
  unfold flat_set_sorted.
  induction s as [|z t IH]; intros Hs; cbn [flat_set_insert].
  - repeat constructor.
  - apply StronglySorted_inv in Hs. destruct Hs as [Hs Hf].
    destruct (Z.compare_spec y z) as [E|L|G].
    + now constructor.
    + constructor; [now constructor|].
      constructor; [assumption|].
      apply Forall_impl with (P := fun b => z < b); [intros; lia | assumption].
    + constructor; [now apply IH|].
      apply Forall_forall. intros x Hx. apply flat_set_insert_In in Hx.
      destruct Hx as [->|Hx]; [lia|].
      rewrite Forall_forall in Hf. now apply Hf.
Qed.

Lemma flat_set_inserted (l : list Z) (acc : flat_set) :
  flat_set_sorted acc ->
  flat_set_sorted (fold_left (fun s x => flat_set_insert x s) l acc)
  /\ forall x, In x (fold_left (fun s x => flat_set_insert x s) l acc)
               <-> In x l \/ In x acc.
Proof.
  revert acc. induction l as [|y t IH]; intros acc Hs; cbn [fold_left].
  - split; [assumption|]. cbn. intuition.
  - destruct (IH (flat_set_insert y acc) (flat_set_insert_sorted y acc Hs))
      as [S I].
    split; [assumption|]. intros x. rewrite I, flat_set_insert_In. cbn [In].
    intuition.
Qed.

Lemma read_peerIds_loop_any (l : list Z) (acc : flat_set) (rest : list byte) :
  Forall is_uint64 l ->
  N.iter (N.of_nat (length l))
         (fun q => read_peerId (fst q) (snd q))
         (acc, mkStream (write_peerIds l ++ rest) Ok)
  = (fold_left (fun s x => flat_set_insert x s) l acc, mkStream rest Ok).
Proof.
  revert acc. induction l as [|x t IH]; intros acc Hu; [reflexivity|].
  apply Forall_cons_iff in Hu. destruct Hu as [Hx Hu].
  cbn [length fold_left].
  rewrite Nat2N.inj_succ, N.iter_succ_r. cbn [fst snd].
  unfold write_peerIds. cbn [flat_map].
  unfold read_peerId at 2. unfold bind.
  rewrite <- !app_assoc.
  rewrite read_quint64_write by assumption.
  unfold ret. now apply IH.
Qed.

Lemma read_groupStickersSectionHidden_any (l : list Z) (rest : list byte) :
  Z.of_nat (length l) < 2 ^ 31 ->
  Forall is_uint64 l ->
  read_groupStickersSectionHidden
    (mkStream (write_qint32 (Z.of_nat (length l))
               ++ write_peerIds l ++ rest) Ok)
  = (fold_left (fun s x => flat_set_insert x s) l [], mkStream rest Ok).
Proof.
  intros Hl Hu. unfold read_groupStickersSectionHidden, bind.
  rewrite read_qint32_write by (unfold is_int32; lia).
  cbn [getStatus status Status_eqb]. unfold for_loop.
  rewrite rounds_of_nat by lia.
  now apply read_peerIds_loop_any.
Qed.

Section Collections.

Context {AutoDownload : Type}.
Variable ser : AutoDownload -> QByteArray.
Variable setFrom : QByteArray -> AutoDownload -> bool * AutoDownload.
Variable tags : EnumTags.

Ltac collection_group :=
  first
    [ rewrite unlessAtEnd_end
    | rewrite unlessAtEnd_int
    | rewrite unlessAtEnd_bytes ];
  try first
    [ rewrite read_soundOverrides_any by eauto
    | rewrite read_groupStickersSectionHidden_any by eauto
    | rewrite read_soundOverrides_write by eauto
    | rewrite read_widths_write by eauto with wire
    | rewrite read3_write by eauto with wire
    | rewrite read2_write by eauto with wire
    | rewrite read_QByteArray_write by eauto
    | rewrite read_qint32_write by eauto with wire ];
  cbv beta iota.

Lemma decode_fields_overrides (r p : Variables AutoDownload)
      (l : list (QString * QString)) :
  well_typed ser r ->
  Z.of_nat (length l) < 2 ^ 31 ->
  Forall (fun kv => is_utf16 (fst kv) /\ is_utf16 (snd kv)) l ->
  exists x : Locals,
    decode_fields tags p
      (mkStream (ba_bytes (blob_with_overrides ser r l)) Ok)
    = (x, mkStream [] Ok)
    /\ l_soundOverrides x
       = fold_left (fun m kv => qmap_set (fst kv) (snd kv) m) l []
    /\ l_autoDownload x = None.
Proof.
  intros [] Hl Hu.
  unfold blob_with_overrides, serialize_groups, ba_bytes.
  cbn [firstn concat].
  rewrite <- (app_nil_r (write_soundOverrides l)).
  rewrite <- ?app_assoc. rewrite app_nil_l.
  unfold decode_fields, bind.
  rewrite (read_qint32_write (selectorTab r)) by assumption.
  cbv beta iota.
  rewrite read_qint32_write by auto with wire.
  cbv beta iota.
  do 18 collection_group.
  eexists. split; [reflexivity|]. split; reflexivity.
Qed.

(** Sound overrides in a blob are inserted in the order they come: with two
    pairs of an equal key the later one wins, and [getSoundPath] answers with
    it; a key the blob does not list gets the bundled sound. *)
Theorem decode_overrides_last_wins
        (r p : Variables AutoDownload) (l : list (QString * QString)) :
  well_typed ser r ->
  Z.of_nat (length l) < 2 ^ 31 ->
  Forall (fun kv => is_utf16 (fst kv) /\ is_utf16 (snd kv)) l ->
  let d := constructFromSerialized setFrom tags
             (blob_with_overrides ser r l) p in
  outcome d = Applied
  /\ forall key,
       getSoundPath key (after d)
       = match last_override key l with
         | Some value => value
         | None => qs_append (qs_append sounds_prefix key) mp3_suffix
         end.
Proof.
  intros Hr Hl Hu d. subst d. unfold constructFromSerialized.
  destruct (decode_fields_overrides r p l Hr Hl Hu) as (x & Hd & Hs & Ha).
  change (ba_isEmpty (blob_with_overrides ser r l)) with false.
  cbv iota. rewrite Hd. cbn [status Status_eqb negb]. rewrite Ha.
  cbn [ba_isEmpty ba_bytes outcome after].
  split; [reflexivity|]. intros key. unfold getSoundPath.
  cbn [commit soundOverrides]. rewrite Hs.
  now rewrite qmap_constFind_inserted.
Qed.

Lemma decode_fields_hidden (r p : Variables AutoDownload) (ids : list Z) :
  well_typed ser r ->
  Z.of_nat (length ids) < 2 ^ 31 ->
  Forall is_uint64 ids ->
  exists x : Locals,
    decode_fields tags p
      (mkStream (ba_bytes (blob_with_hidden ser r ids)) Ok)
    = (x, mkStream [] Ok)
    /\ l_groupStickersSectionHidden x
       = fold_left (fun s y => flat_set_insert y s) ids []
    /\ l_autoDownload x = None.
Proof.
  intros [] Hl Hu.
  unfold blob_with_hidden, serialize_groups, ba_bytes.
  cbn [firstn concat].
  rewrite <- (app_nil_r (write_peerIds ids)).
  rewrite <- ?app_assoc. rewrite app_nil_l.
  unfold decode_fields, bind.
  rewrite (read_qint32_write (selectorTab r)) by assumption.
  cbv beta iota.
  rewrite read_qint32_write by auto with wire.
  cbv beta iota.
  do 18 collection_group.
  eexists. split; [reflexivity|]. split; reflexivity.
Qed.

(** The hidden sticker sections in a blob end up as a set: whatever order
    the ids come in and however often, the record holds exactly those ids,
    each once, in ascending order. *)
Theorem decode_hidden_sections_set
        (r p : Variables AutoDownload) (ids : list Z) :
  well_typed ser r ->
  Z.of_nat (length ids) < 2 ^ 31 ->
  Forall is_uint64 ids ->
  let d := constructFromSerialized setFrom tags
             (blob_with_hidden ser r ids) p in
  outcome d = Applied
  /\ flat_set_sorted (groupStickersSectionHidden (after d))
  /\ forall x, In x (groupStickersSectionHidden (after d)) <-> In x ids.
Proof.
  intros Hr Hl Hu d. subst d. unfold constructFromSerialized.
  destruct (decode_fields_hidden r p ids Hr Hl Hu) as (x & Hd & Hs & Ha).
  change (ba_isEmpty (blob_with_hidden ser r ids)) with false.
  cbv iota. rewrite Hd. cbn [status Status_eqb negb]. rewrite Ha.
  cbn [ba_isEmpty ba_bytes outcome after commit groupStickersSectionHidden].
  rewrite Hs.
  destruct (flat_set_inserted ids [] ltac:(constructor)) as [S I].
  split; [reflexivity|]. split; [assumption|].
  intros y. rewrite I. cbn [In]. intuition.
Qed.

End Collections.

(** ** More on the panel setters *)

Section SetterEffects.

Context {AutoDownload : Type}.

Ltac setter_unfold :=
  unfold setTabbedSelectorSectionEnabled, setThirdSectionInfoEnabled,
    run_setter, setTabbedReplacedWithInfo;
  cbn [Bool.eqb negb andb call _variables with_tabbedSelectorSectionEnabled
       with_thirdSectionInfoEnabled thirdSectionInfoEnabled
       tabbedSelectorSectionEnabled _tabbedReplacedWithInfo fired].

Ltac setter_cases c s :=
  destruct s as [v replaced events];
  destruct v as [? ? tabbed ? ? ? ? ? third ? ? ? ? ? ? ? ? ? ? ? ? ? ? ? ? ? ?];
  destruct c as [[|]|[|]]; destruct tabbed, third, replaced;
  setter_unfold.

(** A setter call changes the two panel flags and nothing else of the
    settings, and it leaves the flag it sets at the value it was given. *)
Theorem setters_touch_only_panels
        (c : Setter) (s : AuthSessionSettings AutoDownload) :
  let s' := run_setter c s in
  _variables s'
  = with_tabbedSelectorSectionEnabled
      (tabbedSelectorSectionEnabled (_variables s'))
      (with_thirdSectionInfoEnabled
         (thirdSectionInfoEnabled (_variables s')) (_variables s))
  /\ match c with
     | SetTabbedSelectorSectionEnabled enabled =>
         tabbedSelectorSectionEnabled (_variables s') = enabled
         /\ _tabbedReplacedWithInfo s' = false
     | SetThirdSectionInfoEnabled enabled =>
         thirdSectionInfoEnabled (_variables s') = enabled
     end.
Proof.
  setter_cases c s; cbn; repeat split; reflexivity.
Qed.

(** What a setter call fires, in full: the call only appends to what was
    fired before; it fires [TabbedReplacedWithInfoValue(false)] once when
    that flag was set, unless the call is
    [setThirdSectionInfoEnabled] with the value the flag already has, which
    does nothing at all; and it fires [ThirdSectionInfoEnabledValue] with the
    new value exactly when the info panel flag changes. *)
Theorem setters_fire_on_change
        (c : Setter) (s : AuthSessionSettings AutoDownload) :
  let s' := run_setter c s in
  let same :=
    match c with
    | SetThirdSectionInfoEnabled enabled =>
        Bool.eqb (thirdSectionInfoEnabled (_variables s)) enabled
    | SetTabbedSelectorSectionEnabled _ => false
    end in
  (same = true -> s' = s)
  /\ fired s'
     = fired s
       ++ (if _tabbedReplacedWithInfo s && negb same
           then [TabbedReplacedWithInfoValue false] else [])
       ++ (if Bool.eqb (thirdSectionInfoEnabled (_variables s))
                       (thirdSectionInfoEnabled (_variables s'))
           then []
           else [ThirdSectionInfoEnabledValue
                   (thirdSectionInfoEnabled (_variables s'))]).
Proof.
  setter_cases c s; cbn; rewrite <- ?app_assoc, ?app_nil_r;
    split; try reflexivity; try discriminate.
Qed.

Lemma run_setter_enums (tags : EnumTags) (c : Setter)
      (s : AuthSessionSettings AutoDownload) :
  enums_legal tags (_variables s) ->
  enums_legal tags (_variables (run_setter c s)).
Proof.
  setter_cases c s; intros H; exact H.
Qed.

(** Calling a setter again with the same value is a no-op: the settings
    are as after the first call, and nothing more is fired. *)
Theorem setters_idempotent
        (c : Setter) (s : AuthSessionSettings AutoDownload) :
  run_setter c (run_setter c s) = run_setter c s.
Proof.
  setter_cases c s; reflexivity.
Qed.

End SetterEffects.

(** ** The auto-lock timer *)

Lemma wrap64_id (z : Z) : is_int64 z -> wrap64 z = z.
Proof.
  unfold is_int64, wrap64. intros H. cbv zeta.
  destruct (Z.le_gt_cases 0 z).
  - rewrite Z.mod_small by lia.
    destruct (Z.ltb_spec z (2 ^ 63)); lia.
  - rewrite <- (Z.mod_add z 1) by lia.
    rewrite Z.mod_small by lia.
    destruct (Z.ltb_spec (z + 1 * 2 ^ 64) (2 ^ 63)); lia.
Qed.


Lemma checkAutoLock_armed (i : LockInputs) (at_ : Z) :
  plausible i at_ ->
  LocalPasscode i = true ->
  passcodeLocked i = false ->
  now i - lastNonIdleTime i < AutoLock i * 1000 ->
  at_ = 0 \/ now i <= at_ + kAutoLockTimeoutLateMs ->
  checkAutoLock i at_
  = (lastNonIdleTime i + AutoLock i * 1000,
     [CheckLocalTime;
      TimerCallOnce (lastNonIdleTime i + AutoLock i * 1000 - now i)]).
Proof.
  intros (Hl & Hn & Ha & Hat) Hp Hk Hidle Hlate.
  unfold checkAutoLock, kAutoLockTimeoutLateMs in *. rewrite Hp, Hk.
  cbn [negb orb].
  rewrite (wrap64_id (AutoLock i * 1000)) by (unfold is_int64; lia).
  rewrite (wrap64_id (now i - lastNonIdleTime i)) by (unfold is_int64; lia).
  rewrite (wrap64_id (at_ + 3000)) by (unfold is_int64; lia).
  rewrite (wrap64_id (AutoLock i * 1000 - (now i - lastNonIdleTime i)))
    by (unfold is_int64; lia).
  rewrite (wrap64_id (now i + _)) by (unfold is_int64; lia).
  destruct (Z.leb_spec (AutoLock i * 1000) (now i - lastNonIdleTime i));
    [lia|].
  assert (Hno : (0 <? at_) && (at_ + 3000 <? now i) = false).
  { destruct (Z.ltb_spec 0 at_); [|reflexivity].
    destruct (Z.ltb_spec (at_ + 3000) (now i)); [lia | reflexivity]. }
  rewrite Hno. cbn [orb].
  replace (now i + (AutoLock i * 1000 - (now i - lastNonIdleTime i)))
    with (lastNonIdleTime i + AutoLock i * 1000) by lia.
  replace (AutoLock i * 1000 - (now i - lastNonIdleTime i))
    with (lastNonIdleTime i + AutoLock i * 1000 - now i) by lia.
  reflexivity.
Qed.

Lemma checkAutoLock_due (i : LockInputs) (at_ : Z) :
  plausible i at_ ->
  LocalPasscode i = true ->
  passcodeLocked i = false ->
  AutoLock i * 1000 <= now i - lastNonIdleTime i ->
  checkAutoLock i at_ = (0, [CheckLocalTime; TimerCancel; LockByPasscode]).
Proof.
  intros (Hl & Hn & Ha & Hat) Hp Hk Hidle.
  unfold checkAutoLock. rewrite Hp, Hk. cbn [negb orb].
  rewrite (wrap64_id (AutoLock i * 1000)) by (unfold is_int64; lia).
  rewrite (wrap64_id (now i - lastNonIdleTime i)) by (unfold is_int64; lia).
  destruct (Z.leb_spec (AutoLock i * 1000) (now i - lastNonIdleTime i));
    [reflexivity | lia].
Qed.

(** The timer chain: while the user has been idle for less than the timeout
    (and no earlier deadline is overdue), [checkAutoLock] arms the timer for
    the moment the idle time reaches [AutoLock] seconds and records that
    moment; when the timer then fires with no activity in between, the next
    [checkAutoLock] locks. *)
Theorem checkAutoLock_deadline (i i' : LockInputs) (at_ : Z) :
  plausible i at_ ->
  LocalPasscode i = true ->
  passcodeLocked i = false ->
  now i - lastNonIdleTime i < AutoLock i * 1000 ->
  at_ = 0 \/ now i <= at_ + kAutoLockTimeoutLateMs ->
  let deadline := lastNonIdleTime i + AutoLock i * 1000 in
  checkAutoLock i at_
  = (deadline, [CheckLocalTime; TimerCallOnce (deadline - now i)])
  /\ 0 < deadline - now i
  /\ (LocalPasscode i' = true ->
      passcodeLocked i' = false ->
      AutoLock i' = AutoLock i ->
      lastNonIdleTime i' = lastNonIdleTime i ->
      deadline <= now i' < 2 ^ 61 ->
      checkAutoLock i' deadline
      = (0, [CheckLocalTime; TimerCancel; LockByPasscode])).
Proof.
  intros Hpl Hp Hk Hidle Hlate deadline. subst deadline.
  split; [now apply checkAutoLock_armed|]. split; [lia|].
  intros Hp' Hk' Ha' Hl' Hn'.
  destruct Hpl as (Hl & Hn & Ha & Hat).
  apply checkAutoLock_due; try assumption.
  - unfold plausible. rewrite Hl', Ha'. lia.
  - rewrite Hl', Ha'. lia.
Qed.

(** After a passcode change the old deadline is forgotten: the session locks
    at once only when the idle time has already reached the timeout, and
    otherwise the timer is armed afresh for that moment. *)
Theorem localPasscodeChanged_rearms (i : LockInputs) :
  plausible i 0 ->
  LocalPasscode i = true ->
  passcodeLocked i = false ->
  localPasscodeChanged i
  = if AutoLock i * 1000 <=? now i - lastNonIdleTime i
    then (0, [TimerCancel; CheckLocalTime; TimerCancel; LockByPasscode])
    else (lastNonIdleTime i + AutoLock i * 1000,
          [TimerCancel; CheckLocalTime;
           TimerCallOnce (lastNonIdleTime i + AutoLock i * 1000 - now i)]).
Proof.
  intros Hpl Hp Hk. unfold localPasscodeChanged.
  destruct (Z.leb_spec (AutoLock i * 1000) (now i - lastNonIdleTime i)).
  - now rewrite checkAutoLock_due.
  - rewrite checkAutoLock_armed; auto.
Qed.

(** When [checkAutoLock] locks, and what it leaves behind.  It locks exactly
    when a passcode is set, the application is not locked yet, and either the
    idle time has reached the timeout or a stored deadline is more than
    [kAutoLockTimeoutLateMs] in the past (the clock jumped, or the timer was
    late).  Afterwards either no deadline is stored and the timer is
    cancelled, or the stored deadline is in the future and the timer is armed
    for exactly the time left, with nothing cancelled and nothing locked. *)
Theorem checkAutoLock_outcomes (i : LockInputs) (at_ : Z) :
  plausible i at_ ->
  let deadline := fst (checkAutoLock i at_) in
  let effects := snd (checkAutoLock i at_) in
  (In LockByPasscode effects
   <-> LocalPasscode i = true
       /\ passcodeLocked i = false
       /\ (AutoLock i * 1000 <= now i - lastNonIdleTime i
           \/ (0 < at_ /\ at_ + kAutoLockTimeoutLateMs < now i)))
  /\ ((deadline = 0
       /\ In TimerCancel effects
       /\ forall delay, ~ In (TimerCallOnce delay) effects)
      \/ (now i < deadline
          /\ In (TimerCallOnce (deadline - now i)) effects
          /\ ~ In TimerCancel effects
          /\ ~ In LockByPasscode effects)).
Proof.
  intros (Hl & Hn & Ha & Hat) deadline effects. subst deadline effects.
  unfold checkAutoLock, kAutoLockTimeoutLateMs.
  rewrite (wrap64_id (AutoLock i * 1000)) by (unfold is_int64; lia).
  rewrite (wrap64_id (now i - lastNonIdleTime i)) by (unfold is_int64; lia).
  rewrite (wrap64_id (at_ + 3000)) by (unfold is_int64; lia).
  destruct (LocalPasscode i), (passcodeLocked i); cbn [negb orb fst snd].
  - split.
    + split; [intros [H|[]]; discriminate H | intros (_ & H & _); discriminate H].
    + left. split; [reflexivity|]. split; [left; reflexivity|].
      intros delay [H|[]]; discriminate H.
  - destruct (Z.leb_spec (AutoLock i * 1000) (now i - lastNonIdleTime i))
      as [Hdue|Hidle]; cbn [orb fst snd].
    + split.
      * split; [intros _; repeat split; left; assumption
               | intros _; right; right; left; reflexivity].
      * left. split; [reflexivity|]. split; [right; left; reflexivity|].
        intros delay [H|[H|[H|[]]]]; discriminate H.
    + rewrite (wrap64_id (AutoLock i * 1000 - (now i - lastNonIdleTime i)))
        by (unfold is_int64; lia).
      rewrite (wrap64_id (now i + _)) by (unfold is_int64; lia).
      destruct (Z.ltb_spec 0 at_) as [Hpos|Hzero];
        [destruct (Z.ltb_spec (at_ + 3000) (now i)) as [Hlate|Hsoon]|];
        cbn [andb fst snd].
      * split.
        -- split; [intros _; repeat split; right; lia
                  | intros _; right; right; left; reflexivity].
        -- left. split; [reflexivity|]. split; [right; left; reflexivity|].
           intros delay [H|[H|[H|[]]]]; discriminate H.
      * split.
        -- split; [intros [H|[H|[]]]; discriminate H
                  | intros (_ & _ & [H|H]); lia].
        -- right. split; [lia|]. split.
           ++ right; left. f_equal. lia.
           ++ split; intros [H|[H|[]]]; discriminate H.
      * split.
        -- split; [intros [H|[H|[]]]; discriminate H
                  | intros (_ & _ & [H|H]); lia].
        -- right. split; [lia|]. split.
           ++ right; left. f_equal. lia.
           ++ split; intros [H|[H|[]]]; discriminate H.
  - split.
    + split; [intros [H|[]]; discriminate H | intros (H & _); discriminate H].
    + left. split; [reflexivity|]. split; [left; reflexivity|].
      intros delay [H|[]]; discriminate H.
  - split.
    + split; [intros [H|[]]; discriminate H | intros (H & _); discriminate H].
    + left. split; [reflexivity|]. split; [left; reflexivity|].
      intros delay [H|[]]; discriminate H.
Qed.

(** ** binary64: the value a rounding keeps *)

Lemma shr_1_div2 (mrs : shr_record) :
  0 <= shr_m mrs -> shr_m (shr_1 mrs) = shr_m mrs / 2.
Proof.
  destruct mrs as [m r s]. cbn [shr_m]. intros H.
  destruct m as [|[p|p|]|p]; cbn [shr_1 shr_m]; try lia.
  - reflexivity.
  - change (Zpos p~1) with (2 * Zpos p + 1).
    apply Z.div_unique with 1; lia.
  - change (Zpos p~0) with (2 * Zpos p).
    apply Z.div_unique with 0; lia.
  - reflexivity.
Qed.

Lemma iter_pos_shr_1 (p : positive) :
  forall mrs : shr_record,
    0 <= shr_m mrs ->
    shr_m (iter_pos shr_1 p mrs) = shr_m mrs / 2 ^ Zpos p.
Proof.
  induction p as [p IH|p IH|]; intros mrs H; cbn [iter_pos].
  - assert (H1 : 0 <= shr_m (shr_1 mrs))
      by (rewrite shr_1_div2 by assumption; apply Z.div_pos; lia).
    assert (H2 : 0 <= shr_m (iter_pos shr_1 p (shr_1 mrs)))
      by (rewrite IH by assumption; apply Z.div_pos; lia).
    rewrite IH, IH, shr_1_div2 by assumption.
    assert (P : 0 < 2 ^ Zpos p) by (apply Z.pow_pos_nonneg; lia).
    rewrite !Z.div_div by lia. f_equal.
    rewrite (Pos2Z.inj_xI p).
    replace (2 * Zpos p + 1) with (1 + (Zpos p + Zpos p)) by lia.
    rewrite !Z.pow_add_r by lia. change (2 ^ 1) with 2. lia.
  - assert (H2 : 0 <= shr_m (iter_pos shr_1 p mrs))
      by (rewrite IH by assumption; apply Z.div_pos; lia).
    rewrite IH, IH by assumption.
    assert (P : 0 < 2 ^ Zpos p) by (apply Z.pow_pos_nonneg; lia).
    rewrite !Z.div_div by lia. f_equal.
    rewrite (Pos2Z.inj_xO p).
    replace (2 * Zpos p) with (Zpos p + Zpos p) by lia.
    rewrite !Z.pow_add_r by lia. reflexivity.
  - rewrite shr_1_div2 by assumption. reflexivity.
Qed.

(** The last step of a rounding keeps the value. *)
Lemma round_finish_value (s : bool) (t e : Z) :
  4503599627370496 <= t <= 9007199254740992 ->
  - 1074 <= e <= 960 ->
  exists (M : positive) (E : Z),
    (let '(mrs, e') := shr_fexp 53 1024 t e loc_Exact in
     match shr_m mrs with
     | Z0 => S754_zero s
     | Zpos m =>
         if e' <=? 1024 - 53 then S754_finite s m e' else S754_infinity s
     | Zneg _ => S754_nan
     end) = S754_finite s M E
    /\ 4503599627370496 <= Zpos M < 9007199254740992
    /\ e <= E <= e + 1
    /\ Zpos M * 2 ^ (E - e) = t.
Proof.
  intros Ht He. destruct t as [|tp|tp]; try lia.
  destruct (Z.eq_dec (Zpos tp) 9007199254740992) as [Eq|Ne].
  - inversion Eq; subst tp.
    rewrite shr_fexp_54 by lia. cbn [shr_record_of_loc shr_1 shr_m].
    destruct (Z.leb_spec (e + 1) (1024 - 53)); [|lia].
    exists 4503599627370496%positive, (e + 1).
    replace (e + 1 - e) with 1 by lia. repeat split; lia.
  - rewrite shr_fexp_53 by lia. cbn [shr_record_of_loc shr_m].
    destruct (Z.leb_spec e (1024 - 53)); [|lia].
    exists tp, e. replace (e - e) with 0 by lia. repeat split; lia.
Qed.

(** Rounding a mantissa of [D >= 53] bits to 53 bits: the result is a normal
    number within [2 ^ (D - 53)] units of the mantissa. *)
Lemma binary_round_aux_near (s : bool) (mx : positive) (e : Z) (l : location) :
  53 <= Zpos (digits2_pos mx) ->
  - 1074 <= e + Zpos (digits2_pos mx) - 53 <= 960 ->
  exists (M : positive) (E : Z),
    binary_round_aux 53 1024 s (Zpos mx) e l = S754_finite s M E
    /\ 4503599627370496 <= Zpos M < 9007199254740992
    /\ e + Zpos (digits2_pos mx) - 53 <= E <= e + Zpos (digits2_pos mx) - 52
    /\ Zpos mx - 2 ^ (Zpos (digits2_pos mx) - 53)
       < Zpos M * 2 ^ (E - e)
       <= Zpos mx + 2 ^ (Zpos (digits2_pos mx) - 53).
Proof.
  intros HD He. pose proof (digits2_pos_spec mx) as [Dl Du].
  set (D := Zpos (digits2_pos mx)) in *.
  set (n := D - 53).
  assert (Hn : 0 <= n) by (unfold n; lia).
  assert (Pn : 0 < 2 ^ n) by (apply Z.pow_pos_nonneg; lia).
  assert (P52 : 2 ^ (D - 1) = 4503599627370496 * 2 ^ n).
  { change 4503599627370496 with (2 ^ 52). rewrite <- Z.pow_add_r by lia.
    f_equal. unfold n. lia. }
  assert (P53 : 2 ^ D = 9007199254740992 * 2 ^ n).
  { change 9007199254740992 with (2 ^ 53). rewrite <- Z.pow_add_r by lia.
    f_equal. unfold n. lia. }
  set (m0 := Zpos mx / 2 ^ n).
  assert (Hm0 : m0 * 2 ^ n <= Zpos mx < (m0 + 1) * 2 ^ n).
  { unfold m0. pose proof (Z.mul_div_le (Zpos mx) (2 ^ n) Pn).
    pose proof (Z.mul_succ_div_gt (Zpos mx) (2 ^ n) Pn). lia. }
  assert (Rm0 : 4503599627370496 <= m0 < 9007199254740992).
  { unfold m0. split.
    - apply Z.div_le_lower_bound; lia.
    - apply Z.div_lt_upper_bound; lia. }
  unfold binary_round_aux.
  assert (Hshr : exists mrs,
             shr_fexp 53 1024 (Zpos mx) e l = (mrs, e + n)
             /\ m0 <= round_nearest_even (shr_m mrs) (loc_of_shr_record mrs)
                <= m0 + 1).
  { unfold shr_fexp, Zdigits2. fold D. unfold fexp, emin.
    replace (Z.max (D + e - 53) (3 - 1024 - 53) - e) with n by (unfold n; lia).
    destruct n as [|p|p] eqn:En; [| |lia].
    - eexists. split; [cbn [shr]; f_equal; lia|].
      replace m0 with (shr_m (shr_record_of_loc (Zpos mx) l)).
      + apply round_nearest_even_range.
      + unfold m0. change (2 ^ 0) with 1. rewrite Z.div_1_r.
        destruct l as [|[| |]]; reflexivity.
    - eexists. split; [cbn [shr]; reflexivity|].
      replace m0 with (shr_m (iter_pos shr_1 p (shr_record_of_loc (Zpos mx) l))).
      + apply round_nearest_even_range.
      + rewrite iter_pos_shr_1.
        * unfold m0. destruct l as [|[| |]]; reflexivity.
        * destruct l as [|[| |]]; cbn; lia. }
  destruct Hshr as (mrs & -> & Hr).
  set (t := round_nearest_even (shr_m mrs) (loc_of_shr_record mrs)) in *.
  destruct (round_finish_value s t (e + n) ltac:(lia) ltac:(unfold n; lia))
    as (M & E & HE & HM & HEe & HV).
  exists M, E. rewrite HE. split; [reflexivity|]. split; [assumption|].
  split; [unfold n in *; lia|].
  replace (E - e) with (E - (e + n) + n) by lia.
  rewrite Z.pow_add_r by lia. rewrite Z.mul_assoc, HV.
  clearbody t m0. nia.
Qed.

Lemma digits2_pos_between (p : positive) (a b : Z) :
  0 <= a -> 2 ^ a <= Zpos p < 2 ^ b -> a + 1 <= Zpos (digits2_pos p) <= b.
Proof.
  intros Ha [Hl Hu]. pose proof (digits2_pos_spec p) as [Dl Du].
  set (D := Zpos (digits2_pos p)) in *.
  assert (HD : 1 <= D) by (unfold D; lia).
  split.
  - destruct (Z.le_gt_cases (a + 1) D) as [L|G]; [assumption|exfalso].
    pose proof (Z.pow_le_mono_r 2 D a ltac:(lia) ltac:(lia)). lia.
  - destruct (Z.le_gt_cases D b) as [L|G]; [assumption|exfalso].
    destruct (Z.le_gt_cases 0 b) as [N|N].
    + pose proof (Z.pow_le_mono_r 2 b (D - 1) ltac:(lia) ltac:(lia)). lia.
    + rewrite (Z.pow_neg_r 2 b) in Hu by lia. lia.
Qed.

Lemma pow2_le_4 (n : Z) : 0 <= n <= 1 -> 1 <= 2 ^ n <= 2.
Proof.
  intros H. assert (C : n = 0 \/ n = 1) by lia.
  destruct C as [-> | ->]; cbn; lia.
Qed.

(** The ratio the decoder keeps for a raw value strictly between 0 and one
    million: a normal number below one, within [2 ^ -32] of
    [value / 1000000]. *)
Lemma ratioFromRaw_value (k : Z) :
  1 <= k < 1000000 ->
  exists (M : positive) (E : Z),
    ratioFromRaw k = S754_finite false M E
    /\ 4503599627370496 <= Zpos M < 9007199254740992
    /\ - 72 <= E <= - 53
    /\ k * 2 ^ 73 - 2 ^ 41
       <= Zpos M * 1000000 * 2 ^ (E + 73)
       <= k * 2 ^ 73 + 2 ^ 41.
Proof.
  intros Hk. destruct k as [|m|m]; try lia.
  unfold ratioFromRaw.
  change (f_of_int (Zpos m)) with (binary_round 53 1024 false m 0).
  destruct (binary_round_int false m ltac:(lia)) as (mx & -> & Hmx & Hb & Hd).
  pose proof (digits2_pos_spec m) as [Dl Du].
  set (d := Zpos (digits2_pos m)) in *.
  assert (Hd20 : d <= 20).
  { destruct (Z.le_gt_cases d 20) as [L|G]; [assumption|exfalso].
    pose proof (Z.pow_le_mono_r 2 20 (d - 1) ltac:(lia) ltac:(lia)) as P.
    change (2 ^ 20) with 1048576 in P. lia. }
  set (T := 2 ^ d).
  assert (HT : 2 <= T <= 1048576).
  { unfold T. split.
    - change 2 with (2 ^ 1) at 1. apply Z.pow_le_mono_r; lia.
    - change 1048576 with (2 ^ 20). apply Z.pow_le_mono_r; lia. }
  assert (HmxT : Zpos mx * T = Zpos m * 9007199254740992).
  { rewrite Hmx. unfold T. rewrite <- Z.mul_assoc, <- Z.pow_add_r by lia.
    replace (53 - d + d) with 53 by lia. reflexivity. }
  rewrite f_million_eq. unfold f_div, SFdiv.
  cbn [xorb].
  unfold SFdiv_core_binary, Zdigits2.
  rewrite (digits2_pos_unique mx 53) by (simpl; lia).
  change (Zpos (digits2_pos 8589934592000000)) with 53.
  unfold fexp, emin.
  replace (Z.min (Z.max (53 + (d - 53) - (53 + -33) - 53) (3 - 1024 - 53))
                 (d - 53 - -33)) with (d - 73) by lia.
  replace (d - 53 - -33 - (d - 73)) with 53 by lia.
  rewrite Z.shiftl_mul_pow2 by lia.
  change (2 ^ 53) with 9007199254740992.
  pose proof (Z_div_mod (Zpos mx * 9007199254740992) 8589934592000000
                        ltac:(lia)) as Dv.
  destruct (Z.div_eucl (Zpos mx * 9007199254740992) 8589934592000000)
    as [q r].
  destruct Dv as [D1 D2].
  assert (Hq : 4503599627370496 <= q < 18014398509481984) by nia.
  destruct q as [|qp|qp]; try lia.
  destruct (digits2_pos_between qp 52 54 ltac:(lia) ltac:(simpl; lia))
    as [Q1 Q2].
  destruct (binary_round_aux_near false qp (d - 73)
              (new_location 8589934592000000 r) ltac:(lia) ltac:(lia))
    as (M & E & HE & HM & HEe & HV).
  rewrite HE.
  set (a := E - (d - 73)) in *.
  assert (Ha : 0 <= a <= 2) by (unfold a; lia).
  pose proof (pow2_le_4 (Zpos (digits2_pos qp) - 53) ltac:(lia)) as Hu.
  set (u := 2 ^ (Zpos (digits2_pos qp) - 53)) in *.
  set (X := Zpos M * 2 ^ a) in *.
  assert (HXT : Zpos M * 1000000 * 2 ^ (E + 73) = X * T * 1000000).
  { replace (E + 73) with (a + d) by (unfold a; lia).
    rewrite Z.pow_add_r by lia. unfold X, T. ring. }
  (* the quotient against the exact value *)
  assert (HqT : Zpos qp * T * 1000000 <= Zpos m * 2 ^ 73
                /\ Zpos m * 2 ^ 73 < (Zpos qp + 1) * T * 1000000).
  { change (2 ^ 73) with (9007199254740992 * 1048576).
    clearbody T u X a d. nia. }
  assert (HXq : (Zpos qp - 1) * T <= X * T <= (Zpos qp + 2) * T).
  { clearbody T u X a d. nia. }
  assert (Hval : Zpos m * 2 ^ 73 - 2 ^ 41 <= X * T * 1000000
                 <= Zpos m * 2 ^ 73 + 2 ^ 41).
  { change (2 ^ 41) with 2199023255552.
    change (2 ^ 73) with 9444732965739290427392 in *.
    clearbody T u X a d. lia. }
  assert (HE53 : E <= - 53).
  { destruct (Z.le_gt_cases E (- 53)) as [L|G]; [assumption|exfalso].
    assert (21 <= a + d) by (unfold a; lia).
    pose proof (Z.pow_le_mono_r 2 21 (a + d) ltac:(lia) ltac:(lia)) as P.
    rewrite Z.pow_add_r in P by lia. fold T in P.
    change (2 ^ 21) with 2097152 in P.
    change (2 ^ 41) with 2199023255552 in Hval.
    change (2 ^ 73) with 9444732965739290427392 in Hval.
    unfold X in Hval.
    set (A := 2 ^ a) in *. clearbody T A u a d. nia. }
  exists M, E.
  split.
  - unfold snap.
    change (f_ltb (S754_finite false M E) f_zero) with false. cbv iota.
    rewrite f_one_eq. unfold f_ltb, SFltb. cbn [SFcompare].
    destruct (Z.compare_spec (- 52) E); [lia | lia | reflexivity].
  - split; [assumption|]. split; [unfold a in *; lia|].
    rewrite HXT. exact Hval.
Qed.

(** Multiplying such a ratio by one million: a normal number within
    [2 ^ -33] of the exact product. *)
Lemma f_mul_million_value (M : positive) (E : Z) :
  4503599627370496 <= Zpos M < 9007199254740992 ->
  - 72 <= E <= - 53 ->
  exists (M2 : positive) (E2 : Z),
    f_mul (S754_finite false M E) f_million = S754_finite false M2 E2
    /\ 4503599627370496 <= Zpos M2 < 9007199254740992
    /\ E + 19 <= E2 <= E + 21
    /\ Zpos M * 1000000 * 2 ^ (E + 73) * 2 ^ 33 - 2 ^ 73
       <= Zpos M2 * 2 ^ (E2 + 106)
       <= Zpos M * 1000000 * 2 ^ (E + 73) * 2 ^ 33 + 2 ^ 73.
Proof.
  intros HM HE. rewrite f_million_eq. unfold f_mul, SFmul. cbn [xorb].
  set (P := (M * 8589934592000000)%positive).
  assert (HP : Zpos P = Zpos M * 8589934592000000) by reflexivity.
  destruct (digits2_pos_between P 104 106 ltac:(lia)
              ltac:(rewrite HP; simpl; lia)) as [Q1 Q2].
  destruct (binary_round_aux_near false P (E + -33) loc_Exact
              ltac:(lia) ltac:(lia))
    as (M2 & E2 & HE2 & HM2 & HEe & HV).
  rewrite HE2. exists M2, E2.
  split; [reflexivity|]. split; [assumption|]. split; [lia|].
  set (b := E2 - (E + -33)) in *.
  assert (Hb : 52 <= b <= 54) by (unfold b; lia).
  pose proof (pow2_le_4 (Zpos (digits2_pos P) - 105) ltac:(lia)) as Hu.
  assert (Hu' : 2 ^ (Zpos (digits2_pos P) - 53)
                = 4503599627370496 * 2 ^ (Zpos (digits2_pos P) - 105)).
  { change 4503599627370496 with (2 ^ 52).
    rewrite <- Z.pow_add_r by lia. f_equal. lia. }
  rewrite Hu' in HV.
  set (u := 2 ^ (Zpos (digits2_pos P) - 105)) in *.
  set (G := 2 ^ (E + 73)).
  assert (HG : 2 <= G <= 1048576).
  { unfold G. split.
    - change 2 with (2 ^ 1) at 1. apply Z.pow_le_mono_r; lia.
    - change 1048576 with (2 ^ 20). apply Z.pow_le_mono_r; lia. }
  replace (E2 + 106) with (b + (E + 73)) by (unfold b; lia).
  rewrite Z.pow_add_r by lia. fold G.
  rewrite HP in HV.
  change (2 ^ 33) with 8589934592. change (2 ^ 73) with 9444732965739290427392.
  set (Y := Zpos M2 * 2 ^ b) in *.
  rewrite Z.mul_assoc. fold Y.
  clearbody Y G u b P. nia.
Qed.

Lemma f_half_eq : f_half = S754_finite false 4503599627370496 (-53).
Proof. reflexivity. Qed.

(** Adding one half to a number of [53 + d] bits before the binary point. *)
Lemma f_add_half_value (M2 : positive) (E2 d : Z) :
  4503599627370496 <= Zpos M2 < 9007199254740992 ->
  - 53 <= E2 <= - 32 ->
  1 <= d <= 20 ->
  2 ^ (d + 52) <= Zpos M2 * 2 ^ (E2 + 53) + 2 ^ 52 < 2 ^ (d + 53) ->
  exists (M3 : positive) (E3 : Z),
    f_add (S754_finite false M2 E2) f_half = S754_finite false M3 E3
    /\ d - 53 <= E3 <= d - 52
    /\ Zpos M2 * 2 ^ (E2 + 53) + 2 ^ 52 - 2 ^ d
       < Zpos M3 * 2 ^ (E3 + 53)
       <= Zpos M2 * 2 ^ (E2 + 53) + 2 ^ 52 + 2 ^ d.
Proof.
  intros HM HE Hd HS. rewrite f_half_eq. unfold f_add, SFadd.
  replace (Z.min E2 (-53)) with (-53) by lia.
  assert (Hal : exists W : positive,
             fst (shl_align M2 E2 (-53)) = W
             /\ Zpos W = Zpos M2 * 2 ^ (E2 + 53)).
  { unfold shl_align. destruct (-53 - E2) as [|c|c] eqn:Ec; try lia.
    - exists M2. split; [reflexivity|].
      replace (E2 + 53) with 0 by lia. cbn. lia.
    - exists (Pos.iter xO M2 c). split; [reflexivity|].
      change (Pos.iter xO M2 c) with (shift_pos c M2).
      rewrite shift_pos_correct.
      change (Z.pow_pos 2 c) with (2 ^ Zpos c).
      replace (E2 + 53) with (Zpos c) by lia. lia. }
  destruct Hal as (W & -> & HW).
  change (fst (shl_align 4503599627370496 (-53) (-53)))
    with 4503599627370496%positive.
  cbn [cond_Zopp].
  change (Zpos W + 4503599627370496)
    with (Zpos (W + 4503599627370496)).
  cbn [binary_normalize].
  set (S := (W + 4503599627370496)%positive).
  assert (HSv : Zpos S = Zpos M2 * 2 ^ (E2 + 53) + 2 ^ 52).
  { unfold S. rewrite Pos2Z.inj_add, HW. reflexivity. }
  rewrite <- HSv in HS. rewrite <- HSv.
  assert (HD : Zpos (digits2_pos S) = d + 53).
  { apply digits2_pos_unique. replace (d + 53 - 1) with (d + 52) by lia.
    exact HS. }
  unfold binary_round, shl_align. rewrite HD. unfold fexp, emin.
  replace (Z.max (d + 53 + -53 - 53) (3 - 1024 - 53) - -53) with d by lia.
  destruct d as [|dp|dp] eqn:Ed; try lia.
  destruct (binary_round_aux_near false S (-53) loc_Exact
              ltac:(lia) ltac:(lia))
    as (M3 & E3 & HE3 & HM3 & HEe & HV).
  rewrite HE3. exists M3, E3.
  split; [reflexivity|]. split; [lia|].
  rewrite HD in HV. replace (Zpos dp + 53 - 53) with (Zpos dp) in HV by lia.
  replace (E3 - -53) with (E3 + 53) in HV by lia.
  exact HV.
Qed.

(** The integer part of a number given in units of [2 ^ -53]. *)
Lemma f_to_int_floor (M3 : positive) (E3 k : Z) :
  - 53 <= E3 < 0 ->
  0 <= k < 2 ^ 31 ->
  k * 2 ^ 53 <= Zpos M3 * 2 ^ (E3 + 53) < (k + 1) * 2 ^ 53 ->
  f_to_int (S754_finite false M3 E3) = k.
Proof.
  intros HE Hk HV. unfold f_to_int.
  destruct (Z.leb_spec 0 E3); [lia|].
  assert (Hdiv : Zpos M3 / 2 ^ (- E3) = k).
  { assert (P : 0 < 2 ^ (E3 + 53)) by (apply Z.pow_pos_nonneg; lia).
    assert (Q : 0 < 2 ^ (- E3)) by (apply Z.pow_pos_nonneg; lia).
    rewrite <- (Z.div_mul_cancel_r (Zpos M3) (2 ^ (- E3)) (2 ^ (E3 + 53)))
      by lia.
    rewrite <- Z.pow_add_r by lia.
    replace (- E3 + (E3 + 53)) with 53 by lia.
    symmetry. apply Z.div_unique with (Zpos M3 * 2 ^ (E3 + 53) - k * 2 ^ 53);
      lia. }
  rewrite Hdiv.
  destruct (Z.leb_spec (- 2 ^ 31) k); [|lia].
  destruct (Z.ltb_spec k (2 ^ 31)); [reflexivity | lia].
Qed.

(** A stored ratio is stable: the raw value the decoder turned into a ratio
    is the raw value [serialize] writes for that ratio. *)
Lemma ratioToRaw_ratioFromRaw (k : Z) :
  0 <= k <= 1000000 -> ratioToRaw (ratioFromRaw k) = k.
Proof.
  intros Hk.
  destruct (Z.eq_dec k 0) as [->|N0]; [reflexivity|].
  destruct (Z.eq_dec k 1000000) as [->|N1]; [reflexivity|].
  destruct (ratioFromRaw_value k ltac:(lia)) as (M & E & -> & HM & HE & HA).
  destruct (f_mul_million_value M E HM HE) as (M2 & E2 & HY & HM2 & HE2 & HB).
  unfold ratioToRaw. rewrite HY. unfold qRound.
  change (f_leb f_zero (S754_finite false M2 E2)) with true. cbv iota.
  destruct k as [|m|m]; try lia.
  pose proof (digits2_pos_spec m) as [Dl Du].
  set (d := Zpos (digits2_pos m)) in *.
  assert (Hd1 : 1 <= d) by (unfold d; lia).
  assert (Hd20 : d <= 20).
  { destruct (Z.le_gt_cases d 20) as [L|G]; [assumption|exfalso].
    pose proof (Z.pow_le_mono_r 2 20 (d - 1) ltac:(lia) ltac:(lia)) as P.
    change (2 ^ 20) with 1048576 in P. lia. }
  assert (HT : 2 ^ d <= 1048576).
  { change 1048576 with (2 ^ 20). apply Z.pow_le_mono_r; lia. }
  assert (HT1 : 2 ^ d = 2 * 2 ^ (d - 1)).
  { replace d with (1 + (d - 1)) at 1 by lia.
    rewrite Z.pow_add_r by lia. reflexivity. }
  assert (P52 : 2 ^ (d + 52) = 2 ^ (d - 1) * 9007199254740992).
  { replace (d + 52) with (d - 1 + 53) by lia.
    rewrite Z.pow_add_r by lia. reflexivity. }
  assert (P53 : 2 ^ (d + 53) = 2 ^ d * 9007199254740992).
  { rewrite Z.pow_add_r by lia. reflexivity. }
  assert (HW : Zpos M2 * 2 ^ (E2 + 106)
               = Zpos M2 * 2 ^ (E2 + 53) * 9007199254740992).
  { replace (E2 + 106) with (E2 + 53 + 53) by lia.
    rewrite Z.pow_add_r by lia. change (2 ^ 53) with 9007199254740992. ring. }
  rewrite HW in HB.
  set (W := Zpos M2 * 2 ^ (E2 + 53)) in *.
  set (A := Zpos M * 1000000 * 2 ^ (E + 73)) in *.
  change (2 ^ 73) with 9444732965739290427392 in *.
  change (2 ^ 41) with 2199023255552 in *.
  change (2 ^ 33) with 8589934592 in *.
  assert (HWk : Zpos m * 9007199254740992 - 3145728 <= W
                <= Zpos m * 9007199254740992 + 3145728)
    by (clearbody W A; lia).
  destruct (f_add_half_value M2 E2 d HM2 ltac:(lia) ltac:(lia))
    as (M3 & E3 & HZ & HE3 & HC).
  { fold W. rewrite P52, P53. change (2 ^ 52) with 4503599627370496.
    set (T := 2 ^ d) in *. set (T1 := 2 ^ (d - 1)) in *.
    clearbody W A T T1. nia. }
  rewrite HZ. fold W in HC.
  rewrite (f_to_int_floor M3 E3 (Zpos m)).
  - unfold snap.
    destruct (Z.ltb_spec (Zpos m) 0); [lia|].
    destruct (Z.ltb_spec 1000000 (Zpos m)); [lia | reflexivity].
  - lia.
  - change (2 ^ 31) with 2147483648. lia.
  - change (2 ^ 53) with 9007199254740992.
    change (2 ^ 52) with 4503599627370496 in HC.
    set (T := 2 ^ d) in *.
    set (Z3 := Zpos M3 * 2 ^ (E3 + 53)) in *.
    clearbody W A T Z3. lia.
Qed.

(** The millionths [serialize] writes do not drift: the ratio restored from
    them is written as the same millionths again, whatever the ratio was to
    begin with. *)
Theorem stored_ratio_stable (ratio : float64) :
  ratioToRaw (ratioFromRaw (ratioToRaw ratio)) = ratioToRaw ratio.
Proof. apply ratioToRaw_ratioFromRaw, ratioToRaw_range. Qed.

Section Stability.

Context {AutoDownload : Type}.
Variable ser : AutoDownload -> QByteArray.
Variable setFrom : QByteArray -> AutoDownload -> bool * AutoDownload.
Variable tags : EnumTags.

Lemma roundtrip_image_valid (r p : Variables AutoDownload) :
  valid ser tags r ->
  well_typed ser p ->
  valid ser tags (roundtrip_image ser r p).
Proof.
  intros [[] ? ? ? ? ? ?] []. constructor; [constructor|..];
    cbn [roundtrip_image selectorTab tabbedSelectorSectionTooltipShown
         floatPlayerColumn floatPlayerCorner thirdColumnWidth
         thirdSectionExtendedBy sendFilesWay sendSubmitWay supportSwitch
         supportChatsTimeSlice soundOverrides groupStickersSectionHidden
         autoDownload];
    try assumption.
  unfold restored_autoDownload.
  destruct (ba_isEmpty (ser (autoDownload r))); assumption.
Qed.

(** A second round trip changes nothing, when the record that receives the
    blob holds the auto-download preferences the image holds wherever the
    image's sub-blob is empty. *)
Lemma roundtrip_image_fixed (r p q : Variables AutoDownload) :
  (ba_isEmpty (ser (autoDownload (roundtrip_image ser r p))) = true ->
   autoDownload q = autoDownload (roundtrip_image ser r p)) ->
  roundtrip_image ser (roundtrip_image ser r p) q = roundtrip_image ser r p.
Proof.
  intros Ha. unfold roundtrip_image at 1.
  cbn [roundtrip_image selectorTab lastSeenWarningSeen
       tabbedSelectorSectionEnabled soundOverrides
       tabbedSelectorSectionTooltipShown floatPlayerColumn floatPlayerCorner
       groupStickersSectionHidden thirdSectionInfoEnabled smallDialogsList
       dialogsWidthRatio thirdColumnWidth thirdSectionExtendedBy sendFilesWay
       sendSubmitWay supportSwitch supportFixChatsOrder
       supportTemplatesAutocomplete supportChatsTimeSlice
       includeMutedCounter countUnreadMessages exeLaunchWarning
       supportAllSearchResults archiveCollapsed notifyAboutPinned].
  rewrite (ratioToRaw_ratioFromRaw (ratioToRaw (dialogsWidthRatio r)))
    by apply ratioToRaw_range.
  assert (Hb : (if thirdSectionInfoEnabled r then false
                else if thirdSectionInfoEnabled r then false
                     else tabbedSelectorSectionEnabled r)
               = (if thirdSectionInfoEnabled r then false
                  else tabbedSelectorSectionEnabled r))
    by (destruct (thirdSectionInfoEnabled r); reflexivity).
  rewrite Hb.
  assert (Hd : restored_autoDownload ser (roundtrip_image ser r p) q
               = autoDownload (roundtrip_image ser r p)).
  { unfold restored_autoDownload at 1.
    destruct (ba_isEmpty (ser (autoDownload (roundtrip_image ser r p))))
      eqn:E; [now apply Ha | reflexivity]. }
  rewrite Hd. reflexivity.
Qed.

(** Restored settings are a fixed point of saving and restoring: the blob
    [serialize] writes for the record a decode left is applied and gives that
    very record again, when decoded into the record it came from and when
    decoded into the first receiving record. *)
Theorem restored_settings_stable (r p : Variables AutoDownload) :
  valid ser tags r ->
  well_typed ser p ->
  codec_roundtrip ser setFrom ->
  let restored :=
    after (constructFromSerialized setFrom tags (serialize ser r) p) in
  constructFromSerialized setFrom tags (serialize ser restored) restored
  = mkDecoded Applied restored []
  /\ constructFromSerialized setFrom tags (serialize ser restored) p
     = mkDecoded Applied restored [].
Proof.
  intros Hv Hp Hc restored.
  assert (Hr : restored = roundtrip_image ser r p).
  { unfold restored.
    rewrite serialize_truncate_20, construct_truncated
      by (try assumption; lia).
    reflexivity. }
  clearbody restored. subst restored.
  pose proof (roundtrip_image_valid r p Hv Hp) as Hv'.
  split.
  - rewrite serialize_truncate_20, construct_truncated
      by (try assumption; lia).
    rewrite truncated_image_20, roundtrip_image_fixed; [reflexivity|].
    intros _. reflexivity.
  - rewrite serialize_truncate_20, construct_truncated
      by (try assumption; lia).
    rewrite truncated_image_20, roundtrip_image_fixed; [reflexivity|].
    cbn [roundtrip_image autoDownload]. unfold restored_autoDownload.
    destruct (ba_isEmpty (ser (autoDownload r))) eqn:E; [reflexivity|].
    rewrite E. discriminate.
Qed.

End Stability.

(** ** The settings of a session under every operation *)

Section Session.

Context {AutoDownload : Type}.
Variable setFrom : QByteArray -> AutoDownload -> bool * AutoDownload.
Variable tags : EnumTags.

Lemma run_op_invariants (op : SettingsOp)
      (s : AuthSessionSettings AutoDownload) :
  panels_exclusive (_variables s) /\ enums_legal tags (_variables s) ->
  panels_exclusive (_variables (run_op setFrom tags op s))
  /\ enums_legal tags (_variables (run_op setFrom tags op s)).
Proof.
  intros [He Hl]. destruct op as [serialized|c]; cbn [run_op _variables].
  - split; [now apply construct_exclusive | now apply construct_enums_legal].
  - split; [now apply run_setter_exclusive | now apply run_setter_enums].
Qed.

(** Two invariants of the settings hold through every interleaving of stored
    blobs being applied and panel setters being called, whatever the blobs
    hold: the two panel flags are never both set, and every enumerated field
    holds one of its enumerators. *)
Theorem session_invariants_kept (ops : list SettingsOp)
        (s : AuthSessionSettings AutoDownload) :
  panels_exclusive (_variables s) ->
  enums_legal tags (_variables s) ->
  panels_exclusive (_variables (run_ops setFrom tags ops s))
  /\ enums_legal tags (_variables (run_ops setFrom tags ops s)).
Proof.
  intros He Hl. assert (H := conj He Hl). clear He Hl.
  revert s H. induction ops as [|op ops IH]; intros s H; [exact H|].
  cbn [run_ops fold_left]. apply IH. now apply run_op_invariants.
Qed.

End Session.

(* ===================================================================== *)
(** ** The further properties on concrete records and blobs               *)
(* ===================================================================== *)

(** The mutual recursion of the two setters is bounded: one nested call at
    most, so a call stack of depth two runs every call to its end, and a
    deeper stack changes nothing. *)
Theorem setters_nest_at_most_once
        {AutoDownload : Type} (c : Setter)
        (s : AuthSessionSettings AutoDownload) :
  exists s', call 2 c s = Some s'
             /\ run_setter c s = s'
             /\ forall n, (2 <= n)%nat -> call n c s = Some s'.
Proof.
  destruct (call_depth c s) as [s' [H2 Hn]].
  exists s'. split; [exact H2|]. split; [|exact Hn].
  unfold run_setter. now rewrite H2.
Qed.

Lemma setters_nest_at_most_once_witness :
  exists s', call 2 (SetTabbedSelectorSectionEnabled true)
               (mkSettings both_panels_settings true []) = Some s'
             /\ run_setter (SetTabbedSelectorSectionEnabled true)
                  (mkSettings both_panels_settings true []) = s'
             /\ forall n, (2 <= n)%nat ->
                  call n (SetTabbedSelectorSectionEnabled true)
                    (mkSettings both_panels_settings true []) = Some s'.
Proof.
  exact (setters_nest_at_most_once (SetTabbedSelectorSectionEnabled true)
           (mkSettings both_panels_settings true [])).
Defined.

(** The enumerated fields of a fresh record survive a blob that carries 7
    for the selector tab. *)
Lemma decode_keeps_enums_legal_witness :
  enums_legal cpp_tags fresh_settings
  /\ enums_legal cpp_tags
       (after (constructFromSerialized demo_setFromSerialized cpp_tags
                 (blob_with_selectorTab 7) fresh_settings)).
Proof.
  assert (H : enums_legal cpp_tags fresh_settings)
    by (repeat split; vm_compute; auto 10).
  split; [exact H|].
  exact (decode_keeps_enums_legal demo_setFromSerialized cpp_tags
           (blob_with_selectorTab 7) fresh_settings H).
Defined.

(** The blob of [used_settings] with three more bytes at its end. *)
Lemma decode_ignores_trailing_bytes_witness :
  valid demo_serialize cpp_tags used_settings
  /\ codec_roundtrip demo_serialize demo_setFromSerialized
  /\ constructFromSerialized demo_setFromSerialized cpp_tags
       (Some (ba_bytes (serialize demo_serialize used_settings)
              ++ [x00; x00; x01])) fresh_settings
     = constructFromSerialized demo_setFromSerialized cpp_tags
         (serialize demo_serialize used_settings) fresh_settings.
Proof.
  split; [prove_valid|]. split; [prove_codec_roundtrip|].
  apply (decode_ignores_trailing_bytes demo_serialize demo_setFromSerialized
           cpp_tags used_settings fresh_settings [x00; x00; x01]);
    [prove_valid | prove_codec_roundtrip].
Defined.

(** A blob of the older format with the value 4 at its end. *)
Lemma decode_legacy_sentinel_witness :
  well_typed demo_serialize used_settings
  /\ is_int32 4
  /\ outcome (constructFromSerialized demo_setFromSerialized cpp_tags
                (blob_with_legacy demo_serialize used_settings 4)
                fresh_settings)
     = Applied
  /\ hadLegacyCallsPeerToPeerNobody
       (after (constructFromSerialized demo_setFromSerialized cpp_tags
                 (blob_with_legacy demo_serialize used_settings 4)
                 fresh_settings))
     = (4 =? 4).
Proof.
  split; [prove_well_typed|]. split; [prove_range|].
  apply (decode_legacy_sentinel demo_serialize demo_setFromSerialized
           cpp_tags used_settings fresh_settings 4);
    [prove_well_typed | prove_range].
Defined.

(** The migration with a [moveFrom] that takes the record over and keeps the
    rest of the session's settings. *)
Lemma moveSettingsFrom_migrates_legacy_witness :
  (forall a b : AuthSessionSettings bool,
      _variables (mkSettings (_variables b) (_tabbedReplacedWithInfo a)
                    (fired a))
      = _variables b)
  /\ valid demo_serialize cpp_tags used_settings
  /\ codec_roundtrip demo_serialize demo_setFromSerialized
  /\ is_int32 4
  /\ snd (moveSettingsFrom
            (fun a b => mkSettings (_variables b) (_tabbedReplacedWithInfo a)
                          (fired a))
            (mkSettings fresh_settings false [])
            (mkSettings
               (after (constructFromSerialized demo_setFromSerialized
                         cpp_tags
                         (blob_with_legacy demo_serialize used_settings 4)
                         fresh_settings))
               false []))
     = (if 4 =? 4
        then [SavePrivacyPhoneP2PDisallowAll; SaveSettingsDelayed]
        else [])
  /\ snd (moveSettingsFrom
            (fun a b => mkSettings (_variables b) (_tabbedReplacedWithInfo a)
                          (fired a))
            (mkSettings fresh_settings false [])
            (mkSettings
               (after (constructFromSerialized demo_setFromSerialized
                         cpp_tags (serialize demo_serialize used_settings)
                         fresh_settings))
               false []))
     = [].
Proof.
  split; [reflexivity|]. split; [prove_valid|].
  split; [prove_codec_roundtrip|]. split; [prove_range|].
  apply (moveSettingsFrom_migrates_legacy demo_serialize
           demo_setFromSerialized cpp_tags
           (fun a b => mkSettings (_variables b) (_tabbedReplacedWithInfo a)
                         (fired a))
           (mkSettings fresh_settings false [])
           used_settings fresh_settings 4);
    [reflexivity | prove_valid | prove_codec_roundtrip | prove_range].
Defined.

(** The blob of [used_settings] cut five bytes into its fourth group, inside
    the first sound override. *)
Lemma torn_blob_rejected_witness :
  well_typed demo_serialize used_settings
  /\ (3 < 20)%nat
  /\ firstn 5 (nth 3 (serialize_groups demo_serialize used_settings) [])
     <> []
  /\ cut_of
       (firstn 5 (nth 3 (serialize_groups demo_serialize used_settings) []))
       (nth 3 (serialize_groups demo_serialize used_settings) [])
  /\ constructFromSerialized demo_setFromSerialized cpp_tags
       (Some (concat (firstn 3 (serialize_groups demo_serialize
                                  used_settings))
              ++ firstn 5 (nth 3 (serialize_groups demo_serialize
                                    used_settings) [])))
       fresh_settings
     = mkDecoded BadData fresh_settings [bad_data_message].
Proof.
  assert (Hcut : cut_of
            (firstn 5 (nth 3 (serialize_groups demo_serialize
                                used_settings) []))
            (nth 3 (serialize_groups demo_serialize used_settings) [])).
  { exists (skipn 5 (nth 3 (serialize_groups demo_serialize
                             used_settings) [])).
    split; [vm_compute; discriminate | apply firstn_skipn]. }
  split; [prove_well_typed|]. split; [lia|].
  split; [vm_compute; discriminate|]. split; [exact Hcut|].
  apply (torn_blob_rejected demo_serialize demo_setFromSerialized cpp_tags
           used_settings fresh_settings 3
           (firstn 5 (nth 3 (serialize_groups demo_serialize
                               used_settings) [])));
    [prove_well_typed | lia | vm_compute; discriminate | exact Hcut].
Defined.

(** The sounds of [used_settings]: ["call"] has an override, ["ring"] has
    none. *)
Lemma getSoundPath_lookup_witness :
  qmap_sorted (soundOverrides used_settings)
  /\ getSoundPath (Some [99; 97; 108; 108]) used_settings
     = Some [47; 97; 46; 109; 112; 51]
  /\ getSoundPath (Some [114; 105; 110; 103]) used_settings
     = Some ([58; 47; 115; 111; 117; 110; 100; 115; 47]
             ++ [114; 105; 110; 103] ++ [46; 109; 112; 51]).
Proof.
  assert (Hs : qmap_sorted (soundOverrides used_settings)).
  { unfold qmap_sorted; cbn.
    repeat (constructor; try reflexivity). }
  split; [exact Hs|]. split.
  - apply (proj1 (getSoundPath_lookup (Some [99; 97; 108; 108])
                    used_settings Hs)
             (Some [99; 97; 108; 108]) (Some [47; 97; 46; 109; 112; 51]));
      [left; reflexivity | reflexivity].
  - apply (proj2 (getSoundPath_lookup (Some [114; 105; 110; 103])
                    used_settings Hs)).
    intros k value [H | [H | []]]; inversion H; subst; cbn; discriminate.
Defined.

(** A blob that lists ["msg"] twice and ["call"] once. *)
Lemma decode_overrides_last_wins_witness :
  well_typed demo_serialize used_settings
  /\ Z.of_nat (length [(Some [109; 115; 103], Some [49]);
                       (Some [99; 97; 108; 108], Some [50]);
                       (Some [109; 115; 103], Some [51])]) < 2 ^ 31
  /\ Forall (fun kv : QString * QString =>
               is_utf16 (fst kv) /\ is_utf16 (snd kv))
       [(Some [109; 115; 103], Some [49]);
        (Some [99; 97; 108; 108], Some [50]);
        (Some [109; 115; 103], Some [51])]
  /\ outcome (constructFromSerialized demo_setFromSerialized cpp_tags
                (blob_with_overrides demo_serialize used_settings
                   [(Some [109; 115; 103], Some [49]);
                    (Some [99; 97; 108; 108], Some [50]);
                    (Some [109; 115; 103], Some [51])])
                fresh_settings)
     = Applied
  /\ getSoundPath (Some [109; 115; 103])
       (after (constructFromSerialized demo_setFromSerialized cpp_tags
                 (blob_with_overrides demo_serialize used_settings
                    [(Some [109; 115; 103], Some [49]);
                     (Some [99; 97; 108; 108], Some [50]);
                     (Some [109; 115; 103], Some [51])])
                 fresh_settings))
     = Some [51].
Proof.
  assert (Hu : Forall (fun kv : QString * QString =>
                         is_utf16 (fst kv) /\ is_utf16 (snd kv))
                 [(Some [109; 115; 103], Some [49]);
                  (Some [99; 97; 108; 108], Some [50]);
                  (Some [109; 115; 103], Some [51])]).
  { repeat (first [ apply Forall_nil | apply Forall_cons | split
                  | prove_range ]). }
  split; [prove_well_typed|]. split; [cbn; lia|]. split; [exact Hu|].
  destruct (decode_overrides_last_wins demo_serialize demo_setFromSerialized
              cpp_tags used_settings fresh_settings
              [(Some [109; 115; 103], Some [49]);
               (Some [99; 97; 108; 108], Some [50]);
               (Some [109; 115; 103], Some [51])])
    as [Ho Hg]; [prove_well_typed | cbn; lia | exact Hu |].
  split; [exact Ho|]. exact (Hg (Some [109; 115; 103])).
Defined.

(** A blob that lists the ids 7, 3 and 7 again. *)
Lemma decode_hidden_sections_set_witness :
  well_typed demo_serialize used_settings
  /\ Z.of_nat (length [7; 3; 7]) < 2 ^ 31
  /\ Forall is_uint64 [7; 3; 7]
  /\ outcome (constructFromSerialized demo_setFromSerialized cpp_tags
                (blob_with_hidden demo_serialize used_settings [7; 3; 7])
                fresh_settings)
     = Applied
  /\ flat_set_sorted
       (groupStickersSectionHidden
          (after (constructFromSerialized demo_setFromSerialized cpp_tags
                    (blob_with_hidden demo_serialize used_settings
                       [7; 3; 7])
                    fresh_settings)))
  /\ forall x,
       In x (groupStickersSectionHidden
               (after (constructFromSerialized demo_setFromSerialized
                         cpp_tags
                         (blob_with_hidden demo_serialize used_settings
                            [7; 3; 7])
                         fresh_settings)))
       <-> In x [7; 3; 7].
Proof.
  assert (Hu : Forall is_uint64 [7; 3; 7]).
  { repeat (first [ apply Forall_nil | apply Forall_cons | prove_range ]). }
  split; [prove_well_typed|]. split; [cbn; lia|]. split; [exact Hu|].
  apply (decode_hidden_sections_set demo_serialize demo_setFromSerialized
           cpp_tags used_settings fresh_settings [7; 3; 7]);
    [prove_well_typed | cbn; lia | exact Hu].
Defined.

(** [setThirdSectionInfoEnabled(false)] on a record whose info panel is off
    already, with the replaced flag set: nothing is fired, nothing changes. *)
Lemma setters_fire_on_change_witness :
  run_setter (SetThirdSectionInfoEnabled false)
    (mkSettings used_settings true [])
  = mkSettings used_settings true [].
Proof.
  apply (proj1 (setters_fire_on_change (SetThirdSectionInfoEnabled false)
                  (mkSettings used_settings true []))).
  reflexivity.
Defined.

(** A passcode, a timeout of one minute, the user idle for twenty seconds at
    the time 100 s: the timer is armed for the forty seconds left, and the
    check at the time 140 s locks. *)
Lemma checkAutoLock_deadline_witness :
  plausible (mkLockInputs true false 100000 80000 60) 0
  /\ checkAutoLock (mkLockInputs true false 100000 80000 60) 0
     = (140000, [CheckLocalTime; TimerCallOnce 40000])
  /\ checkAutoLock (mkLockInputs true false 140000 80000 60) 140000
     = (0, [CheckLocalTime; TimerCancel; LockByPasscode]).
Proof.
  assert (Hp : plausible (mkLockInputs true false 100000 80000 60) 0)
    by (unfold plausible; cbn; lia).
  split; [exact Hp|].
  destruct (checkAutoLock_deadline
              (mkLockInputs true false 100000 80000 60)
              (mkLockInputs true false 140000 80000 60) 0)
    as (Harm & _ & Hdue);
    [exact Hp | reflexivity | reflexivity | cbn; lia | left; reflexivity |].
  split; [exact Harm|].
  apply Hdue; [reflexivity | reflexivity | reflexivity | reflexivity
              | cbn; lia].
Defined.

(** The passcode changed while the user has been idle for twenty seconds of
    the minute. *)
Lemma localPasscodeChanged_rearms_witness :
  plausible (mkLockInputs true false 100000 80000 60) 0
  /\ localPasscodeChanged (mkLockInputs true false 100000 80000 60)
     = (140000, [TimerCancel; CheckLocalTime; TimerCallOnce 40000]).
Proof.
  assert (Hp : plausible (mkLockInputs true false 100000 80000 60) 0)
    by (unfold plausible; cbn; lia).
  split; [exact Hp|].
  apply (localPasscodeChanged_rearms
           (mkLockInputs true false 100000 80000 60));
    [exact Hp | reflexivity | reflexivity].
Defined.

(** The blob of [used_settings] that stops after the selector tab. *)
Lemma construct_truncated_1_witness :
  is_int32 (selectorTab used_settings)
  /\ constructFromSerialized demo_setFromSerialized cpp_tags
       (truncate_after_group demo_serialize 1 used_settings) fresh_settings
     = mkDecoded BadData fresh_settings [bad_data_message].
Proof.
  split; [prove_range|].
  apply (construct_truncated_1 demo_serialize demo_setFromSerialized
           cpp_tags used_settings fresh_settings).
  prove_range.
Defined.

(** The delegated decoder that spoils its object: the rejected blob changes
    the [autoDownload] member and nothing else. *)
Lemma decode_autoDownload_rejected_frame_witness :
  outcome (constructFromSerialized sloppy_setFromSerialized cpp_tags
             blob_with_bad_autoDownload fresh_settings)
  = AutoDownloadRejected
  /\ exists a,
       after (constructFromSerialized sloppy_setFromSerialized cpp_tags
                blob_with_bad_autoDownload fresh_settings)
       = with_autoDownload fresh_settings a.
Proof.
  split; [reflexivity|].
  apply (decode_autoDownload_rejected_frame sloppy_setFromSerialized
           cpp_tags blob_with_bad_autoDownload fresh_settings).
  reflexivity.
Defined.

(** A fresh record, whose ratio 5/14 the first round trip turns into
    0.357143, restored into [used_settings]: the second round trip changes
    nothing. *)
Lemma restored_settings_stable_witness :
  valid demo_serialize cpp_tags fresh_settings
  /\ well_typed demo_serialize used_settings
  /\ codec_roundtrip demo_serialize demo_setFromSerialized
  /\ constructFromSerialized demo_setFromSerialized cpp_tags
       (serialize demo_serialize
          (after (constructFromSerialized demo_setFromSerialized cpp_tags
                    (serialize demo_serialize fresh_settings)
                    used_settings)))
       used_settings
     = mkDecoded Applied
         (after (constructFromSerialized demo_setFromSerialized cpp_tags
                   (serialize demo_serialize fresh_settings) used_settings))
         [].
Proof.
  split; [prove_valid|]. split; [prove_well_typed|].
  split; [prove_codec_roundtrip|].
  apply (proj2 (restored_settings_stable demo_serialize
                  demo_setFromSerialized cpp_tags
                  fresh_settings used_settings
                  fresh_settings_valid
                  (valid_typed used_settings_valid)
                  demo_codec_roundtrip)).
Defined.

(** The clock jumped: the user was active a second ago, but the deadline
    stored by the last check is a minute in the past, so the check locks. *)
Lemma checkAutoLock_outcomes_witness :
  plausible (mkLockInputs true false 200000 199000 60) 140000
  /\ In LockByPasscode
       (snd (checkAutoLock (mkLockInputs true false 200000 199000 60)
               140000)).
Proof.
  assert (Hp : plausible (mkLockInputs true false 200000 199000 60) 140000)
    by (unfold plausible; cbn; lia).
  split; [exact Hp|].
  apply (proj1 (checkAutoLock_outcomes
                  (mkLockInputs true false 200000 199000 60) 140000 Hp)).
  split; [reflexivity|]. split; [reflexivity|].
  right. unfold kAutoLockTimeoutLateMs. cbn. lia.
Defined.

(** A fresh record through a setter call, a blob that carries 7 for the
    selector tab, a blob cut inside a field, and another setter call. *)
Lemma session_invariants_kept_witness :
  panels_exclusive (_variables (mkSettings fresh_settings false []))
  /\ enums_legal cpp_tags (_variables (mkSettings fresh_settings false []))
  /\ panels_exclusive
       (_variables
          (run_ops demo_setFromSerialized cpp_tags
             [OpSetter (SetTabbedSelectorSectionEnabled true);
              OpConstructFromSerialized (blob_with_selectorTab 7);
              OpConstructFromSerialized cut_mid_field;
              OpSetter (SetThirdSectionInfoEnabled true)]
             (mkSettings fresh_settings false [])))
  /\ enums_legal cpp_tags
       (_variables
          (run_ops demo_setFromSerialized cpp_tags
             [OpSetter (SetTabbedSelectorSectionEnabled true);
              OpConstructFromSerialized (blob_with_selectorTab 7);
              OpConstructFromSerialized cut_mid_field;
              OpSetter (SetThirdSectionInfoEnabled true)]
             (mkSettings fresh_settings false []))).
Proof.
  assert (He : panels_exclusive
                 (_variables (mkSettings fresh_settings false [])))
    by (intros [H _]; discriminate H).
  assert (Hl : enums_legal cpp_tags
                 (_variables (mkSettings fresh_settings false [])))
    by (repeat split; vm_compute; auto 10).
  split; [exact He|]. split; [exact Hl|].
  exact (session_invariants_kept demo_setFromSerialized cpp_tags
           [OpSetter (SetTabbedSelectorSectionEnabled true);
            OpConstructFromSerialized (blob_with_selectorTab 7);
            OpConstructFromSerialized cut_mid_field;
            OpSetter (SetThirdSectionInfoEnabled true)]
           (mkSettings fresh_settings false []) He Hl).
Defined.
